(** * StatsD input plugin: aggregation, keying and flush

    A shallow embedding of the statsd listener of telegraf
    (package [statsd], file [statsd.go]): the line parser
    [parseStatsdLine], the name keying [parseName], the per-type caches
    updated by [aggregate], the flush [Gather] with its TTL eviction
    [expireCachedMetrics], the queue-overflow branches of the TCP and
    UDP listeners, and the bookkeeping of the TCP connections (the
    permits of the channel [accept] and the table [conns]) shared by
    [Start], [tcpListen], [handler], [remember], [forget], [refuser] and
    [Stop].

    Conventions of the embedding.
    - [int64] and [int] are [Z] with the two's-complement wrap-around
      written out ([wrap64]); the platform is taken to be 64-bit.
    - [float64] is IEEE 754 binary64, as [spec_float] with precision 53
      and maximal exponent 1024; all operations round to nearest even.
    - Go strings are byte strings ([string] is a list of [ascii] bytes).
    - Go maps are [gmap]; where the code ranges over a map the model
      ranges over [map_to_list], and the order independence that the
      code relies on is proved where a claim depends on it.
    - A Go panic is the [Panic] result; functions that can log or mutate
      the plugin thread the [Statsd] record explicitly.
    - [time.Time] is [Z] (nanoseconds on the monotonic clock); every
      function that reads the clock takes the reading as an argument.
    - The aggregation mutex is not modelled: each modelled call runs
      atomically, which is what the lock provides for [aggregate] and
      [Gather]. *)

From Stdlib Require Import ZArith Strings.String Strings.Ascii List Bool Sorting.Permutation Sorting.Sorted.
From Stdlib Require Import Floats.SpecFloat.
From stdpp Require Import base option list gmap strings fin_maps sorting.

Local Open Scope string_scope.
Local Open Scope list_scope.
Local Open Scope Z_scope.

(** ** Go integers *)

Definition minInt64 : Z := - 2 ^ 63.
Definition maxInt64 : Z := 2 ^ 63 - 1.

(** Two's-complement wrap-around of a 64-bit signed integer. *)
Definition wrap64 (z : Z) : Z := (z + 2 ^ 63) mod 2 ^ 64 - 2 ^ 63.

Definition inInt64 (z : Z) : bool := (minInt64 <=? z) && (z <=? maxInt64).

(** ** Go float64 *)

Abbreviation float64 := spec_float.

Definition prec64 : Z := 53.
Definition emax64 : Z := 1024.

Definition f64_add : float64 -> float64 -> float64 := SFadd prec64 emax64.
Definition f64_div : float64 -> float64 -> float64 := SFdiv prec64 emax64.

(** [float64(v)] for an integer [v]. *)
Definition f64_of_Z (v : Z) : float64 := binary_normalize prec64 emax64 v 0 false.

Definition f64_zero : float64 := S754_zero false.
Definition f64_one : float64 := f64_of_Z 1.

(** Go comparisons on float64: every comparison with NaN is false, so
    [x != y] is true when one side is NaN. *)
Definition f64_gtb (x y : float64) : bool := SFltb y x.
Definition f64_neb (x y : float64) : bool := negb (SFeqb x y).

(** The integer part of a finite float, rounded toward zero. *)
Definition f64_trunc (f : float64) : option Z :=
  match f with
  | S754_zero _ => Some 0
  | S754_finite sg m e =>
      let a := if 0 <=? e then Z.shiftl (Z.pos m) e else Z.shiftr (Z.pos m) (- e) in
      Some (if sg then - a else a)
  | _ => None
  end.

(** ** Go strings *)

Definition byteString (a : ascii) : string := String a EmptyString.

(** [strings.Split(s, sep)] for a one-byte separator: always at least one
    piece. *)
Fixpoint Split (s : string) (sep : ascii) : list string :=
  match s with
  | EmptyString => [EmptyString]
  | String a r =>
      if Ascii.eqb a sep then EmptyString :: Split r sep
      else match Split r sep with
           | p :: ps => String a p :: ps
           | [] => [byteString a]
           end
  end.

(** [strings.Join(elems, sep)]. *)
Fixpoint Join (elems : list string) (sep : string) : string :=
  match elems with
  | [] => EmptyString
  | [e] => e
  | e :: rest => e +:+ sep +:+ Join rest sep
  end.

(** [strings.HasPrefix(s, prefix)]. *)
Definition HasPrefix (s pre : string) : bool := String.prefix pre s.

(** [strings.Contains(s, c)] for a one-byte substring. *)
Fixpoint Contains (s : string) (c : ascii) : bool :=
  match s with
  | EmptyString => false
  | String a r => Ascii.eqb a c || Contains r c
  end.

(** [s[n:]] for [n <= len(s)]. *)
Fixpoint sliceFrom (n : nat) (s : string) : string :=
  match n, s with
  | O, _ => s
  | S n', String _ r => sliceFrom n' r
  | S _, EmptyString => EmptyString
  end.

(** [strings.ReplaceAll(s, old, new)] for a one-byte [old]. *)
Fixpoint ReplaceAll (s : string) (old : ascii) (new : string) : string :=
  match s with
  | EmptyString => EmptyString
  | String a r =>
      if Ascii.eqb a old then new +:+ ReplaceAll r old new
      else String a (ReplaceAll r old new)
  end.

(** [sort.Strings]: ascending byte-wise lexicographic order. *)
Fixpoint insertSorted (x : string) (l : list string) : list string :=
  match l with
  | [] => [x]
  | y :: r => if String.leb x y then x :: l else y :: insertSorted x r
  end.

Fixpoint sortStrings (l : list string) : list string :=
  match l with
  | [] => []
  | x :: r => insertSorted x (sortStrings r)
  end.

(** [strconv.ParseInt(s, 10, 64)]: an optional sign, then one or more
    decimal digits; [None] stands for a non-nil error (syntax or range). *)
Definition digitOf (a : ascii) : option Z :=
  let n := Z.of_N (N_of_ascii a) in
  if (48 <=? n) && (n <=? 57) then Some (n - 48) else None.

Fixpoint parseDigits (acc : Z) (s : string) : option Z :=
  match s with
  | EmptyString => Some acc
  | String a r =>
      match digitOf a with
      | Some d => parseDigits (10 * acc + d) r
      | None => None
      end
  end.

Definition parseUint (s : string) : option Z :=
  match s with
  | EmptyString => None
  | _ => parseDigits 0 s
  end.

Definition ParseInt (s : string) : option Z :=
  let '(neg, body) :=
    match s with
    | String "+" r => (false, r)
    | String "-" r => (true, r)
    | _ => (false, s)
    end in
  match parseUint body with
  | Some n => let v := if neg then - n else n in
              if inInt64 v then Some v else None
  | None => None
  end.

(** ** What the plugin calls and does not define

    [GoLib] collects the functions of the Go runtime and standard library
    that the modelled code calls and whose definition is not part of the
    plugin. [decimalGoLib] below is the instance used to run examples. *)
Class GoLib := {
  (** [strconv.ParseFloat(s, 64)]; [None] stands for a non-nil error. *)
  ParseFloat : string -> option float64;
  (** The implementation-defined result of [int64(f)] when [f] is NaN, an
      infinity, or has an integer part outside of the int64 range. *)
  int64OutOfRange : float64 -> Z;
  (** [strings.TrimSpace]. *)
  TrimSpace : string -> string;
  (** [t.Format(time.RFC3339)]. *)
  FormatRFC3339 : Z -> string;
  (** [fmt.Sprintf] of a percentile with the verb [%v]. *)
  FormatNumber : float64 -> string
}.

(** [Collaborators] collects the parts of the repository that the
    modelled functions call and that are defined in other files: the
    graphite template parser, the DataDog helpers of [datadog.go] and the
    running statistics of [running_stats.go]. They are parameters of the
    model. The random choice that [addValue] makes once the reservoir is
    full is part of the parameter. *)
Class Collaborators := {
  (** [p.Init()] of a [graphite.Parser] built from a separator and
      templates: [true] when it returns an error. *)
  graphiteInitFails : string -> list string -> bool;
  (** [p.ApplyTemplate(name)] with [p.DefaultTags] set to the third
      argument: measurement name, tags and field (the error is ignored by
      the caller). *)
  ApplyTemplate : string -> list string -> gmap string string -> string ->
                  string * gmap string string * string;
  (** [parseDataDogTags(tags, message)]: the tag map after the call. *)
  parseDataDogTags : gmap string string -> string -> gmap string string;
  (** [s.parseEventMessage(now, message, defaultHostname)]: [true] when it
      returns an error. *)
  parseEventMessageFails : Z -> string -> string -> bool;
  runningStats : Type;
  (** [runningStats{percLimit: n}]. *)
  newRunningStats : Z -> runningStats;
  addValue : runningStats -> float64 -> runningStats;
  mean : runningStats -> float64;
  median : runningStats -> float64;
  stddev : runningStats -> float64;
  sum : runningStats -> float64;
  upper : runningStats -> float64;
  lower : runningStats -> float64;
  count : runningStats -> Z;
  percentile : runningStats -> float64 -> float64
}.

(** ** Data model *)

(** A value stored in a [map[string]interface{}]. *)
Inductive iface :=
| VInt64 (z : Z)
| VFloat64 (f : float64)
| VString (s : string).

(** The four cache entry structs [cachedgauge], [cachedcounter],
    [cachedset] and [cachedtimings] have the same fields and differ in the
    type of the values of [fields]. *)
Record cached (V : Type) := mkCached {
  name : string;
  fields : gmap string V;
  tags : gmap string string;
  expiresAt : Z
}.
Arguments mkCached {V}.
Arguments name {V}.
Arguments fields {V}.
Arguments tags {V}.
Arguments expiresAt {V}.

Abbreviation cachedgauge := (cached iface).
Abbreviation cachedcounter := (cached iface).
Abbreviation cachedset := (cached (gset string)).

Record cacheddistributions := mkDistribution {
  dname : string;
  dvalue : float64;
  dtags : gmap string string
}.

(** One statsd metric, [<bucket>:<value>|<mtype>|@<samplerate>]. Its
    fields [name], [field] and [tags] are [mname], [mfield] and [mtags]
    here, the plain names being those of the cache entries. *)
Record metric := mkMetric {
  mname : string;
  mfield : string;
  bucket : string;
  hash : string;
  intvalue : Z;
  floatvalue : float64;
  strvalue : string;
  mtype : string;
  additive : bool;
  samplerate : float64;
  mtags : gmap string string
}.

(** The cached [*graphite.Parser]: the fields it was built from. *)
Record graphiteParser := mkGraphite {
  Separator : string;
  gTemplates : list string
}.

Inductive level := Error | Debug.

(** One call of [s.Log.Errorf] or [s.Log.Debugf]: the format string and
    its arguments. Where the argument is the text of an error value, it
    is represented by the input that failed to parse. *)
Record logEntry := mkLog {
  lvl : level;
  format : string;
  args : list iface
}.

(** The options of the plugin: the exported fields of [Statsd] that the
    modelled functions read, kept together as the field [config] of the
    record [Statsd] below. *)
Record Config := mkConfig {
  AllowedPendingMessages : Z;
  Percentiles : list float64;
  PercentileLimit : Z;
  DeleteGauges : bool;
  DeleteCounters : bool;
  DeleteSets : bool;
  DeleteTimings : bool;
  ConvertNames : bool;
  FloatCounters : bool;
  FloatTimings : bool;
  FloatSets : bool;
  EnableAggregationTemporality : bool;
  MetricSeparator : string;
  DataDogExtensions : bool;
  DataDogDistributions : bool;
  DataDogKeepContainerTag : bool;
  SanitizeNamesMethod : string;
  Templates : list string;
  MaxTTL : Z
}.

Inductive panic :=
| InterfaceConversion (got : iface) (want : string)
| IntegerDivideByZero.

Inductive result (A : Type) :=
| Ok (a : A)
| Panic (p : panic).
Arguments Ok {A}.
Arguments Panic {A}.

Definition bind {A B : Type} (r : result A) (k : A -> result B) : result B :=
  match r with
  | Ok a => k a
  | Panic p => Panic p
  end.

Notation "x <- r ;; k" := (bind r (fun x => k))
  (at level 100, r at next level, right associativity).

(** A Go [error]: [errParsing] is the one that [parseStatsdLine] returns. *)
Inductive error :=
| errParsing
| errOther (msg : string).

(** One call of the accumulator. *)
Inductive sink := AddFields | AddGauge | AddCounter.

Record emitted := mkEmitted {
  via : sink;
  measurement : string;
  efields : gmap string iface;
  etags : gmap string string;
  timestamp : Z
}.

Definition defaultFieldName : string := "value".
Definition defaultSeparator : string := "_".

Section Model.
Context `{GoLib} `{Collaborators}.

Abbreviation cachedtimings := (cached runningStats).

(** The plugin: its options and the part of its state that the modelled
    functions read or write. *)
Record Statsd := mkStatsd {
  config : Config;
  drops : Z;
  gauges : gmap string cachedgauge;
  counters : gmap string cachedcounter;
  sets : gmap string cachedset;
  timings : gmap string cachedtimings;
  distributions : list cacheddistributions;
  graphite : option graphiteParser;
  lastGatherTime : Z;
  Log : list logEntry
}.

Definition set_drops (d : Z) (s : Statsd) : Statsd :=
  mkStatsd (config s) d (gauges s) (counters s) (sets s) (timings s)
           (distributions s) (graphite s) (lastGatherTime s) (Log s).
Definition set_gauges (g : gmap string cachedgauge) (s : Statsd) : Statsd :=
  mkStatsd (config s) (drops s) g (counters s) (sets s) (timings s)
           (distributions s) (graphite s) (lastGatherTime s) (Log s).
Definition set_counters (c : gmap string cachedcounter) (s : Statsd) : Statsd :=
  mkStatsd (config s) (drops s) (gauges s) c (sets s) (timings s)
           (distributions s) (graphite s) (lastGatherTime s) (Log s).
Definition set_sets (x : gmap string cachedset) (s : Statsd) : Statsd :=
  mkStatsd (config s) (drops s) (gauges s) (counters s) x (timings s)
           (distributions s) (graphite s) (lastGatherTime s) (Log s).
Definition set_timings (t : gmap string cachedtimings) (s : Statsd) : Statsd :=
  mkStatsd (config s) (drops s) (gauges s) (counters s) (sets s) t
           (distributions s) (graphite s) (lastGatherTime s) (Log s).
Definition set_distributions (d : list cacheddistributions) (s : Statsd) : Statsd :=
  mkStatsd (config s) (drops s) (gauges s) (counters s) (sets s) (timings s)
           d (graphite s) (lastGatherTime s) (Log s).
Definition set_graphite (p : option graphiteParser) (s : Statsd) : Statsd :=
  mkStatsd (config s) (drops s) (gauges s) (counters s) (sets s) (timings s)
           (distributions s) p (lastGatherTime s) (Log s).
Definition set_lastGatherTime (t : Z) (s : Statsd) : Statsd :=
  mkStatsd (config s) (drops s) (gauges s) (counters s) (sets s) (timings s)
           (distributions s) (graphite s) t (Log s).
Definition set_config (c : Config) (s : Statsd) : Statsd :=
  mkStatsd c (drops s) (gauges s) (counters s) (sets s) (timings s)
           (distributions s) (graphite s) (lastGatherTime s) (Log s).

(** [s.Log.Errorf] and [s.Log.Debugf]. *)
Definition logf (l : level) (fmt : string) (a : list iface) (s : Statsd) : Statsd :=
  mkStatsd (config s) (drops s) (gauges s) (counters s) (sets s) (timings s)
           (distributions s) (graphite s) (lastGatherTime s)
           (Log s ++ [mkLog l fmt a]).

(** The options with another metric separator. *)
Definition withSeparator (sep : string) (c : Config) : Config :=
  mkConfig (AllowedPendingMessages c) (Percentiles c) (PercentileLimit c)
           (DeleteGauges c) (DeleteCounters c) (DeleteSets c) (DeleteTimings c)
           (ConvertNames c) (FloatCounters c) (FloatTimings c) (FloatSets c)
           (EnableAggregationTemporality c) sep (DataDogExtensions c)
           (DataDogDistributions c) (DataDogKeepContainerTag c) (SanitizeNamesMethod c)
           (Templates c) (MaxTTL c).

(** The plugin as [Start] leaves it: empty caches, no drop, and the
    default separator in place of an empty one. The listeners, the
    workers and the self-statistics that [Start] sets up are not part of
    the model. *)
Definition Start (c : Config) (now : Z) : Statsd :=
  mkStatsd (if String.eqb (MetricSeparator c) EmptyString
            then withSeparator defaultSeparator c else c)
           0 ∅ ∅ ∅ ∅ [] None now [].

(** [int64(f)] and [int(f)]: truncation toward zero. *)
Definition int64_of_f64 (f : float64) : Z :=
  match f64_trunc f with
  | Some z => if inInt64 z then z else wrap64 (int64OutOfRange f)
  | None => wrap64 (int64OutOfRange f)
  end.

(** ** [parseName] and its helpers *)

(** Parse the key,value out of a string that looks like "key=value". *)
Definition parseKeyValue (keyValue : string) : string * string :=
  match Split keyValue "=" with
  | [k; v] => (k, v)
  | [v] => (EmptyString, v)
  | k :: rest => (k, Join rest "=")
  | [] => (EmptyString, EmptyString)
  end.

(** The class [\s] of Go regular expressions: tab, newline, form feed,
    carriage return and space. *)
Definition isWhitespace (a : ascii) : bool :=
  let n := N_of_ascii a in
  (N.eqb n 9 || N.eqb n 10 || N.eqb n 12 || N.eqb n 13 || N.eqb n 32)%N.

(** [whitespace.ReplaceAllString(name, "_")] for the expression [\s+]:
    every maximal run of whitespace becomes one underscore. *)
Fixpoint whitespace_ReplaceAll (inRun : bool) (s : string) : string :=
  match s with
  | EmptyString => EmptyString
  | String a r =>
      if isWhitespace a then
        if inRun then whitespace_ReplaceAll true r
        else String "_" (whitespace_ReplaceAll true r)
      else String a (whitespace_ReplaceAll false r)
  end.

(** The class [a-zA-Z_\-0-9\.;=]. *)
Definition isAllowedChar (a : ascii) : bool :=
  let n := N_of_ascii a in
  ((N.leb 97 n && N.leb n 122) || (N.leb 65 n && N.leb n 90) ||
   (N.leb 48 n && N.leb n 57) ||
   N.eqb n 95 || N.eqb n 45 || N.eqb n 46 || N.eqb n 59 || N.eqb n 61)%N.

(** [allowedChars.ReplaceAllString(name, "")]: a byte outside of the
    class is removed (a byte of a multi-byte rune is never in the class,
    so the rune is removed as a whole). *)
Fixpoint allowedChars_ReplaceAll (s : string) : string :=
  match s with
  | EmptyString => EmptyString
  | String a r =>
      if isAllowedChar a then String a (allowedChars_ReplaceAll r)
      else allowedChars_ReplaceAll r
  end.

Definition sanitizeUpstream (name : string) : string :=
  allowedChars_ReplaceAll (ReplaceAll (whitespace_ReplaceAll false name) "/" "-").

(** The tags written in the bucket after the name. *)
Definition bucketTags (bucketparts : list string) : gmap string string :=
  fold_left (fun tags btag =>
               let '(k, v) := parseKeyValue btag in
               if String.eqb k EmptyString then tags else <[k := v]> tags)
            (tl bucketparts) ∅.

(** [parseName] parses the given bucket name with the list of bucket maps
    in the config file. Return values are (<name>, <field>, <tags>) and
    the plugin, whose cached graphite parser and log it may change. *)
Definition parseName (bucket : string) (s : Statsd)
  : string * string * gmap string string * Statsd :=
  let bucketparts := Split bucket "," in
  let tags0 := bucketTags bucketparts in
  let name0 := hd EmptyString bucketparts in
  let method := SanitizeNamesMethod (config s) in
  let '(name1, s1) :=
    if String.eqb method EmptyString then (name0, s)
    else if String.eqb method "upstream" then (sanitizeUpstream name0, s)
    else (name0, logf Error "Unknown sanitizae name method: %s" [VString method] s) in
  let sep := MetricSeparator (config s1) in
  let rebuild :=
    let p := mkGraphite sep (Templates (config s1)) in
    (p, graphiteInitFails sep (Templates (config s1)), set_graphite (Some p) s1) in
  let '(p, err, s2) :=
    match graphite s1 with
    | Some p => if String.eqb (Separator p) sep then (p, false, s1) else rebuild
    | None => rebuild
    end in
  let '(name2, tags1, field) :=
    if err then (name1, tags0, EmptyString)
    else ApplyTemplate (Separator p) (gTemplates p) tags0 name1 in
  let name3 :=
    if ConvertNames (config s2)
    then ReplaceAll (ReplaceAll name2 "." "_") "-" "__"
    else name2 in
  let field1 := if String.eqb field EmptyString then defaultFieldName else field in
  (name3, field1, tags1, s2).

(** ** The cache key *)

(** The key built from one traversal [kvs] of the tag map: the pairs
    [k=v] sorted, then the name, joined without a separator. *)
Definition makeHash (kvs : list (string * string)) (name : string) : string :=
  Join (sortStrings (map (fun kv => fst kv +:+ "=" +:+ snd kv) kvs) ++ [name]) EmptyString.

Definition hashOf (tags : gmap string string) (name : string) : string :=
  makeHash (map_to_list tags) name.

(** ** [aggregate] *)

(** The entry found under the hash, or the fresh entry that [aggregate]
    builds when there is none. *)
Definition cachedOr {V : Type} (c : gmap string (cached V)) (m : metric) : cached V :=
  match c !! hash m with
  | Some e => e
  | None => mkCached (mname m) ∅ (mtags m) 0
  end.

(** [cached.fields[m.field] = v; cached.expiresAt = now + MaxTTL]. *)
Definition touch {V : Type} (e : cached V) (field : string) (v : V)
    (now ttl : Z) : cached V :=
  mkCached (name e) (<[field := v]> (fields e)) (tags e) (now + ttl).

(** [aggregate] takes in a metric. It then aggregates and caches the
    current value(s). It does not deal with the Delete* options, because
    those are dealt with in the Gather function. *)
Definition aggregate (now : Z) (m : metric) (s : Statsd) : result Statsd :=
  let ttl := MaxTTL (config s) in
  if String.eqb (mtype m) "d" then
    if DataDogExtensions (config s) && DataDogDistributions (config s) then
      Ok (set_distributions
            (distributions s ++ [mkDistribution (mname m) (floatvalue m) (mtags m)]) s)
    else Ok s
  else if String.eqb (mtype m) "ms" || String.eqb (mtype m) "h" then
    let e := cachedOr (timings s) m in
    let field :=
      match fields e !! mfield m with
      | Some f => f
      | None => newRunningStats (PercentileLimit (config s))
      end in
    let field' :=
      if f64_gtb (samplerate m) f64_zero then
        Z.iter (int64_of_f64 (f64_div f64_one (samplerate m)))
               (fun f => addValue f (floatvalue m)) field
      else addValue field (floatvalue m) in
    Ok (set_timings (<[hash m := touch e (mfield m) field' now ttl]> (timings s)) s)
  else if String.eqb (mtype m) "c" then
    let e := cachedOr (counters s) m in
    let current :=
      match fields e !! mfield m with
      | Some v => v
      | None => VInt64 0
      end in
    match current with
    | VInt64 old =>
        Ok (set_counters
              (<[hash m := touch e (mfield m) (VInt64 (wrap64 (old + intvalue m))) now ttl]>
                 (counters s)) s)
    | other => Panic (InterfaceConversion other "int64")
    end
  else if String.eqb (mtype m) "g" then
    let e := cachedOr (gauges s) m in
    let current :=
      match fields e !! mfield m with
      | Some v => v
      | None => VFloat64 f64_zero
      end in
    if additive m then
      match current with
      | VFloat64 old =>
          Ok (set_gauges
                (<[hash m := touch e (mfield m) (VFloat64 (f64_add old (floatvalue m))) now ttl]>
                   (gauges s)) s)
      | other => Panic (InterfaceConversion other "float64")
      end
    else
      Ok (set_gauges
            (<[hash m := touch e (mfield m) (VFloat64 (floatvalue m)) now ttl]> (gauges s)) s)
  else if String.eqb (mtype m) "s" then
    let e := cachedOr (sets s) m in
    let members :=
      match fields e !! mfield m with
      | Some x => x
      | None => ∅
      end in
    Ok (set_sets (<[hash m := touch e (mfield m) ({[strvalue m]} ∪ members) now ttl]> (sets s)) s)
  else Ok s.

(** ** [parseStatsdLine] *)

(** The DataDog segments of the line: tags and container id are taken out
    and the rest is joined again. *)
Definition stripDataDog (line : string) (s : Statsd) : gmap string string * string :=
  if DataDogExtensions (config s) then
    let '(lineTags, recombinedSegments) :=
      fold_left
        (fun acc segment =>
           let '(lineTags, segs) := acc in
           match segment with
           | String "#" r => (parseDataDogTags lineTags r, segs)
           | _ =>
               if HasPrefix segment "c:" then
                 (if DataDogKeepContainerTag (config s)
                  then <["container" := sliceFrom 2 segment]> lineTags
                  else lineTags, segs)
               else (lineTags, (segs ++ [segment])%list)
           end)
        (Split line "|") (∅, []) in
    (lineTags, Join recombinedSegments "|")
  else (∅, line).

Definition isMetricType (t : string) : bool :=
  String.eqb t "g" || String.eqb t "c" || String.eqb t "s" ||
  String.eqb t "ms" || String.eqb t "h" || String.eqb t "d".

(** If a sample rate is given with a counter, divide value by the rate. *)
Definition counterValue (v : Z) (samplerate : float64) : Z :=
  if f64_neb samplerate f64_zero
  then int64_of_f64 (f64_div (f64_of_Z v) samplerate)
  else v.

(** The tags that [parseStatsdLine] adds for the metric type. *)
Definition typeTags (t : string) (s : Statsd) (tags : gmap string string)
  : gmap string string :=
  if String.eqb t "c" then
    let tags := <["metric_type" := "counter"]> tags in
    if EnableAggregationTemporality (config s) then
      if DeleteCounters (config s) then <["temporality" := "delta"]> tags
      else <["temporality" := "cumulative"]> tags
    else tags
  else if String.eqb t "g" then <["metric_type" := "gauge"]> tags
  else if String.eqb t "s" then <["metric_type" := "set"]> tags
  else if String.eqb t "ms" then <["metric_type" := "timing"]> tags
  else if String.eqb t "h" then <["metric_type" := "histogram"]> tags
  else if String.eqb t "d" then <["metric_type" := "distribution"]> tags
  else tags.

(** [m.tags[k] = v] for every line tag: the line tags win. *)
Definition mergeTags (lineTags tags : gmap string string) : gmap string string :=
  lineTags ∪ tags.

(** The sample rate of a value: the third pipe segment, when there is
    one. A rate that does not parse is logged and left at zero. *)
Definition parseSampleRate (line : string) (rest : list string) (s : Statsd)
  : float64 * Statsd :=
  match rest with
  | [] => (f64_zero, s)
  | sr :: _ =>
      if Contains sr "@" && (1 <? Z.of_nat (String.length sr)) then
        match ParseFloat (sliceFrom 1 sr) with
        | None => (f64_zero, logf Error "Parsing sample rate: %s" [VString (sliceFrom 1 sr)] s)
        | Some r => (r, s)
        end
      else
        (f64_zero,
         logf Debug
           "Sample rate must be in format like: @0.1, @0.5, etc. Ignoring sample rate for line: %s"
           [VString line] s)
  end.

(** The value fields [intvalue], [floatvalue] and [strvalue] of a metric
    of type [t] written as [v] (the two that the type does not use keep
    their zero value), or [None] when the value does not parse. *)
Definition parseValue (t v : string) (rate : float64) : option (Z * float64 * string) :=
  if String.eqb t "c" then
    match ParseInt v with
    | Some i => Some (counterValue i rate, f64_zero, EmptyString)
    | None =>
        match ParseFloat v with
        | Some v2 => Some (counterValue (int64_of_f64 v2) rate, f64_zero, EmptyString)
        | None => None
        end
    end
  else if String.eqb t "s" then Some (0, f64_zero, v)
  else
    match ParseFloat v with
    | Some f => Some (0, f, EmptyString)
    | None => None
    end.

Definition valueErrorFormat (t : string) : string :=
  if String.eqb t "c"
  then "Parsing value to int64, unable to parse metric: %s"
  else "Parsing value to float64, unable to parse metric: %s".

(** The body of the loop of [parseStatsdLine] over the values of a line,
    from the pipe segments of the value on: one value, validated, keyed
    and aggregated. The first component of the result is the error that
    the function returns at this value, if it does. *)
Definition parseStatsdLine_value (now : Z) (line bucketName : string)
    (lineTags : gmap string string) (pipesplit : list string) (s : Statsd)
  : result (option error * Statsd) :=
  match pipesplit with
  | v :: t :: rest =>
      let '(rate, s) := parseSampleRate line rest s in
      if negb (isMetricType t) then
        Ok (Some errParsing, logf Error "Metric type %q unsupported" [VString t] s)
      else
        let signed := HasPrefix v "-" || HasPrefix v "+" in
        if signed && negb (String.eqb t "g") && negb (String.eqb t "c") then
          Ok (Some errParsing,
              logf Error
                "+- values are only supported for gauges & counters, unable to parse metric: %s"
                [VString line] s)
        else
          match parseValue t v rate with
          | None => Ok (Some errParsing, logf Error (valueErrorFormat t) [VString line] s)
          | Some (i, f, str) =>
              let '(name, field, tags, s) := parseName bucketName s in
              let tags := mergeTags lineTags (typeTags t s tags) in
              let m := mkMetric name field bucketName (hashOf tags name)
                                i f str t signed rate tags in
              s <- aggregate now m s ;;
              Ok (None, s)
          end
  | _ =>
      Ok (Some errParsing,
          logf Error "Splitting '|', unable to parse metric: %s" [VString line] s)
  end.

Definition parseStatsdLine_bit (now : Z) (line bucketName : string)
    (lineTags : gmap string string) (bit : string) (s : Statsd)
  : result (option error * Statsd) :=
  parseStatsdLine_value now line bucketName lineTags (Split bit "|") s.

(** The loop over the values of a line: it returns at the first error. *)
Fixpoint parseStatsdLine_bits (now : Z) (line bucketName : string)
    (lineTags : gmap string string) (bits : list string) (s : Statsd)
  : result (option error * Statsd) :=
  match bits with
  | [] => Ok (None, s)
  | bit :: rest =>
      r <- parseStatsdLine_bit now line bucketName lineTags bit s ;;
      match r with
      | (Some e, s) => Ok (Some e, s)
      | (None, s) => parseStatsdLine_bits now line bucketName lineTags rest s
      end
  end.

(** [parseStatsdLine] will parse the given statsd line, validating it as
    it goes. If the line is valid, it will be cached for the next call to
    Gather(). *)
Definition parseStatsdLine (now : Z) (line : string) (s : Statsd)
  : result (option error * Statsd) :=
  let '(lineTags, line) := stripDataDog line s in
  match Split line ":" with
  | bucketName :: bit :: bits =>
      parseStatsdLine_bits now line bucketName lineTags (bit :: bits) s
  | _ =>
      Ok (Some errParsing,
          logf Error "Splitting ':', unable to parse metric: %s" [VString line] s)
  end.

(** ** The worker [parser] *)

(** The loop of [parser] over the lines of one packet. A parsing error is
    ignored and the loop goes on with the next line; any other error is
    returned and ends the worker. *)
Fixpoint parser_lines (now inTime : Z) (addr : string) (lines : list string)
    (s : Statsd) : result (option error * Statsd) :=
  match lines with
  | [] => Ok (None, s)
  | line :: rest =>
      let line := TrimSpace line in
      if String.eqb line EmptyString then parser_lines now inTime addr rest s
      else if DataDogExtensions (config s) && HasPrefix line "_e" then
        let s :=
          if parseEventMessageFails inTime line addr then
            logf Debug "  line was: %s" [VString line]
              (logf Error "Parsing line failed: %v" [VString line] s)
          else s in
        parser_lines now inTime addr rest s
      else
        r <- parseStatsdLine now line s ;;
        match r with
        | (Some errParsing, s) => parser_lines now inTime addr rest s
        | (Some e, s) => Ok (Some e, s)
        | (None, s) => parser_lines now inTime addr rest s
        end
  end.

(** One packet taken from the queue: its payload is split into lines. *)
Definition parser (now inTime : Z) (addr payload : string) (s : Statsd)
  : result (option error * Statsd) :=
  parser_lines now inTime addr (Split payload "010"%char) s.

(** ** Queue overflow in the listeners *)

(** The Go operator [%] on [int]: a zero divisor panics. *)
Definition goMod (a b : Z) : result Z :=
  if b =? 0 then Panic IntegerDivideByZero else Ok (Z.rem a b).

Definition queueFullFormat : string :=
  "Statsd message queue full. We have dropped %d messages so far. You may want to increase allowed_pending_messages in the config".

(** The [default] branch of the [select] of the TCP [handler]: the queue
    is full and the line is dropped. *)
Definition handler_drop (s : Statsd) : result Statsd :=
  let s := set_drops (wrap64 (drops s + 1)) s in
  report <- (if drops s =? 1 then Ok true
             else r <- goMod (drops s) (AllowedPendingMessages (config s)) ;;
                  Ok (r =? 0)) ;;
  Ok (if report : bool then logf Error queueFullFormat [VInt64 (drops s)] s else s).

(** The [default] branch of the [select] of [udpListen]. *)
Definition udpListen_drop (s : Statsd) : result Statsd :=
  let s := set_drops (wrap64 (drops s + 1)) s in
  report <- (if drops s =? 1 then Ok true
             else if AllowedPendingMessages (config s) =? 0 then Ok true
             else r <- goMod (drops s) (AllowedPendingMessages (config s)) ;;
                  Ok (r =? 0)) ;;
  Ok (if report : bool then logf Error queueFullFormat [VInt64 (drops s)] s else s).

(** ** [Gather] and [expireCachedMetrics] *)

(** [now.After(cached.expiresAt)]. *)
Definition expired {V : Type} (now : Z) (e : cached V) : bool := expiresAt e <? now.

Definition dropExpired {V : Type} (now : Z) (c : gmap string (cached V))
  : gmap string (cached V) :=
  filter (fun kv => expired now (snd kv) = false) c.

Definition expireCachedMetrics (now : Z) (s : Statsd) : Statsd :=
  (* If Max TTL wasn't configured, skip expiration. *)
  if MaxTTL (config s) =? 0 then s
  else
    mkStatsd (config s) (drops s)
      (dropExpired now (gauges s)) (dropExpired now (counters s))
      (dropExpired now (sets s)) (dropExpired now (timings s))
      (distributions s) (graphite s) (lastGatherTime s) (Log s).

(** A loop over the entries of a map that rewrites each value in place
    and may panic. *)
Definition forEach {A B : Type} (f : A -> result B) (m : gmap string A)
  : result (gmap string B) :=
  fold_right (fun kv acc => m' <- acc ;; b <- f (snd kv) ;; Ok (<[fst kv := b]> m'))
             (Ok ∅) (map_to_list m).

(** [fields["start_time"] = s.lastGatherTime.Format(time.RFC3339)] when
    the aggregation temporality is enabled. *)
Definition withStartTime (s : Statsd) (f : gmap string iface) : gmap string iface :=
  if EnableAggregationTemporality (config s)
  then <["start_time" := VString (FormatRFC3339 (lastGatherTime s))]> f
  else f.

(** [float64(v.(int64))]. *)
Definition floatOfCounter (v : iface) : result iface :=
  match v with
  | VInt64 z => Ok (VFloat64 (f64_of_Z z))
  | other => Panic (InterfaceConversion other "int64")
  end.

(** The body of the loop of [Gather] over the counters: the fields map of
    the entry is rewritten in place, so the entry that stays in the cache
    is the one that is emitted. *)
Definition gatherCounter (s : Statsd) (m : cachedcounter) : result cachedcounter :=
  let f := withStartTime s (fields m) in
  f <- (if FloatCounters (config s) then forEach floatOfCounter f else Ok f) ;;
  Ok (mkCached (name m) f (tags m) (expiresAt m)).

Definition gatherGauge (s : Statsd) (m : cachedgauge) : cachedgauge :=
  mkCached (name m) (withStartTime s (fields m)) (tags m) (expiresAt m).

Definition emitCached (k : sink) (now : Z) (m : cached iface) : emitted :=
  mkEmitted k (name m) (fields m) (tags m) now.

(** The fields emitted for one timing entry. *)
Definition timingFields (s : Statsd) (m : cachedtimings) : gmap string iface :=
  fold_right
    (fun kv f =>
       let '(fieldName, stats) := kv in
       let prefix := if String.eqb fieldName defaultFieldName
                     then EmptyString else fieldName +:+ "_" in
       let f := <[prefix +:+ "mean" := VFloat64 (mean stats)]> f in
       let f := <[prefix +:+ "median" := VFloat64 (median stats)]> f in
       let f := <[prefix +:+ "stddev" := VFloat64 (stddev stats)]> f in
       let f := <[prefix +:+ "sum" := VFloat64 (sum stats)]> f in
       let f := <[prefix +:+ "upper" := VFloat64 (upper stats)]> f in
       let f := <[prefix +:+ "lower" := VFloat64 (lower stats)]> f in
       let f := <[prefix +:+ "count" :=
                    if FloatTimings (config s) then VFloat64 (f64_of_Z (count stats))
                    else VInt64 (count stats)]> f in
       fold_left (fun f p =>
                    <[prefix +:+ FormatNumber p +:+ "_percentile" :=
                        VFloat64 (percentile stats p)]> f)
                 (Percentiles (config s)) f)
    ∅ (map_to_list (fields m)).

(** The fields emitted for one set entry: the cardinality of each set. *)
Definition setFields (s : Statsd) (m : cachedset) : gmap string iface :=
  (fun x : gset string =>
     if FloatSets (config s) then VFloat64 (f64_of_Z (Z.of_nat (size x)))
     else VInt64 (Z.of_nat (size x))) <$> fields m.

(** [Gather]: emit distributions, timings, gauges, counters and sets, in
    this order, reset the caches whose delete switch is on, evict the
    expired entries and advance [lastGatherTime]. [now] is the clock at
    the start of the call, [nowExpire] the later reading that
    [expireCachedMetrics] takes. *)
Definition Gather (now nowExpire : Z) (s : Statsd) : result (Statsd * list emitted) :=
  let out_d :=
    map (fun m => mkEmitted AddFields (dname m)
                    (withStartTime s {[defaultFieldName := VFloat64 (dvalue m)]})
                    (dtags m) now)
        (distributions s) in
  let s1 := set_distributions [] s in
  let out_t :=
    map (fun kv => mkEmitted AddFields (name (snd kv))
                     (withStartTime s1 (timingFields s1 (snd kv))) (tags (snd kv)) now)
        (map_to_list (timings s1)) in
  let s2 := if DeleteTimings (config s1) then set_timings ∅ s1 else s1 in
  let g := gatherGauge s2 <$> gauges s2 in
  let out_g := map (fun kv => emitCached AddGauge now (snd kv)) (map_to_list g) in
  let s3 := set_gauges (if DeleteGauges (config s2) then ∅ else g) s2 in
  c <- forEach (gatherCounter s3) (counters s3) ;;
  let out_c := map (fun kv => emitCached AddCounter now (snd kv)) (map_to_list c) in
  let s4 := set_counters (if DeleteCounters (config s3) then ∅ else c) s3 in
  let out_s :=
    map (fun kv => mkEmitted AddFields (name (snd kv))
                     (withStartTime s4 (setFields s4 (snd kv))) (tags (snd kv)) now)
        (map_to_list (sets s4)) in
  let s5 := if DeleteSets (config s4) then set_sets ∅ s4 else s4 in
  let s6 := expireCachedMetrics nowExpire s5 in
  Ok (set_lastGatherTime now s6, (out_d ++ out_t ++ out_g ++ out_c ++ out_s)%list).

End Model.

(** ** The TCP connections

    What [Start], [tcpListen], [handler], [remember], [forget],
    [refuser] and [Stop] share: the permits in the channel [accept], the
    table [conns] of the connections by id, and the handlers that run.
    A connection is the identity of its [*net.TCPConn]. The statements
    of each function that touch this state run as one step; the deferred
    function of [handler] is two steps, because it gives the permit back
    before it takes the [cleanup] lock to forget the connection. *)
Abbreviation conn := Z.

(** What [refuser] writes to the log. *)
Inductive tcpLogEntry :=
| RefusedConnection (c : conn)
| MaximumReached.

Record Listener := mkListener {
  MaxTCPConnections : Z;
  (** [len(s.accept)]: the permits in the channel. *)
  accept : Z;
  conns : gmap string conn;
  (** The handlers that have not run their deferred function: the id
      and the connection each one was started with. *)
  handlers : list (string * conn);
  (** The ids of the handlers that gave their permit back and have not
      yet called [forget]. *)
  forgetting : list string;
  closedConns : list conn;
  tcpLog : list tcpLogEntry;
  (** [tcpListen] has not returned. *)
  listening : bool
}.

(** [Start]: a channel of capacity [MaxTCPConnections], one permit sent
    for every connection allowed, and an empty table. [None] is the
    panic of [make] on a negative capacity. *)
Definition startListener (max : Z) : option Listener :=
  if max <? 0 then None
  else Some (mkListener max (Z.iter max Z.succ 0) ∅ [] [] [] [] true).

(** remember a TCP connection *)
Definition remember (id : string) (c : conn) (l : Listener) : Listener :=
  mkListener (MaxTCPConnections l) (accept l) (<[id := c]> (conns l)) (handlers l)
             (forgetting l) (closedConns l) (tcpLog l) (listening l).

(** forget a TCP connection *)
Definition forget (id : string) (l : Listener) : Listener :=
  mkListener (MaxTCPConnections l) (accept l) (delete id (conns l)) (handlers l)
             (forgetting l) (closedConns l) (tcpLog l) (listening l).

(** refuser refuses a TCP connection *)
Definition refuser (c : conn) (l : Listener) : Listener :=
  mkListener (MaxTCPConnections l) (accept l) (conns l) (handlers l) (forgetting l)
             (closedConns l ++ [c]) (tcpLog l ++ [RefusedConnection c; MaximumReached])
             (listening l).

(** What one iteration of the loop of [tcpListen] meets: an error of
    [AcceptTCP] or of a keep-alive call, or a connection, with the id
    that [internal.RandomString] returns if it is called ([None] for its
    error). *)
Inductive acceptOutcome :=
| AcceptFails
| AcceptOk (c : conn) (id : option string).

Definition stopListening (l : Listener) : Listener :=
  mkListener (MaxTCPConnections l) (accept l) (conns l) (handlers l) (forgetting l)
             (closedConns l) (tcpLog l) false.

(** One iteration of the loop of [tcpListen]: with a permit the
    connection is remembered and handed to a handler, without one it is
    refused; an error ends the loop. *)
Definition tcpListen_iteration (o : acceptOutcome) (l : Listener) : Listener :=
  match o with
  | AcceptFails => stopListening l
  | AcceptOk c id =>
      if 0 <? accept l then
        let l := mkListener (MaxTCPConnections l) (accept l - 1) (conns l) (handlers l)
                            (forgetting l) (closedConns l) (tcpLog l) (listening l) in
        match id with
        | None => stopListening l
        | Some id =>
            let l := remember id c l in
            mkListener (MaxTCPConnections l) (accept l) (conns l)
                       (handlers l ++ [(id, c)]) (forgetting l) (closedConns l)
                       (tcpLog l) (listening l)
        end
      else refuser c l
  end.

Fixpoint removeOne {A : Type} `{EqDecision A} (x : A) (l : list A) : list A :=
  match l with
  | [] => []
  | y :: r => if decide (x = y) then r else y :: removeOne x r
  end.

(** The deferred function of [handler] up to [s.accept <- true]: the
    connection is closed and the permit goes back to the channel. *)
Definition handler_release (id : string) (c : conn) (l : Listener) : Listener :=
  mkListener (MaxTCPConnections l) (accept l + 1) (conns l)
             (removeOne (id, c) (handlers l)) (forgetting l ++ [id])
             (closedConns l ++ [c]) (tcpLog l) (listening l).

(** The rest of the deferred function: [s.forget(id)]. *)
Definition handler_forget (id : string) (l : Listener) : Listener :=
  let l := forget id l in
  mkListener (MaxTCPConnections l) (accept l) (conns l) (handlers l)
             (removeOne id (forgetting l)) (closedConns l) (tcpLog l) (listening l).

(** The connections that [Stop] closes: those of the table. *)
Definition Stop_closes (l : Listener) : list conn := map snd (map_to_list (conns l)).

(** What can happen next: the loop of [tcpListen] runs once more, a
    handler that runs gives its permit back, or a handler that did so
    forgets its connection. *)
Inductive tcpEvent :=
| Listen (o : acceptOutcome)
| Release (id : string) (c : conn)
| Forget (id : string).

(** One step; [None] when the event cannot happen: the loop has ended,
    no such handler runs, or the send to the channel [accept] would
    block because the channel is full. *)
Definition tcpStep (ev : tcpEvent) (l : Listener) : option Listener :=
  match ev with
  | Listen o => if listening l then Some (tcpListen_iteration o l) else None
  | Release id c =>
      if bool_decide ((id, c) ∈ handlers l) && (accept l <? MaxTCPConnections l)
      then Some (handler_release id c l) else None
  | Forget id =>
      if bool_decide (id ∈ forgetting l) then Some (handler_forget id l) else None
  end.

Fixpoint tcpRun (evs : list tcpEvent) (l : Listener) : option Listener :=
  match evs with
  | [] => Some l
  | ev :: rest =>
      match tcpStep ev l with
      | Some l' => tcpRun rest l'
      | None => None
      end
  end.

(** The ids in use: those of the handlers that run or still have to
    forget their connection. *)
Definition idsInUse (l : Listener) : list string := map fst (handlers l) ++ forgetting l.

(** Every id that [internal.RandomString] returns along the run is one
    that is not in use. *)
Fixpoint freshIds (evs : list tcpEvent) (l : Listener) : Prop :=
  match evs with
  | [] => True
  | ev :: rest =>
      match ev with
      | Listen (AcceptOk _ (Some id)) => id ∉ idsInUse l
      | _ => True
      end /\
      match tcpStep ev l with
      | Some l' => freshIds rest l'
      | None => True
      end
  end.

(** The permits and the handlers that run never exceed what [Start]
    put into the channel. *)
Definition withinLimit (l : Listener) : Prop :=
  0 <= accept l /\ accept l + Z.of_nat (length (handlers l)) <= MaxTCPConnections l.

(** The table [conns] tracks the handlers: the ids in use are distinct
    and every handler that runs has its connection in the table under
    its id. *)
Definition tracked (l : Listener) : Prop :=
  NoDup (idsInUse l) /\
  forall (id : string) (c : conn), (id, c) ∈ handlers l -> conns l !! id = Some c.

(** ** Instances used to run the model

    [decimalGoLib] covers the decimal notation of [strconv.ParseFloat]
    (sign, digits, fraction, decimal exponent); the special names, the
    hexadecimal notation and underscores between digits are left out. The result is the correctly
    rounded value: the quotient of two integers rounded once. *)

Fixpoint scanMantissa (s : string) (mant frac : Z) (seenDot : bool) (digits : nat)
  : option (Z * Z * nat * string) :=
  match s with
  | EmptyString => Some (mant, frac, digits, EmptyString)
  | String a r =>
      match digitOf a with
      | Some d => scanMantissa r (10 * mant + d) (if seenDot then frac + 1 else frac)
                               seenDot (S digits)
      | None =>
          if Ascii.eqb a "." then
            if seenDot then None else scanMantissa r mant frac true digits
          else if Ascii.eqb a "e" || Ascii.eqb a "E" then Some (mant, frac, digits, r)
          else None
      end
  end.

Definition hasExponent (s : string) : bool := Contains s "e" || Contains s "E".

Definition decimalValue (neg : bool) (mant k : Z) : float64 :=
  match mant with
  | Z.pos m =>
      if 0 <=? k then binary_normalize prec64 emax64 ((if neg then - mant else mant) * 10 ^ k) 0 false
      else f64_div (S754_finite neg m 0) (S754_finite false (Z.to_pos (10 ^ (- k))) 0)
  | _ => S754_zero neg
  end.

Definition decimalParseFloat (s : string) : option float64 :=
  let '(neg, body) :=
    match s with
    | String "+" r => (false, r)
    | String "-" r => (true, r)
    | _ => (false, s)
    end in
  match scanMantissa body 0 0 false O with
  | Some (mant, frac, digits, expo) =>
      if Nat.eqb digits O then None
      else
        let e := if hasExponent body then ParseInt expo else Some 0 in
        match e with
        | Some x =>
            match decimalValue neg mant (x - frac) with
            | S754_infinity _ => None
            | f => Some f
            end
        | None => None
        end
  | None => None
  end.

(** The ASCII part of [strings.TrimSpace]: Unicode white space outside
    of ASCII is not trimmed. *)
Definition isAsciiSpace (a : ascii) : bool :=
  let n := N_of_ascii a in
  (N.eqb n 9 || N.eqb n 10 || N.eqb n 11 || N.eqb n 12 || N.eqb n 13 || N.eqb n 32)%N.

Fixpoint trimLeft (s : string) : string :=
  match s with
  | String a r => if isAsciiSpace a then trimLeft r else s
  | EmptyString => EmptyString
  end.

Fixpoint trimRight (s : string) : string :=
  match s with
  | EmptyString => EmptyString
  | String a r =>
      match trimRight r with
      | EmptyString => if isAsciiSpace a then EmptyString else byteString a
      | r' => String a r'
      end
  end.

Definition asciiTrimSpace (s : string) : string := trimRight (trimLeft s).

(** The runtime used by the examples: conversions out of range give the
    smallest int64, as on amd64; the examples leave the aggregation
    temporality off and emit no percentile, so the two formatting
    functions are never called. *)
#[export] Instance decimalGoLib : GoLib := {
  ParseFloat := decimalParseFloat;
  int64OutOfRange := fun _ => minInt64;
  TrimSpace := asciiTrimSpace;
  FormatRFC3339 := fun _ => EmptyString;
  FormatNumber := fun _ => EmptyString
}.

(** Modelled from the spec: RunningStats of [running_stats.go], which is
    not among the sources. The instance keeps the values in the order
    they were added and never replaces one, which is what the spec says
    of a reservoir that has not reached its limit. *)
Record listStats := mkListStats {
  percLimit : Z;
  values : list float64
}.

Definition f64_leb (x y : float64) : bool := SFleb x y.

Fixpoint insertFloat (x : float64) (l : list float64) : list float64 :=
  match l with
  | [] => [x]
  | y :: r => if f64_leb x y then x :: l else y :: insertFloat x r
  end.

Definition sortFloats (l : list float64) : list float64 := fold_right insertFloat [] l.

Definition listSum (l : list float64) : float64 := fold_left f64_add l f64_zero.

Definition listCount (l : list float64) : Z := Z.of_nat (length l).

Definition listMean (l : list float64) : float64 :=
  f64_div (listSum l) (f64_of_Z (listCount l)).

(** [percentile(p)]: the element of the sorted values at index
    [floor(p/100 * (n-1))], and 0 when there is none. *)
Definition listPercentile (l : list float64) (p : float64) : float64 :=
  let idx := f64_trunc (SFmul prec64 emax64 (f64_div p (f64_of_Z 100))
                                (f64_of_Z (listCount l - 1))) in
  match idx with
  | Some i => nth (Z.to_nat i) (sortFloats l) f64_zero
  | None => f64_zero
  end.

Definition listStddev (l : list float64) : float64 :=
  let mu := listMean l in
  let sq := map (fun x => let d := SFsub prec64 emax64 x mu in SFmul prec64 emax64 d d) l in
  SFsqrt prec64 emax64 (f64_div (listSum sq) (f64_of_Z (listCount l))).

(** The collaborators used by the examples: a name mapper that returns
    the name and the default tags as they are, with no field; DataDog
    tags [k:v] separated by commas; the statistics above. *)
Definition plainDataDogTags (tags : gmap string string) (message : string)
  : gmap string string :=
  fold_left (fun tags kv =>
               match Split kv ":" with
               | [k] => if String.eqb k EmptyString then tags else <[k := "true"]> tags
               | k :: rest => <[k := Join rest ":"]> tags
               | [] => tags
               end)
            (Split message ",") tags.

#[export] Instance plainCollaborators : Collaborators := {
  graphiteInitFails := fun _ _ => false;
  ApplyTemplate := fun _ _ defaults name => (name, defaults, EmptyString);
  parseDataDogTags := plainDataDogTags;
  parseEventMessageFails := fun _ _ _ => false;
  runningStats := listStats;
  newRunningStats := fun n => mkListStats n [];
  addValue := fun rs x => mkListStats (percLimit rs) (values rs ++ [x]);
  mean := fun rs => listMean (values rs);
  median := fun rs => listPercentile (values rs) (f64_of_Z 50);
  stddev := fun rs => listStddev (values rs);
  sum := fun rs => listSum (values rs);
  upper := fun rs => List.last (sortFloats (values rs)) f64_zero;
  lower := fun rs => hd f64_zero (sortFloats (values rs));
  count := fun rs => listCount (values rs);
  percentile := fun rs p => listPercentile (values rs) p
}.

(** The options that [init] registers. *)
Definition defaultConfig : Config := {|
  AllowedPendingMessages := 10000;
  Percentiles := [];
  PercentileLimit := 0;
  DeleteGauges := true;
  DeleteCounters := true;
  DeleteSets := true;
  DeleteTimings := true;
  ConvertNames := false;
  FloatCounters := false;
  FloatTimings := false;
  FloatSets := false;
  EnableAggregationTemporality := false;
  MetricSeparator := "_";
  DataDogExtensions := false;
  DataDogDistributions := false;
  DataDogKeepContainerTag := false;
  SanitizeNamesMethod := EmptyString;
  Templates := [];
  MaxTTL := 0
|}.

(** ** Runs, observations and example states *)

(** Every line of [lines] parsed in turn, from the state of [Start]. *)
Definition feed `{GoLib} `{Collaborators} (now : Z) (lines : list string) (s : Statsd)
  : result Statsd :=
  fold_left (fun r line => s <- r ;; x <- parseStatsdLine now line s ;; Ok (snd x))
            lines (Ok s).

(** The value of one field of one cache entry. *)
Definition fieldOf {V : Type} (c : gmap string (cached V)) (h field : string) : option V :=
  match c !! h with
  | Some e => fields e !! field
  | None => None
  end.

(** [float_counters = true] and [delete_counters = false], everything
    else as registered by [init]. *)
Definition floatCountersConfig : Config := {|
  AllowedPendingMessages := 10000;
  Percentiles := [];
  PercentileLimit := 0;
  DeleteGauges := true;
  DeleteCounters := false;
  DeleteSets := true;
  DeleteTimings := true;
  ConvertNames := false;
  FloatCounters := true;
  FloatTimings := false;
  FloatSets := false;
  EnableAggregationTemporality := false;
  MetricSeparator := "_";
  DataDogExtensions := false;
  DataDogDistributions := false;
  DataDogKeepContainerTag := false;
  SanitizeNamesMethod := EmptyString;
  Templates := [];
  MaxTTL := 0
|}.

(** A state with [MaxTTL = 10], no delete switch on, and one gauge entry
    that expires at time 10. *)
Definition ttlState : Statsd :=
  mkStatsd (mkConfig 10000 [] 0 false false false false false false false false false
                     "_" false false false EmptyString [] 10)
           0 {["metric_type=gaugeload" := mkCached "load" {["value" := VFloat64 f64_one]} ∅ 10]}
           ∅ ∅ ∅ [] None 0 [].

(** The plugin with more entries in its log and nothing else changed. *)
Definition appendLog `{Collaborators} (l : list logEntry) (s : Statsd) : Statsd :=
  mkStatsd (config s) (drops s) (gauges s) (counters s) (sets s) (timings s)
           (distributions s) (graphite s) (lastGatherTime s) (Log s ++ l).

(** The options with another sanitize method. *)
Definition withMethod (method : string) (c : Config) : Config :=
  mkConfig (AllowedPendingMessages c) (Percentiles c) (PercentileLimit c)
           (DeleteGauges c) (DeleteCounters c) (DeleteSets c) (DeleteTimings c)
           (ConvertNames c) (FloatCounters c) (FloatTimings c) (FloatSets c)
           (EnableAggregationTemporality c) (MetricSeparator c) (DataDogExtensions c)
           (DataDogDistributions c) (DataDogKeepContainerTag c) method (Templates c)
           (MaxTTL c).

(** The plugin with another sanitize method and another log, and nothing
    else changed. *)
Definition retag `{Collaborators} (method : string) (l : list logEntry) (s : Statsd)
  : Statsd :=
  mkStatsd (withMethod method (config s)) (drops s) (gauges s) (counters s) (sets s)
           (timings s) (distributions s) (graphite s) (lastGatherTime s) l.

(** Two results that agree but for the log, the second one being
    computed under the sanitize method [method]. *)
Definition agree `{Collaborators} (method : string)
    (ra rb : result (option error * Statsd)) : Prop :=
  match ra, rb with
  | Ok (ea, sa), Ok (eb, sb) =>
      ea = eb /\ exists l : list logEntry, sb = retag method l sa
  | Panic pa, Panic pb => pa = pb
  | _, _ => False
  end.

(** The counter value of the specification, to compare [counterValue]
    with: [round(v/r)] for a finite rate [r > 0], the exact quotient
    rounded to the nearest integer, halves away from zero. The rate
    [m * 2^e] is the fraction [num/den]. *)
Definition roundDiv (a b : Z) : Z :=
  if 0 <=? a then (2 * a + b) / (2 * b) else - ((2 * (- a) + b) / (2 * b)).

Definition roundedQuotient (v : Z) (r : float64) : option Z :=
  match r with
  | S754_finite false m e =>
      let num := if 0 <=? e then Z.pos m * 2 ^ e else Z.pos m in
      let den := if 0 <=? e then 1 else 2 ^ (- e) in
      Some (roundDiv (v * den) num)
  | _ => None
  end.

(** [convert_names = true], everything else as registered by [init]. *)
Definition convertNamesConfig : Config := {|
  AllowedPendingMessages := 10000;
  Percentiles := [];
  PercentileLimit := 0;
  DeleteGauges := true;
  DeleteCounters := true;
  DeleteSets := true;
  DeleteTimings := true;
  ConvertNames := true;
  FloatCounters := false;
  FloatTimings := false;
  FloatSets := false;
  EnableAggregationTemporality := false;
  MetricSeparator := "_";
  DataDogExtensions := false;
  DataDogDistributions := false;
  DataDogKeepContainerTag := false;
  SanitizeNamesMethod := EmptyString;
  Templates := [];
  MaxTTL := 0
|}.

(** A state under [floatCountersConfig] with one counter entry, as the
    line a:1|c leaves it. *)
Definition floatCounterEntry : cachedcounter :=
  mkCached "a" {["value" := VInt64 1]} {["metric_type" := "counter"]} 100.

Definition floatCounterState : Statsd :=
  mkStatsd floatCountersConfig 0 ∅ {["metric_type=countera" := floatCounterEntry]}
           ∅ ∅ [] None 0 [].

(** What an emitted record shows in the examples. *)
Definition shown (e : emitted) : sink * string * list (string * iface) :=
  (via e, measurement e, map_to_list (efields e)).

(** Every metric of [ms] aggregated in turn. *)
Fixpoint aggregateAll `{GoLib} `{Collaborators} (now : Z) (ms : list metric) (s : Statsd)
  : result Statsd :=
  match ms with
  | [] => Ok s
  | m :: rest => s' <- aggregate now m s ;; aggregateAll now rest s'
  end.

(** The gauge of the specification, to compare [aggregate] with: an
    additive sample adds its value to the current one, any other sample
    replaces it. A sample is the pair of its [additive] flag and value. *)
Definition gaugeSpec (current : float64) (samples : list (bool * float64)) : float64 :=
  fold_left (fun (cur : float64) (smp : bool * float64) =>
               if fst smp then f64_add cur (snd smp) else snd smp)
            samples current.

(** How many times the loop of [aggregate] adds the value of a timing or
    histogram sample of rate [r]. *)
Definition timesAdded `{GoLib} (r : float64) : nat :=
  if f64_gtb r f64_zero then Z.to_nat (int64_of_f64 (f64_div f64_one r)) else 1%nat.

(** What an example observes of a run that did not panic. *)
Definition onOk {A B : Type} (f : A -> B) (r : result A) : option B :=
  match r with
  | Ok a => Some (f a)
  | Panic _ => None
  end.

(** The collaborators of the examples with a graphite parser whose
    [Init] returns an error. *)
Definition failingInitCollaborators : Collaborators := {|
  graphiteInitFails := fun _ _ => true;
  ApplyTemplate := fun _ _ defaults name => (name, defaults, EmptyString);
  parseDataDogTags := plainDataDogTags;
  parseEventMessageFails := fun _ _ _ => false;
  runningStats := listStats;
  newRunningStats := fun n => mkListStats n [];
  addValue := fun rs x => mkListStats (percLimit rs) (values rs ++ [x]);
  mean := fun rs => listMean (values rs);
  median := fun rs => listPercentile (values rs) (f64_of_Z 50);
  stddev := fun rs => listStddev (values rs);
  sum := fun rs => listSum (values rs);
  upper := fun rs => List.last (sortFloats (values rs)) f64_zero;
  lower := fun rs => hd f64_zero (sortFloats (values rs));
  count := fun rs => listCount (values rs);
  percentile := fun rs p => listPercentile (values rs) p
|}.

(** [datadog_extensions = true] and [datadog_distributions = true],
    everything else as registered by [init]. *)
Definition dataDogConfig : Config := {|
  AllowedPendingMessages := 10000;
  Percentiles := [];
  PercentileLimit := 0;
  DeleteGauges := true;
  DeleteCounters := true;
  DeleteSets := true;
  DeleteTimings := true;
  ConvertNames := false;
  FloatCounters := false;
  FloatTimings := false;
  FloatSets := false;
  EnableAggregationTemporality := false;
  MetricSeparator := "_";
  DataDogExtensions := true;
  DataDogDistributions := true;
  DataDogKeepContainerTag := false;
  SanitizeNamesMethod := EmptyString;
  Templates := [];
  MaxTTL := 0
|}.

(** [float_counters = true] and [enable_aggregation_temporality = true],
    everything else as registered by [init]. *)
Definition floatTemporalityConfig : Config := {|
  AllowedPendingMessages := 10000;
  Percentiles := [];
  PercentileLimit := 0;
  DeleteGauges := true;
  DeleteCounters := true;
  DeleteSets := true;
  DeleteTimings := true;
  ConvertNames := false;
  FloatCounters := true;
  FloatTimings := false;
  FloatSets := false;
  EnableAggregationTemporality := true;
  MetricSeparator := "_";
  DataDogExtensions := false;
  DataDogDistributions := false;
  DataDogKeepContainerTag := false;
  SanitizeNamesMethod := EmptyString;
  Templates := [];
  MaxTTL := 0
|}.

(** A state under [floatTemporalityConfig] with one counter entry, as the
    line a:1|c leaves it. *)
Definition floatTemporalityState : Statsd :=
  mkStatsd floatTemporalityConfig 0 ∅ {["metric_type=countera" := floatCounterEntry]}
           ∅ ∅ [] None 0 [].

(** A state under [floatTemporalityConfig] with one gauge entry and no
    counter, last flushed at time 100. *)
Definition temporalityState : Statsd :=
  mkStatsd floatTemporalityConfig 0
           {["metric_type=gaugeload" := mkCached "load" {["value" := VFloat64 f64_one]} ∅ 10]}
           ∅ ∅ ∅ [] None 100 [].

(** What happens to the plugin once it is started: a worker takes a
    packet from the queue, or the agent flushes. *)
Inductive event :=
| Packet (now inTime : Z) (addr payload : string)
| Flush (now nowExpire : Z).

(** The events of a list handled in turn, each one atomically; the
    result holds the records emitted by the flushes. *)
Fixpoint runEvents `{GoLib} `{Collaborators} (evs : list event) (s : Statsd)
  : result (Statsd * list emitted) :=
  match evs with
  | [] => Ok (s, [])
  | Packet now inTime addr payload :: rest =>
      r <- parser now inTime addr payload s ;;
      runEvents rest (snd r)
  | Flush now nowExpire :: rest =>
      r <- Gather now nowExpire s ;;
      r' <- runEvents rest (fst r) ;;
      Ok (fst r', snd r ++ snd r')
  end.

(** ** Notions used in the statements *)

(** The order of [sort.Strings]. *)
Definition strLe (a b : string) : Prop := String.leb a b = true.

(** The key of a tag written in the bucket. *)
Definition tagKey (btag : string) : string := fst (parseKeyValue btag).

(** An entry outlives a flush when its cache is not reset and it has not
    expired. *)
Definition outlives {V : Type} (del : bool) (ttl now : Z) (e : cached V) : Prop :=
  del = false /\ (ttl = 0 \/ now <= expiresAt e).

(** A cache after a flush: reset when its delete switch is on, then
    without its expired entries when [MaxTTL] is not zero. *)
Definition flushed {V : Type} (del : bool) (ttl now : Z) (c : gmap string (cached V))
  : gmap string (cached V) :=
  if ttl =? 0 then (if del then ∅ else c) else dropExpired now (if del then ∅ else c).

(** The mantissa of the float64 of a positive integer below [2^53]: the
    integer shifted left to 53 binary digits. *)
Definition normMantissa (p : positive) : positive :=
  match (53 - Z.pos (digits2_pos p))%Z with
  | Z.pos j => Pos.iter xO p j
  | _ => p
  end.

(** A pipe segment that [parseStatsdLine] keeps under the DataDog
    extensions: neither a tag segment nor a container id. *)
Definition plainSegment (segment : string) : bool :=
  negb (HasPrefix segment "#") && negb (HasPrefix segment "c:").

(** What the type assertions of [aggregate] and [Gather] rely on: every
    counter field holds an int64 and every gauge field a float64. *)
Definition isInt64 (v : iface) : Prop := exists z : Z, v = VInt64 z.
Definition isFloat64 (v : iface) : Prop := exists x : float64, v = VFloat64 x.

Definition wellTyped `{Collaborators} (s : Statsd) : Prop :=
  map_Forall (fun _ e => map_Forall (fun _ v => isInt64 v) (fields e)) (counters s) /\
  map_Forall (fun _ e => map_Forall (fun _ v => isFloat64 v) (fields e)) (gauges s).

(** The options under which [Gather] keeps the caches well typed: it
    converts or stamps the fields of no counter entry that stays in the
    cache and stamps the fields of no gauge entry that stays, and it
    does not convert and stamp at once. *)
Definition safeConfig (c : Config) : bool :=
  (negb (FloatCounters c) || negb (EnableAggregationTemporality c)) &&
  (DeleteCounters c || (negb (FloatCounters c) && negb (EnableAggregationTemporality c))) &&
  (DeleteGauges c || negb (EnableAggregationTemporality c)).

(** * Properties *)

(** ** The model at work *)

(** Three set samples with two distinct members flush as the cardinality
    2. *)
Example set_cardinality :
  onOk (fun r => map shown (snd r))
       (s <- feed 100 ["users:alice|s"; "users:bob|s"; "users:alice|s"]
                  (Start defaultConfig 0) ;;
        Gather 200 200 s) =
  Some [(AddFields, "users", [("value", VInt64 2)])].
Proof. vm_compute. reflexivity. Qed.

(** A packet of three lines whose second line has no colon: the worker
    logs the second line and aggregates the other two. *)
Example worker_skips_bad_line :
  onOk (fun r => (fst r,
                  fieldOf (counters (snd r)) "metric_type=countera" "value",
                  fieldOf (counters (snd r)) "metric_type=counterb" "value",
                  Log (snd r)))
       (parser 100 100 "10.0.0.1" ("a:1|c" +:+ String "010" ("bad" +:+ String "010" "b:2|c"))
               (Start defaultConfig 0)) =
  Some (None, Some (VInt64 1), Some (VInt64 2),
        [mkLog Error "Splitting ':', unable to parse metric: %s" [VString "bad"]]).
Proof. vm_compute. reflexivity. Qed.

(** ** The order of strings *)

Lemma ascii_compare_refl (a : ascii) : Ascii.compare a a = Eq.
Proof. unfold Ascii.compare. apply N.compare_refl. Qed.

Lemma ascii_compare_Lt_trans (a b c : ascii) :
  Ascii.compare a b = Lt -> Ascii.compare b c = Lt -> Ascii.compare a c = Lt.
Proof.
  unfold Ascii.compare. rewrite !N.compare_lt_iff. apply N.lt_trans.
Qed.

Lemma string_compare_Lt_trans (a b c : string) :
  String.compare a b = Lt -> String.compare b c = Lt -> String.compare a c = Lt.
Proof.
  revert b c. induction a as [|x a IH]; intros [|y b] [|z c]; simpl; try congruence.
  destruct (Ascii.compare x y) eqn:Hxy; try discriminate.
  - apply Ascii.compare_eq_iff in Hxy. subst y.
    destruct (Ascii.compare x z) eqn:Hxz; try congruence. apply IH.
  - destruct (Ascii.compare y z) eqn:Hyz; try discriminate.
    + apply Ascii.compare_eq_iff in Hyz. subst z. rewrite Hxy. reflexivity.
    + rewrite (ascii_compare_Lt_trans x y z Hxy Hyz). reflexivity.
Qed.

Lemma string_compare_refl (a : string) : String.compare a a = Eq.
Proof. induction a as [|x a IH]; simpl; [|rewrite ascii_compare_refl]; auto. Qed.

#[local] Instance strLe_trans : Transitive strLe.
Proof.
  intros a b c. unfold strLe, String.leb.
  destruct (String.compare a b) eqn:Hab; try discriminate; intros _.
  - apply String.compare_eq_iff in Hab. subst b. auto.
  - destruct (String.compare b c) eqn:Hbc; try discriminate; intros _.
    + apply String.compare_eq_iff in Hbc. subst c. rewrite Hab. reflexivity.
    + rewrite (string_compare_Lt_trans a b c Hab Hbc). reflexivity.
Qed.

#[local] Instance strLe_antisym : AntiSymm (=) strLe.
Proof. intros a b. apply String.leb_antisym. Qed.

Lemma strLe_total (a b : string) : strLe a b \/ strLe b a.
Proof. apply String.leb_total. Qed.

Lemma insertSorted_perm (x : string) (l : list string) :
  Permutation (insertSorted x l) (x :: l).
Proof.
  induction l as [|y l IH]; simpl; [reflexivity|].
  destruct (String.leb x y); [reflexivity|].
  rewrite IH. apply perm_swap.
Qed.

Lemma sortStrings_perm (l : list string) : Permutation (sortStrings l) l.
Proof.
  induction l as [|x l IH]; simpl; [reflexivity|].
  rewrite insertSorted_perm. constructor. exact IH.
Qed.

Lemma insertSorted_sorted (x : string) (l : list string) :
  Sorted strLe l -> Sorted strLe (insertSorted x l).
Proof.
  induction l as [|y l IH]; simpl; intros Hs.
  - repeat constructor.
  - destruct (String.leb x y) eqn:Hxy.
    + constructor; [exact Hs|]. constructor. exact Hxy.
    + apply Sorted_inv in Hs as [Hs Hhd].
      constructor; [apply IH, Hs|].
      assert (Hyx : strLe y x)
        by (destruct (strLe_total x y) as [Hc|Hc]; [unfold strLe in Hc; congruence|exact Hc]).
      destruct l as [|z l]; simpl.
      * constructor. exact Hyx.
      * destruct (String.leb x z); constructor; [exact Hyx|].
        inversion Hhd; subst. assumption.
Qed.

Lemma sortStrings_sorted (l : list string) : Sorted strLe (sortStrings l).
Proof.
  induction l as [|x l IH]; simpl; [constructor|]. apply insertSorted_sorted, IH.
Qed.

(** Sorting forgets the order of its input. *)
Lemma sortStrings_order_irrelevant (l1 l2 : list string) :
  Permutation l1 l2 -> sortStrings l1 = sortStrings l2.
Proof.
  intros Hp. apply (Sorted_unique strLe); try apply sortStrings_sorted.
  rewrite !sortStrings_perm. exact Hp.
Qed.

(** ** The cache key *)

Lemma append_assoc (a b c : string) : (a +:+ b) +:+ c = a +:+ (b +:+ c).
Proof.
  induction a as [|x a IH]; [reflexivity|].
  change (String x ((a +:+ b) +:+ c) = String x (a +:+ (b +:+ c))). rewrite IH. reflexivity.
Qed.

Lemma Join_snoc_empty (l : list string) (x : string) :
  Join (l ++ [x]) EmptyString = Join l EmptyString +:+ x.
Proof.
  induction l as [|e [|e' r] IH]; try reflexivity.
  change (e +:+ Join ((e' :: r) ++ [x]) EmptyString = (e +:+ Join (e' :: r) EmptyString) +:+ x).
  rewrite IH. symmetry. apply append_assoc.
Qed.

Lemma bucketTags_step_commute (tags : gmap string string) (a b : string) :
  tagKey a <> tagKey b ->
  (let '(k, v) := parseKeyValue b in
   if String.eqb k EmptyString then
     (let '(k, v) := parseKeyValue a in
      if String.eqb k EmptyString then tags else <[k := v]> tags)
   else <[k := v]>
     (let '(k, v) := parseKeyValue a in
      if String.eqb k EmptyString then tags else <[k := v]> tags)) =
  (let '(k, v) := parseKeyValue a in
   if String.eqb k EmptyString then
     (let '(k, v) := parseKeyValue b in
      if String.eqb k EmptyString then tags else <[k := v]> tags)
   else <[k := v]>
     (let '(k, v) := parseKeyValue b in
      if String.eqb k EmptyString then tags else <[k := v]> tags)).
Proof.
  unfold tagKey. destruct (parseKeyValue a) as [ka va], (parseKeyValue b) as [kb vb].
  simpl. intros Hne.
  destruct (String.eqb ka EmptyString), (String.eqb kb EmptyString); try reflexivity.
  apply insert_insert_ne. congruence.
Qed.

Lemma bucketTags_fold_perm (l1 l2 : list string) :
  Permutation l1 l2 -> NoDup (map tagKey l1) ->
  forall init : gmap string string,
    fold_left (fun tags btag =>
                 let '(k, v) := parseKeyValue btag in
                 if String.eqb k EmptyString then tags else <[k := v]> tags) l1 init =
    fold_left (fun tags btag =>
                 let '(k, v) := parseKeyValue btag in
                 if String.eqb k EmptyString then tags else <[k := v]> tags) l2 init.
Proof.
  induction 1 as [|x l l' Hp IH|x y l|l l' l'' Hp1 IH1 Hp2 IH2]; intros Hnd init.
  - reflexivity.
  - simpl. apply IH. inversion Hnd; assumption.
  - simpl. f_equal. apply bucketTags_step_commute.
    simpl in Hnd. apply NoDup_cons in Hnd as [Hy _].
    intros Heq. apply Hy. rewrite Heq. left.
  - rewrite IH1 by assumption. apply IH2.
    rewrite <- (Permutation_map tagKey Hp1). exact Hnd.
Qed.

(** C5. Two samples with the same name and the same tag map get the same
    hash, whatever the order in which the tag map is traversed, and so
    the same cache entry; the hash is the concatenation of the sorted
    pairs [k=v] followed by the name. The tags written in the bucket
    give the same tag map in every order in which distinct keys are
    written. *)
Theorem hash_identity (tags : gmap string string) (name : string)
    (kvs1 kvs2 : list (string * string)) :
  Permutation kvs1 (map_to_list tags) ->
  Permutation kvs2 (map_to_list tags) ->
  makeHash kvs1 name = makeHash kvs2 name /\
  makeHash kvs1 name = hashOf tags name /\
  (forall (V : Type) (c : gmap string (cached V)),
      c !! makeHash kvs1 name = c !! makeHash kvs2 name) /\
  (exists sorted : list string,
      Sorted strLe sorted /\
      Permutation sorted (map (fun kv => fst kv +:+ "=" +:+ snd kv) kvs1) /\
      makeHash kvs1 name = Join sorted EmptyString +:+ name) /\
  (forall (bucketName : string) (parts1 parts2 : list string),
      Permutation parts1 parts2 -> NoDup (map tagKey parts1) ->
      bucketTags (bucketName :: parts1) = bucketTags (bucketName :: parts2)).
Proof.
  intros Hp1 Hp2.
  assert (Heq : forall l1 l2, Permutation l1 l2 -> makeHash l1 name = makeHash l2 name).
  { intros l1 l2 Hp. unfold makeHash.
    rewrite (sortStrings_order_irrelevant _ _ (Permutation_map _ Hp)). reflexivity. }
  assert (H12 : makeHash kvs1 name = makeHash kvs2 name).
  { apply Heq. rewrite Hp1, Hp2. reflexivity. }
  split; [exact H12|]. split; [apply Heq, Hp1|]. split; [intros V c; rewrite H12; reflexivity|].
  split.
  - exists (sortStrings (map (fun kv => fst kv +:+ "=" +:+ snd kv) kvs1)).
    split; [apply sortStrings_sorted|]. split; [apply sortStrings_perm|].
    unfold makeHash. apply Join_snoc_empty.
  - intros bucketName parts1 parts2 Hp Hnd. unfold bucketTags. simpl.
    apply bucketTags_fold_perm; assumption.
Qed.

Lemma hash_identity_witness :
  makeHash [("b", "2"); ("a", "1")] "cpu" = makeHash [("a", "1"); ("b", "2")] "cpu" /\
  bucketTags ["cpu"; "b=2"; "a=1"] = bucketTags ["cpu"; "a=1"; "b=2"].
Proof.
  assert (Hl : map_to_list ({["a" := "1"; "b" := "2"]} : gmap string string)
               = [("a", "1"); ("b", "2")]) by (vm_compute; reflexivity).
  assert (H1 : Permutation [("b", "2"); ("a", "1")]
                 (map_to_list ({["a" := "1"; "b" := "2"]} : gmap string string)))
    by (rewrite Hl; apply perm_swap).
  assert (H2 : Permutation [("a", "1"); ("b", "2")]
                 (map_to_list ({["a" := "1"; "b" := "2"]} : gmap string string)))
    by (rewrite Hl; reflexivity).
  destruct (hash_identity {["a" := "1"; "b" := "2"]} "cpu" _ _ H1 H2)
    as (Hh & _ & _ & _ & Hb).
  split; [exact Hh|].
  apply (Hb "cpu" ["b=2"; "a=1"] ["a=1"; "b=2"]).
  - apply perm_swap.
  - vm_compute. repeat constructor; (intros Hin; inversion Hin; subst;
      try discriminate; match goal with Hx : _ ∈ [] |- _ => inversion Hx | Hx : _ ∈ [_] |- _ => inversion Hx; subst; try discriminate end).
Defined.

(** C9. The cache key is not injective: the tag maps [{a: b, c: d}] and
    [{a: bc=d}] are different and hash, with any name, to the same key
    [a=bc=d] followed by the name, because the sorted pairs are joined
    without a separator. Two lines that carry these tags land in one
    counter entry. *)
Theorem hash_not_injective :
  ({["a" := "b"; "c" := "d"]} : gmap string string) <> {["a" := "bc=d"]} /\
  (forall name : string,
      hashOf {["a" := "b"; "c" := "d"]} name = "a=bc=d" +:+ name /\
      hashOf {["a" := "bc=d"]} name = "a=bc=d" +:+ name) /\
  onOk (fun s => (size (counters s),
                  fieldOf (counters s) "a=bc=dmetric_type=counterx" "value"))
       (feed 100 ["x,a=b,c=d:1|c"; "x,a=bc=d:1|c"] (Start defaultConfig 0)) =
  Some (1%nat, Some (VInt64 2)).
Proof.
  split; [|split].
  - intros Heq.
    assert (Hl : ({["a" := "b"; "c" := "d"]} : gmap string string) !! "c" =
                 ({["a" := "bc=d"]} : gmap string string) !! "c") by (rewrite Heq; reflexivity).
    vm_compute in Hl. discriminate.
  - intros name. unfold hashOf, makeHash.
    replace (map_to_list ({["a" := "b"; "c" := "d"]} : gmap string string))
      with [("c", "d"); ("a", "b")] by (vm_compute; reflexivity).
    replace (map_to_list ({["a" := "bc=d"]} : gmap string string))
      with [("a", "bc=d")] by (vm_compute; reflexivity).
    split; reflexivity.
  - vm_compute. reflexivity.
Qed.

(** ** Queue overflow *)

Section QueueOverflow.
Context `{GoLib} `{Collaborators}.

(** C10. With [AllowedPendingMessages = 0] the TCP handler logs the first
    dropped line and divides by zero at the second one, and at every
    later drop; the branch of the UDP listener tests for zero and never
    panics. *)
Theorem handler_drop_divides_by_zero (s : Statsd) :
  AllowedPendingMessages (config s) = 0 ->
  drops s = 0 ->
  (exists s1 : Statsd,
      handler_drop s = Ok s1 /\ drops s1 = 1 /\
      Log s1 = (Log s ++ [mkLog Error queueFullFormat [VInt64 1]])%list /\
      handler_drop s1 = Panic IntegerDivideByZero) /\
  (forall s' : Statsd,
      AllowedPendingMessages (config s') = 0 -> wrap64 (drops s' + 1) <> 1 ->
      handler_drop s' = Panic IntegerDivideByZero) /\
  (forall s' : Statsd,
      AllowedPendingMessages (config s') = 0 ->
      udpListen_drop s' =
      Ok (logf Error queueFullFormat [VInt64 (wrap64 (drops s' + 1))]
               (set_drops (wrap64 (drops s' + 1)) s'))).
Proof.
  intros Hcap Hdrops.
  assert (Hgen : forall s' : Statsd,
             AllowedPendingMessages (config s') = 0 -> wrap64 (drops s' + 1) <> 1 ->
             handler_drop s' = Panic IntegerDivideByZero).
  { intros s' Hc Hne. unfold handler_drop. cbn.
    destruct (Z.eqb_spec (wrap64 (drops s' + 1)) 1) as [|_]; [contradiction|].
    rewrite Hc. reflexivity. }
  split; [|split; [exact Hgen|]].
  - eexists. split; [|split; [|split]].
    + unfold handler_drop. cbn. rewrite Hdrops. reflexivity.
    + reflexivity.
    + reflexivity.
    + apply Hgen; [exact Hcap|]. cbn. vm_compute. discriminate.
  - intros s' Hc. unfold udpListen_drop. cbn. rewrite Hc.
    destruct (wrap64 (drops s' + 1) =? 1); reflexivity.
Qed.

End QueueOverflow.

Lemma handler_drop_divides_by_zero_witness :
  exists s1 : Statsd,
    handler_drop (Start (mkConfig 0 [] 0 true true true true false false false false false
                           "_" false false false EmptyString [] 0) 0) = Ok s1 /\
    handler_drop s1 = Panic IntegerDivideByZero.
Proof.
  destruct (handler_drop_divides_by_zero
              (Start (mkConfig 0 [] 0 true true true true false false false false false
                        "_" false false false EmptyString [] 0) 0)
              eq_refl eq_refl) as [(s1 & H1 & _ & _ & H2) _].
  exists s1. split; assumption.
Defined.

(** ** Integers as float64 *)

Lemma digits2_pos_size (p : positive) : digits2_pos p = Pos.size p.
Proof. induction p as [p IH|p IH|]; simpl; rewrite ?IH; reflexivity. Qed.

Lemma digits_bound (p : positive) (n : Z) :
  0 <= n -> Z.pos p < 2 ^ n -> Z.pos (digits2_pos p) <= n.
Proof.
  intros Hn Hp. rewrite digits2_pos_size.
  destruct (Z.le_gt_cases (Z.pos (Pos.size p)) n) as [Hle|Hgt]; [exact Hle|exfalso].
  pose proof (Pos.size_le p) as Hs.
  apply Pos2Z.pos_le_pos in Hs. rewrite Pos2Z.inj_pow in Hs.
  change (Z.pos p~0) with (2 * Z.pos p) in Hs.
  assert (Hpow : 2 ^ (n + 1) <= 2 ^ Z.pos (Pos.size p)) by (apply Z.pow_le_mono_r; lia).
  rewrite Z.pow_add_r in Hpow by lia. lia.
Qed.

Lemma iter_xO_Z (p j : positive) : Z.pos (Pos.iter xO p j) = Z.pos p * 2 ^ Z.pos j.
Proof.
  induction j as [|j IH] using Pos.peano_ind.
  - simpl. lia.
  - rewrite Pos.iter_succ, Pos2Z.inj_succ, Z.pow_succ_r by lia.
    change (Z.pos (Pos.iter xO p j)~0) with (2 * Z.pos (Pos.iter xO p j)). rewrite IH. lia.
Qed.

Lemma digits_iter_xO (p j : positive) :
  Z.pos (digits2_pos (Pos.iter xO p j)) = Z.pos (digits2_pos p) + Z.pos j.
Proof.
  induction j as [|j IH] using Pos.peano_ind.
  - simpl. lia.
  - rewrite Pos.iter_succ. simpl digits2_pos. rewrite Pos2Z.inj_succ, IH. lia.
Qed.

Lemma binary_round_aux_exact (sg : bool) (M : positive) (E : Z) :
  Z.pos (digits2_pos M) = 53 -> -1074 <= E <= 971 ->
  binary_round_aux prec64 emax64 sg (Z.pos M) E loc_Exact = S754_finite sg M E.
Proof.
  intros Hd HE. unfold binary_round_aux, shr_fexp, fexp, emin, prec64, emax64.
  cbn [Zdigits2]. rewrite Hd.
  replace (Z.max (53 + E - 53) (3 - 1024 - 53) - E) with 0 by lia.
  cbn [shr shr_record_of_loc shr_m loc_of_shr_record round_nearest_even Zdigits2].
  rewrite Hd.
  replace (Z.max (53 + E - 53) (3 - 1024 - 53) - E) with 0 by lia.
  cbn [shr shr_record_of_loc shr_m].
  replace (E <=? 1024 - 53) with true by (symmetry; apply Z.leb_le; lia).
  reflexivity.
Qed.

Lemma normMantissa_digits (p : positive) :
  Z.pos p < 2 ^ 53 -> Z.pos (digits2_pos (normMantissa p)) = 53.
Proof.
  intros Hp. pose proof (digits_bound p 53 ltac:(lia) Hp) as Hd.
  unfold normMantissa. destruct (53 - Z.pos (digits2_pos p)) as [|j|j] eqn:Hj; try lia.
  rewrite digits_iter_xO. lia.
Qed.

Lemma binary_round_small (sg : bool) (p : positive) :
  Z.pos p < 2 ^ 53 ->
  binary_round prec64 emax64 sg p 0 =
  S754_finite sg (normMantissa p) (Z.pos (digits2_pos p) - 53).
Proof.
  intros Hp. pose proof (digits_bound p 53 ltac:(lia) Hp) as Hd.
  pose proof (normMantissa_digits p Hp) as Hn.
  unfold binary_round, shl_align, fexp, emin, prec64, emax64.
  replace (Z.max (Z.pos (digits2_pos p) + 0 - 53) (3 - 1024 - 53) - 0)
    with (- (53 - Z.pos (digits2_pos p))) by lia.
  unfold normMantissa in *.
  destruct (53 - Z.pos (digits2_pos p)) as [|j|j] eqn:Hj; try lia.
  - cbn [Z.opp]. replace (Z.pos (digits2_pos p) - 53) with 0 by lia.
    apply binary_round_aux_exact; [exact Hn|lia].
  - cbn [Z.opp].
    replace (Z.max (Z.pos (digits2_pos p) + 0 - 53) (3 - 1024 - 53))
      with (Z.pos (digits2_pos p) - 53) by lia.
    apply binary_round_aux_exact; [exact Hn|lia].
Qed.

Lemma f64_one_eq : f64_one = S754_finite false 4503599627370496 (-52).
Proof. vm_compute. reflexivity. Qed.

Lemma f64_div_one (sg : bool) (M : positive) (E : Z) :
  Z.pos (digits2_pos M) = 53 -> -1073 <= E <= 971 ->
  f64_div (S754_finite sg M E) f64_one = S754_finite sg M E.
Proof.
  intros Hd HE. rewrite f64_one_eq. unfold f64_div, SFdiv, SFdiv_core_binary.
  cbn [Zdigits2]. rewrite Hd.
  change (Z.pos (digits2_pos 4503599627370496)) with 53.
  unfold fexp, emin, prec64, emax64.
  replace (Z.min (Z.max (53 + E - (53 + -52) - 53) (3 - 1024 - 53)) (E - -52))
    with (E - 1) by lia.
  replace (E - -52 - (E - 1)) with 53 by lia.
  assert (Hdiv : Z.div_eucl (Z.shiftl (Z.pos M) 53) 4503599627370496 = (Z.pos M~0, 0)).
  { pose proof (Z.div_eucl_eq (Z.shiftl (Z.pos M) 53) 4503599627370496 ltac:(lia)) as Heq.
    pose proof (Z.mod_pos_bound (Z.shiftl (Z.pos M) 53) 4503599627370496 ltac:(lia)) as Hb.
    unfold Z.modulo in Hb.
    destruct (Z.div_eucl (Z.shiftl (Z.pos M) 53) 4503599627370496) as [q r].
    rewrite Z.shiftl_mul_pow2 in Heq by lia.
    change (2 ^ 53) with (2 * 4503599627370496) in Heq.
    assert (q = 2 * Z.pos M) by nia. assert (r = 0) by nia. subst. reflexivity. }
  rewrite Hdiv.
  change (new_location 4503599627370496 0) with loc_Exact.
  unfold binary_round_aux, shr_fexp, fexp, emin.
  cbn [Zdigits2 digits2_pos]. rewrite Pos2Z.inj_succ, Hd.
  replace (Z.max (Z.succ 53 + (E - 1) - 53) (3 - 1024 - 53) - (E - 1)) with 1 by lia.
  cbn [shr shr_record_of_loc SpecFloat.iter_pos shr_1 orb shr_m loc_of_shr_record round_nearest_even
       Zdigits2].
  rewrite Hd.
  replace (Z.max (53 + (E - 1 + 1) - 53) (3 - 1024 - 53) - (E - 1 + 1)) with 0 by lia.
  cbn [shr shr_m].
  replace (E - 1 + 1 <=? 1024 - 53) with true by (symmetry; apply Z.leb_le; lia).
  replace (E - 1 + 1) with E by lia. destruct sg; reflexivity.
Qed.

Lemma f64_trunc_norm (sg : bool) (p : positive) :
  Z.pos p < 2 ^ 53 ->
  f64_trunc (S754_finite sg (normMantissa p) (Z.pos (digits2_pos p) - 53)) =
  Some (if sg then Z.neg p else Z.pos p).
Proof.
  intros Hp. pose proof (digits_bound p 53 ltac:(lia) Hp) as Hd.
  unfold f64_trunc, normMantissa.
  destruct (53 - Z.pos (digits2_pos p)) as [|j|j] eqn:Hj; try lia.
  - replace (Z.pos (digits2_pos p) - 53) with 0 by lia. cbn [Z.leb Z.compare].
    rewrite Z.shiftl_0_r. destruct sg; reflexivity.
  - replace (Z.pos (digits2_pos p) - 53) with (Z.neg j) by lia.
    cbn [Z.leb Z.compare Z.opp].
    rewrite iter_xO_Z, Z.shiftr_div_pow2, Z.div_mul by lia.
    destruct sg; reflexivity.
Qed.

(** An integer below [2^53] in magnitude survives the conversion to
    float64, the division by 1.0 and the conversion back. *)
Lemma int_through_rate_one (x : Z) :
  Z.abs x < 2 ^ 53 -> f64_trunc (f64_div (f64_of_Z x) f64_one) = Some x.
Proof.
  intros Hx. destruct x as [|p|p].
  - vm_compute. reflexivity.
  - unfold f64_of_Z, binary_normalize. rewrite binary_round_small by (simpl in Hx; lia).
    pose proof (digits_bound p 53 ltac:(lia) ltac:(simpl in Hx; lia)) as Hd.
    rewrite f64_div_one;
      [apply f64_trunc_norm; simpl in Hx; lia
      |apply normMantissa_digits; simpl in Hx; lia
      |pose proof (Pos2Z.is_pos (digits2_pos p)); lia].
  - unfold f64_of_Z, binary_normalize. rewrite binary_round_small by (simpl in Hx; lia).
    pose proof (digits_bound p 53 ltac:(lia) ltac:(simpl in Hx; lia)) as Hd.
    rewrite f64_div_one;
      [apply f64_trunc_norm; simpl in Hx; lia
      |apply normMantissa_digits; simpl in Hx; lia
      |pose proof (Pos2Z.is_pos (digits2_pos p)); lia].
Qed.

(** The mantissa after shifting right is the quotient by the power of two. *)
Lemma shr_1_m (mrs : shr_record) : 0 <= shr_m mrs -> shr_m (shr_1 mrs) = shr_m mrs / 2.
Proof.
  destruct mrs as [m r s]. cbn [shr_m]. intros Hm.
  destruct m as [|[p|p|]|p]; cbn [shr_1 shr_m];
    [reflexivity
    |apply (Z.div_unique (Z.pos p~1) 2 (Z.pos p) 1); lia
    |apply (Z.div_unique (Z.pos p~0) 2 (Z.pos p) 0); lia
    |reflexivity
    |lia].
Qed.

Lemma iter_shr_1_m (n : positive) :
  forall mrs : shr_record,
    0 <= shr_m mrs -> shr_m (SpecFloat.iter_pos shr_1 n mrs) = shr_m mrs / 2 ^ Z.pos n.
Proof.
  induction n as [n IH|n IH|]; intros mrs Hm; cbn [SpecFloat.iter_pos].
  - assert (Hpow : 0 < 2 ^ Z.pos n) by (apply Z.pow_pos_nonneg; lia).
    assert (H1 : 0 <= shr_m (shr_1 mrs)) by (rewrite shr_1_m by exact Hm; apply Z.div_pos; lia).
    assert (H2 : 0 <= shr_m (SpecFloat.iter_pos shr_1 n (shr_1 mrs)))
      by (rewrite IH by exact H1; apply Z.div_pos; lia).
    rewrite IH by exact H2. rewrite IH by exact H1. rewrite shr_1_m by exact Hm.
    rewrite !Z.div_div by lia.
    f_equal. replace (Z.pos n~1) with (1 + Z.pos n + Z.pos n) by lia.
    rewrite !Z.pow_add_r by lia. change (2 ^ 1) with 2. lia.
  - assert (Hpow : 0 < 2 ^ Z.pos n) by (apply Z.pow_pos_nonneg; lia).
    assert (H2 : 0 <= shr_m (SpecFloat.iter_pos shr_1 n mrs))
      by (rewrite IH by exact Hm; apply Z.div_pos; lia).
    rewrite IH by exact H2. rewrite IH by exact Hm.
    rewrite Z.div_div by lia.
    f_equal. replace (Z.pos n~0) with (Z.pos n + Z.pos n) by lia.
    rewrite Z.pow_add_r by lia. reflexivity.
  - rewrite shr_1_m by exact Hm. reflexivity.
Qed.

Lemma shr_m_shr (mrs : shr_record) (e n : Z) :
  0 <= shr_m mrs ->
  shr_m (fst (shr mrs e n)) = shr_m mrs / 2 ^ Z.max 0 n /\
  snd (shr mrs e n) = e + Z.max 0 n.
Proof.
  intros Hm. unfold shr. destruct n as [|n|n]; cbn [fst snd Z.max Z.compare].
  - rewrite Z.div_1_r. split; [reflexivity|lia].
  - split; [apply iter_shr_1_m; exact Hm|reflexivity].
  - rewrite Z.div_1_r. split; [reflexivity|lia].
Qed.

Lemma shr_record_of_loc_m (m : Z) (l : location) : shr_m (shr_record_of_loc m l) = m.
Proof. destruct l as [|[]]; reflexivity. Qed.

Lemma round_nearest_even_bound (m : Z) (l : location) :
  m <= round_nearest_even m l <= m + 1.
Proof. unfold round_nearest_even. destruct l as [|[]]; try destruct (Z.even m); lia. Qed.

(** A nonnegative mantissa [q] at exponent [e] whose value stays below 1
    even after the rounding has added one unit at the shifted position
    rounds to a float whose integer part is 0. *)
Lemma binary_round_aux_below_one (sg : bool) (q e : Z) (l : location) :
  0 <= q -> e < 0 ->
  q + 2 ^ Z.max 0 (fexp prec64 emax64 (Zdigits2 q + e) - e) < 2 ^ (- e) ->
  f64_trunc (binary_round_aux prec64 emax64 sg q e l) = Some 0.
Proof.
  intros Hq He Hlt. unfold binary_round_aux, shr_fexp.
  set (k := fexp prec64 emax64 (Zdigits2 q + e) - e) in *.
  pose proof (shr_m_shr (shr_record_of_loc q l) e k) as H1.
  rewrite shr_record_of_loc_m in H1. specialize (H1 Hq).
  destruct (shr (shr_record_of_loc q l) e k) as [mrs1 e1]. cbn [fst snd] in H1.
  destruct H1 as [Hm1 He1].
  set (q2 := round_nearest_even (shr_m mrs1) (loc_of_shr_record mrs1)).
  pose proof (round_nearest_even_bound (shr_m mrs1) (loc_of_shr_record mrs1)) as Hq2.
  fold q2 in Hq2.
  assert (Hk0 : 0 < 2 ^ Z.max 0 k) by (apply Z.pow_pos_nonneg; lia).
  assert (Hm1pos : 0 <= shr_m mrs1) by (rewrite Hm1; apply Z.div_pos; lia).
  set (k2 := fexp prec64 emax64 (Zdigits2 q2 + e1) - e1).
  pose proof (shr_m_shr (shr_record_of_loc q2 loc_Exact) e1 k2) as H2.
  rewrite shr_record_of_loc_m in H2. specialize (H2 ltac:(lia)).
  destruct (shr (shr_record_of_loc q2 loc_Exact) e1 k2) as [mrs2 e2]. cbn [fst snd] in H2.
  destruct H2 as [Hm2 He2].
  (* the rounded mantissa, scaled back, is below 2^(-e) *)
  assert (Hscale : q2 * 2 ^ Z.max 0 k < 2 ^ (- e)).
  { assert (shr_m mrs1 * 2 ^ Z.max 0 k <= q)
      by (rewrite Hm1; rewrite Z.mul_comm; apply Z.mul_div_le; lia).
    nia. }
  assert (Hk2 : 0 < 2 ^ Z.max 0 k2) by (apply Z.pow_pos_nonneg; lia).
  assert (Hq2nn : 0 <= q2) by lia.
  destruct (shr_m mrs2) as [|m|m] eqn:Hm; [reflexivity| |].
  - (* a positive mantissa: its integer part is 0 *)
    assert (Hmq : Z.pos m * 2 ^ Z.max 0 k2 <= q2)
      by (rewrite Hm2; rewrite Z.mul_comm; apply Z.mul_div_le; lia).
    assert (Hsum : Z.pos m * 2 ^ (Z.max 0 k2 + Z.max 0 k) < 2 ^ (- e))
      by (rewrite Z.pow_add_r by lia; nia).
    assert (Hexp : Z.max 0 k2 + Z.max 0 k < - e).
    { destruct (Z.lt_ge_cases (Z.max 0 k2 + Z.max 0 k) (- e)) as [Hl|Hg]; [exact Hl|exfalso].
      assert (2 ^ (- e) <= 2 ^ (Z.max 0 k2 + Z.max 0 k)) by (apply Z.pow_le_mono_r; lia).
      nia. }
    assert (He2neg : e2 < 0) by lia.
    replace (e2 <=? emax64 - prec64) with true
      by (symmetry; apply Z.leb_le; unfold emax64, prec64; lia).
    unfold f64_trunc. replace (0 <=? e2) with false by (symmetry; apply Z.leb_gt; lia).
    rewrite Z.shiftr_div_pow2 by lia.
    rewrite Z.div_small; [destruct sg; reflexivity|].
    split; [lia|].
    assert (Hsplit : 2 ^ (- e) = 2 ^ (Z.max 0 k2 + Z.max 0 k) * 2 ^ (- e2))
      by (rewrite <- Z.pow_add_r by lia; f_equal; lia).
    rewrite Hsplit in Hsum.
    assert (0 < 2 ^ (Z.max 0 k2 + Z.max 0 k)) by (apply Z.pow_pos_nonneg; lia).
    nia.
  - exfalso. assert (0 <= q2 / 2 ^ Z.max 0 k2) by (apply Z.div_pos; lia). lia.
Qed.

Lemma digits_53_range (M : positive) :
  Z.pos (digits2_pos M) = 53 -> 2 ^ 52 <= Z.pos M < 2 ^ 53.
Proof.
  rewrite digits2_pos_size. intros Hd.
  pose proof (Pos.size_gt M) as Hgt. pose proof (Pos.size_le M) as Hle.
  apply Pos2Z.pos_lt_pos in Hgt. apply Pos2Z.pos_le_pos in Hle.
  rewrite Pos2Z.inj_pow, Hd in Hgt, Hle.
  change (Z.pos M~0) with (2 * Z.pos M) in Hle.
  change (2 ^ 53) with (2 * 2 ^ 52) in Hle. lia.
Qed.

Lemma Zdigits2_bound (q n : Z) : 0 <= q -> 0 <= n -> q < 2 ^ n -> Zdigits2 q <= n.
Proof.
  intros Hq Hn Hlt. destruct q as [|p|p]; [simpl; lia| |lia].
  simpl. apply digits_bound; assumption.
Qed.

(** The quotient of 1.0 by a float above 1.0 has integer part 0. *)
Lemma f64_div_one_above_one (M : positive) (E : Z) :
  Z.pos (digits2_pos M) = 53 -> -52 <= E <= 971 -> (E = -52 -> 2 ^ 52 < Z.pos M) ->
  f64_trunc (f64_div f64_one (S754_finite false M E)) = Some 0.
Proof.
  intros Hd HE Hstrict. pose proof (digits_53_range M Hd) as HM.
  rewrite f64_one_eq. unfold f64_div, SFdiv, SFdiv_core_binary.
  cbn [Zdigits2 xorb]. rewrite Hd.
  change (Z.pos (digits2_pos 4503599627370496)) with 53.
  set (e' := Z.min (fexp prec64 emax64 (53 + -52 - (53 + E))) (-52 - E)).
  assert (He' : e' = Z.max (-105 - E) (-1074))
    by (unfold e', fexp, emin, prec64, emax64; lia).
  remember (-52 - E - e') as s eqn:Hsdef.
  assert (Hs : 51 <= s <= 53) by lia.
  assert (Hsm : (match s with
                 | Z.pos _ => Z.shiftl 4503599627370496 s
                 | 0 => 4503599627370496
                 | Z.neg _ => 0
                 end) = 2 ^ 52 * 2 ^ s).
  { destruct s as [|p|p]; try lia. rewrite Z.shiftl_mul_pow2 by lia. reflexivity. }
  rewrite Hsm.
  pose proof (Z.div_eucl_eq (2 ^ 52 * 2 ^ s) (Z.pos M) ltac:(lia)) as Heq.
  pose proof (Z.mod_pos_bound (2 ^ 52 * 2 ^ s) (Z.pos M) ltac:(lia)) as Hb.
  unfold Z.modulo in Hb.
  destruct (Z.div_eucl (2 ^ 52 * 2 ^ s) (Z.pos M)) as [q r].
  assert (Hps : 0 < 2 ^ s) by (apply Z.pow_pos_nonneg; lia).
  assert (Hq : 0 <= q <= 2 ^ s) by (change (2 ^ 52) with 4503599627370496 in *; nia).
  apply binary_round_aux_below_one; [lia|lia|].
  assert (Hdig : Zdigits2 q <= s + 1).
  { apply Zdigits2_bound; try lia. rewrite Z.pow_add_r by lia. change (2 ^ 1) with 2. lia. }
  set (k := fexp prec64 emax64 (Zdigits2 q + e') - e').
  assert (Hme : - e' = s + 52 + E) by lia.
  rewrite Hme.
  destruct (Z.eq_dec E (-52)) as [HE52|HE52].
  - (* the divisor is in (1, 2): the quotient is at most 2^53 - 2 *)
    assert (Hs53 : s = 53) by lia. rewrite Hs53 in *.
    assert (Hq2 : q <= 2 ^ 53 - 2).
    { specialize (Hstrict HE52).
      change (2 ^ 52) with 4503599627370496 in *.
      change (2 ^ 53) with 9007199254740992 in *. nia. }
    assert (Hdig2 : Zdigits2 q <= 53) by (apply Zdigits2_bound; lia).
    assert (Hk : Z.max 0 k = 0)
      by (unfold k, fexp, emin, prec64, emax64; lia).
    rewrite Hk. replace (53 + 52 + E) with 53 by lia. change (2 ^ 0) with 1. lia.
  - assert (Hk : Z.max 0 k <= 1)
      by (unfold k, fexp, emin, prec64, emax64; lia).
    assert (H2k : 2 ^ Z.max 0 k <= 2).
    { change 2 with (2 ^ 1) at 2. apply Z.pow_le_mono_r; lia. }
    assert (Hbig : 2 ^ (s + 1) <= 2 ^ (s + 52 + E)) by (apply Z.pow_le_mono_r; lia).
    rewrite Z.pow_add_r in Hbig by lia. change (2 ^ 1) with 2 in Hbig.
    assert (4 <= 2 ^ s).
    { change 4 with (2 ^ 2). apply Z.pow_le_mono_r; lia. }
    lia.
Qed.

(** A rate above 1.0 makes the loop of [aggregate] over a timing value
    run zero times. *)
Lemma timesAdded_above_one `{GoLib} (r : float64) :
  valid_binary prec64 emax64 r = true -> SFltb f64_one r = true -> timesAdded r = 0%nat.
Proof.
  intros Hvalid Hgt. rewrite f64_one_eq in Hgt. unfold timesAdded, int64_of_f64.
  destruct r as [sg|sg| |sg M E]; try discriminate.
  - destruct sg; [discriminate|]. vm_compute. reflexivity.
  - destruct sg; [discriminate|].
    unfold SFltb, SFcompare in Hgt. cbn [valid_binary] in Hvalid.
    unfold bounded, canonical_mantissa, fexp, emin, prec64, emax64 in Hvalid.
    apply andb_prop in Hvalid as [Hcan Hmax].
    apply Z.eqb_eq in Hcan. apply Z.leb_le in Hmax.
    assert (Hfacts : -52 <= E /\ (E = -52 -> 2 ^ 52 < Z.pos M)).
    { destruct (Z.compare_spec (-52) E) as [Heq|Hlt|Hgt']; try discriminate.
      - split; [lia|]. intros _.
        destruct (Pos.compare_cont Eq 4503599627370496 M) eqn:Hc; try discriminate.
        change (Pos.compare_cont Eq 4503599627370496 M) with (4503599627370496 ?= M)%positive in Hc.
        apply Pos.compare_lt_iff in Hc. apply Pos2Z.pos_lt_pos in Hc. exact Hc.
      - split; lia. }
    destruct Hfacts as [HE Hstrict].
    change (f64_gtb (S754_finite false M E) f64_zero) with true. cbv iota.
    rewrite f64_div_one_above_one; [reflexivity|lia|lia|exact Hstrict].
Qed.

Section Aggregation.
Context `{GoLib} `{Collaborators}.

(** ** [aggregate], one type at a time *)

Lemma fieldOf_insert_touch {V : Type} (c : gmap string (cached V)) (h f : string)
    (e : cached V) (v : V) (now ttl : Z) :
  fieldOf (<[h := touch e f v now ttl]> c) h f = Some v.
Proof. unfold fieldOf. rewrite lookup_insert_eq. simpl. apply lookup_insert_eq. Qed.

Lemma fields_cachedOr {V : Type} (c : gmap string (cached V)) (m : metric) :
  fields (cachedOr c m) !! mfield m = fieldOf c (hash m) (mfield m).
Proof.
  unfold cachedOr, fieldOf. destruct (c !! hash m); [reflexivity|apply lookup_empty].
Qed.

Lemma aggregate_gauge (now : Z) (m : metric) (s : Statsd) :
  mtype m = "g" ->
  aggregate now m s =
  (let e := cachedOr (gauges s) m in
   let current := match fieldOf (gauges s) (hash m) (mfield m) with
                  | Some v => v
                  | None => VFloat64 f64_zero
                  end in
   if additive m then
     match current with
     | VFloat64 old =>
         Ok (set_gauges
               (<[hash m := touch e (mfield m) (VFloat64 (f64_add old (floatvalue m)))
                              now (MaxTTL (config s))]> (gauges s)) s)
     | other => Panic (InterfaceConversion other "float64")
     end
   else
     Ok (set_gauges
           (<[hash m := touch e (mfield m) (VFloat64 (floatvalue m))
                          now (MaxTTL (config s))]> (gauges s)) s)).
Proof.
  intros Hm. unfold aggregate. rewrite Hm. cbn -[cachedOr touch].
  rewrite fields_cachedOr. reflexivity.
Qed.

Lemma aggregate_counter (now : Z) (m : metric) (s : Statsd) :
  mtype m = "c" ->
  aggregate now m s =
  (let e := cachedOr (counters s) m in
   match (match fieldOf (counters s) (hash m) (mfield m) with
          | Some v => v
          | None => VInt64 0
          end) with
   | VInt64 old =>
       Ok (set_counters
             (<[hash m := touch e (mfield m) (VInt64 (wrap64 (old + intvalue m)))
                            now (MaxTTL (config s))]> (counters s)) s)
   | other => Panic (InterfaceConversion other "int64")
   end).
Proof.
  intros Hm. unfold aggregate. rewrite Hm. cbn -[cachedOr touch].
  rewrite fields_cachedOr.
  destruct (fieldOf (counters s) (hash m) (mfield m)) as [[]|]; reflexivity.
Qed.

Lemma Z_iter_nat {A : Type} (n : Z) (f : A -> A) (x : A) :
  Z.iter n f x = Nat.iter (Z.to_nat n) f x.
Proof.
  destruct n as [|p|p]; try reflexivity. simpl. apply Pos2Nat.inj_iter.
Qed.

Lemma aggregate_timing (now : Z) (m : metric) (s : Statsd) :
  mtype m = "ms" \/ mtype m = "h" ->
  aggregate now m s =
  (let e := cachedOr (timings s) m in
   let field := match fieldOf (timings s) (hash m) (mfield m) with
                | Some f => f
                | None => newRunningStats (PercentileLimit (config s))
                end in
   Ok (set_timings
         (<[hash m := touch e (mfield m)
                        (Nat.iter (timesAdded (samplerate m))
                                  (fun f => addValue f (floatvalue m)) field)
                        now (MaxTTL (config s))]> (timings s)) s)).
Proof.
  intros Hm. unfold aggregate, timesAdded.
  destruct Hm as [Hm|Hm]; rewrite Hm; cbn -[cachedOr touch f64_gtb int64_of_f64 f64_div];
    rewrite fields_cachedOr; destruct (f64_gtb (samplerate m) f64_zero);
    rewrite ?Z_iter_nat; reflexivity.
Qed.

Lemma aggregate_set (now : Z) (m : metric) (s : Statsd) :
  mtype m = "s" ->
  aggregate now m s =
  (let e := cachedOr (sets s) m in
   let members := match fieldOf (sets s) (hash m) (mfield m) with
                  | Some x => x
                  | None => ∅
                  end in
   Ok (set_sets
         (<[hash m := touch e (mfield m) ({[strvalue m]} ∪ members)
                        now (MaxTTL (config s))]> (sets s)) s)).
Proof.
  intros Hm. unfold aggregate. rewrite Hm. cbn -[cachedOr touch].
  rewrite fields_cachedOr. reflexivity.
Qed.

(** One gauge sample on a field that is absent or holds a float. *)
Lemma aggregate_gauge_step (now : Z) (m : metric) (s : Statsd) (c0 : float64) :
  mtype m = "g" ->
  (fieldOf (gauges s) (hash m) (mfield m) = None /\ c0 = f64_zero) \/
  fieldOf (gauges s) (hash m) (mfield m) = Some (VFloat64 c0) ->
  exists s' : Statsd,
    aggregate now m s = Ok s' /\
    fieldOf (gauges s') (hash m) (mfield m) =
    Some (VFloat64 (if additive m then f64_add c0 (floatvalue m) else floatvalue m)).
Proof.
  intros Hm Hcur. rewrite aggregate_gauge by exact Hm. cbv zeta.
  destruct Hcur as [[-> ->]| ->]; destruct (additive m);
    (eexists; split; [reflexivity|]; cbn -[touch]; apply fieldOf_insert_touch).
Qed.

Lemma aggregateAll_gauges (now : Z) (ms : list metric) :
  forall (m : metric) (s : Statsd) (h f : string) (c0 : float64),
    Forall (fun x => mtype x = "g" /\ hash x = h /\ mfield x = f) (m :: ms) ->
    (fieldOf (gauges s) h f = None /\ c0 = f64_zero) \/
    fieldOf (gauges s) h f = Some (VFloat64 c0) ->
    exists s' : Statsd,
      aggregateAll now (m :: ms) s = Ok s' /\
      fieldOf (gauges s') h f =
      Some (VFloat64 (gaugeSpec c0 (map (fun x => (additive x, floatvalue x)) (m :: ms)))).
Proof.
  induction ms as [|m' ms IH]; intros m s h f c0 Hall Hcur;
    apply Forall_cons in Hall as [(Hm & Hh & Hf) Hall]; subst h f;
    destruct (aggregate_gauge_step now m s c0 Hm Hcur) as (s1 & Hs1 & Hv1).
  - exists s1. split; [simpl; rewrite Hs1; reflexivity|exact Hv1].
  - destruct (IH m' s1 (hash m) (mfield m) _ Hall (or_intror Hv1)) as (s' & Hs' & Hv').
    exists s'. split; [|exact Hv'].
    change (aggregateAll now (m :: m' :: ms) s)
      with (s' <- aggregate now m s ;; aggregateAll now (m' :: ms) s').
    rewrite Hs1. exact Hs'.
Qed.

End Aggregation.

(** ** Gauges *)

Lemma gaugeSpec_snoc (c : float64) (l : list (bool * float64)) (smp : bool * float64) :
  gaugeSpec c (l ++ [smp]) =
  if fst smp then f64_add (gaugeSpec c l) (snd smp) else snd smp.
Proof. unfold gaugeSpec. rewrite fold_left_app. reflexivity. Qed.

(** C6. A sequence of gauge samples applied to one cache field, absent
    (then the value starts at 0.0) or holding a float, leaves in the
    field the value of [gaugeSpec]: the last sample replaces the value
    when it is not additive and is added to the running value when it
    is. The lines load:42|g, load:+5|g, load:-10|g leave 37. *)
Theorem gauge_last_writer_and_additive :
  (forall (G : GoLib) (C : Collaborators) (now : Z) (m : metric) (ms : list metric)
          (s : Statsd) (h f : string) (c0 : float64),
      Forall (fun x => mtype x = "g" /\ hash x = h /\ mfield x = f) (m :: ms) ->
      (fieldOf (gauges s) h f = None /\ c0 = f64_zero) \/
      fieldOf (gauges s) h f = Some (VFloat64 c0) ->
      exists s' : Statsd,
        aggregateAll now (m :: ms) s = Ok s' /\
        fieldOf (gauges s') h f =
        Some (VFloat64 (gaugeSpec c0 (map (fun x => (additive x, floatvalue x)) (m :: ms))))) /\
  (forall (c x : float64) (l : list (bool * float64)),
      gaugeSpec c (l ++ [(false, x)]) = x /\
      gaugeSpec c (l ++ [(true, x)]) = f64_add (gaugeSpec c l) x) /\
  onOk (fun s => fieldOf (gauges s) "metric_type=gaugeload" "value")
       (feed 100 ["load:42|g"; "load:+5|g"; "load:-10|g"] (Start defaultConfig 0)) =
  Some (Some (VFloat64 (f64_of_Z 37))).
Proof.
  split; [|split].
  - intros G C now m ms. apply aggregateAll_gauges.
  - intros c x l. rewrite !gaugeSpec_snoc. split; reflexivity.
  - vm_compute. reflexivity.
Qed.

Lemma gauge_last_writer_and_additive_witness :
  exists s' : Statsd,
    aggregateAll 100
      [mkMetric "load" "value" "load" "metric_type=gaugeload" 0 (f64_of_Z 42) EmptyString
                "g" false f64_zero ∅;
       mkMetric "load" "value" "load" "metric_type=gaugeload" 0 (f64_of_Z 5) EmptyString
                "g" true f64_zero ∅]
      (Start defaultConfig 0) = Ok s' /\
    fieldOf (gauges s') "metric_type=gaugeload" "value" =
    Some (VFloat64 (gaugeSpec f64_zero [(false, f64_of_Z 42); (true, f64_of_Z 5)])).
Proof.
  apply (proj1 gauge_last_writer_and_additive decimalGoLib plainCollaborators 100
           (mkMetric "load" "value" "load" "metric_type=gaugeload" 0 (f64_of_Z 42) EmptyString
                     "g" false f64_zero ∅)
           [mkMetric "load" "value" "load" "metric_type=gaugeload" 0 (f64_of_Z 5) EmptyString
                     "g" true f64_zero ∅]
           (Start defaultConfig 0) "metric_type=gaugeload" "value" f64_zero).
  - repeat constructor.
  - left. split; reflexivity.
Defined.

(** A positive finite rate is above zero, a finite rate is not zero. *)
Lemma f64_gtb_positive (m : positive) (e : Z) :
  f64_gtb (S754_finite false m e) f64_zero = true.
Proof. reflexivity. Qed.

Lemma f64_neb_finite (sg : bool) (m : positive) (e : Z) :
  f64_neb (S754_finite sg m e) f64_zero = true.
Proof. destruct sg; reflexivity. Qed.

(** The count of the loop for a positive finite rate: the integer part
    of the float64 quotient 1.0/r when it is an int64. *)
Lemma timesAdded_positive `{GoLib} (m : positive) (e z : Z) :
  f64_trunc (f64_div f64_one (S754_finite false m e)) = Some z ->
  inInt64 z = true ->
  timesAdded (S754_finite false m e) = Z.to_nat z.
Proof.
  intros Hz Hin. unfold timesAdded, int64_of_f64.
  rewrite f64_gtb_positive, Hz, Hin. reflexivity.
Qed.

Lemma timesAdded_out_of_range `{GoLib} (m : positive) (e : Z) :
  match f64_trunc (f64_div f64_one (S754_finite false m e)) with
  | Some z => inInt64 z = false
  | None => True
  end ->
  timesAdded (S754_finite false m e) =
  Z.to_nat (wrap64 (int64OutOfRange (f64_div f64_one (S754_finite false m e)))).
Proof.
  intros Hz. unfold timesAdded, int64_of_f64. rewrite f64_gtb_positive.
  destruct (f64_trunc _) as [z|]; [rewrite Hz|]; reflexivity.
Qed.

(** ** Timings and histograms *)

(** The claim of C4 fails for a rate above 1: the value of a:1|ms|@2 is
    added to the statistics of the field zero times, not once. *)
Lemma timing_rate_above_one_adds_nothing :
  onOk (fun s => option_map (fun rs : listStats => length (values rs))
                   (fieldOf (timings s) "metric_type=timinga" "value"))
       (feed 100 ["a:1|ms|@2"] (Start defaultConfig 0)) = Some (Some 0%nat).
Proof. vm_compute. reflexivity. Qed.

(** C4, amended. A timing or histogram sample of value x and rate r is
    added n times to the statistics of its field, where: for a rate that
    is finite and above 0, n is the integer part of the float64 quotient
    1.0/r whenever that integer part is an int64 (3 for 0.3, 2 for 0.5,
    1 for 1.0, and 10 for 0.1: the quotient is rounded to float64 before
    it is truncated), and what the conversion of an out-of-range float
    gives on the platform otherwise; n is 0 for every rate above 1; and
    n is 1 when the rate is absent or 0, negative or not a number. *)
Theorem timing_sample_rate :
  (forall (G : GoLib) (C : Collaborators) (now : Z) (m : metric) (s : Statsd),
      mtype m = "ms" \/ mtype m = "h" ->
      exists (s' : Statsd) (n : nat),
        aggregate now m s = Ok s' /\
        fieldOf (timings s') (hash m) (mfield m) =
        Some (Nat.iter n (fun f => addValue f (floatvalue m))
                (match fieldOf (timings s) (hash m) (mfield m) with
                 | Some f => f
                 | None => newRunningStats (PercentileLimit (config s))
                 end)) /\
        (forall (mr : positive) (er z : Z),
            samplerate m = S754_finite false mr er ->
            f64_trunc (f64_div f64_one (samplerate m)) = Some z ->
            inInt64 z = true ->
            n = Z.to_nat z) /\
        (valid_binary prec64 emax64 (samplerate m) = true ->
         SFltb f64_one (samplerate m) = true ->
         n = 0%nat) /\
        (match samplerate m with
         | S754_zero _ | S754_nan | S754_finite true _ _ | S754_infinity true => True
         | _ => False
         end ->
         n = 1%nat) /\
        (forall (mr : positive) (er : Z),
            samplerate m = S754_finite false mr er ->
            match f64_trunc (f64_div f64_one (samplerate m)) with
            | Some z => inInt64 z = false
            | None => True
            end ->
            n = Z.to_nat (wrap64 (int64OutOfRange (f64_div f64_one (samplerate m)))))) /\
  (forall (m : positive) (e : Z),
      f64_trunc (S754_finite false m e) =
      Some (if 0 <=? e then Z.pos m * 2 ^ e else Z.pos m / 2 ^ (- e))) /\
  (forall G : GoLib,
      timesAdded (f64_div (f64_of_Z 3) (f64_of_Z 10)) = 3%nat /\
      timesAdded (f64_div (f64_of_Z 1) (f64_of_Z 2)) = 2%nat /\
      timesAdded (f64_div (f64_of_Z 1) (f64_of_Z 10)) = 10%nat /\
      timesAdded f64_one = 1%nat /\
      timesAdded (f64_of_Z 2) = 0%nat /\
      timesAdded f64_zero = 1%nat /\
      timesAdded (f64_of_Z (-1)) = 1%nat /\
      timesAdded S754_nan = 1%nat).
Proof.
  split; [|split].
  - intros G C now m s Hm. rewrite aggregate_timing by exact Hm. cbv zeta.
    exists (set_timings
              (<[hash m := touch (cachedOr (timings s) m) (mfield m)
                             (Nat.iter (timesAdded (samplerate m))
                                (fun f => addValue f (floatvalue m))
                                (match fieldOf (timings s) (hash m) (mfield m) with
                                 | Some f => f
                                 | None => newRunningStats (PercentileLimit (config s))
                                 end))
                             now (MaxTTL (config s))]> (timings s)) s),
           (timesAdded (samplerate m)).
    split; [reflexivity|]. split; [cbn -[touch timesAdded]; apply fieldOf_insert_touch|].
    split; [|split; [|split]].
    + intros mr er z Hr Hz Hin. rewrite Hr in *. apply timesAdded_positive; assumption.
    + apply timesAdded_above_one.
    + destruct (samplerate m) as [sg|[]| |[] mr er]; intros Hshape;
        try contradiction; reflexivity.
    + intros mr er Hr Hz. rewrite Hr in *. apply timesAdded_out_of_range. exact Hz.
  - intros m e. unfold f64_trunc. destruct (Z.leb_spec 0 e) as [He|He].
    + rewrite Z.shiftl_mul_pow2 by exact He. reflexivity.
    + rewrite Z.shiftr_div_pow2 by lia. reflexivity.
  - intros G. repeat split; vm_compute; reflexivity.
Qed.

Lemma timing_sample_rate_witness :
  exists (s' : Statsd) (n : nat),
    aggregate 100
      (mkMetric "a" "value" "a" "metric_type=timinga" 0 f64_one EmptyString
                "ms" false (f64_of_Z 2) ∅)
      (Start defaultConfig 0) = Ok s' /\
    fieldOf (timings s') "metric_type=timinga" "value" =
    Some (Nat.iter n (fun f : listStats => addValue f f64_one) (mkListStats 0 [])) /\
    n = 0%nat.
Proof.
  destruct (proj1 timing_sample_rate decimalGoLib plainCollaborators 100
              (mkMetric "a" "value" "a" "metric_type=timinga" 0 f64_one EmptyString
                        "ms" false (f64_of_Z 2) ∅)
              (Start defaultConfig 0))
    as (s' & n & Ha & Hf & _ & Hzero & _); [left; reflexivity|].
  exists s', n. split; [exact Ha|]. split; [exact Hf|].
  apply Hzero; vm_compute; reflexivity.
Defined.

(** ** Expiry *)

Section Expiry.
Context `{GoLib} `{Collaborators}.

Lemma dropExpired_lookup {V : Type} (now : Z) (c : gmap string (cached V)) (k : string) :
  dropExpired now c !! k =
  match c !! k with
  | Some e => if expiresAt e <? now then None else Some e
  | None => None
  end.
Proof.
  unfold dropExpired. destruct (c !! k) as [e|] eqn:Hk.
  - destruct (expiresAt e <? now) eqn:He.
    + apply map_lookup_filter_None_2. right. intros x Hx.
      rewrite Hk in Hx. injection Hx as <-. unfold expired. simpl. rewrite He. discriminate.
    + apply map_lookup_filter_Some_2; [exact Hk|]. unfold expired. simpl. exact He.
  - apply map_lookup_filter_None_2. left. exact Hk.
Qed.


Lemma forEach_list_lookup {A B : Type} (f : A -> result B) (l : list (string * A))
    (m' : gmap string B) :
  NoDup (map fst l) ->
  fold_right (fun kv acc => m' <- acc ;; b <- f (snd kv) ;; Ok (<[fst kv := b]> m'))
             (Ok ∅) l = Ok m' ->
  forall (k : string) (b : B),
    m' !! k = Some b <-> exists a : A, (k, a) ∈ l /\ f a = Ok b.
Proof.
  revert m'. induction l as [|[k0 a0] l IH]; intros m' Hnd Hfold k b.
  - simpl in Hfold. injection Hfold as <-. rewrite lookup_empty.
    split; [discriminate|]. intros (a & Hin & _). inversion Hin.
  - simpl in Hfold, Hnd. apply NoDup_cons in Hnd as [Hk0 Hnd].
    destruct (fold_right _ _ l) as [m1|p] eqn:Hrest; [|discriminate].
    simpl in Hfold. destruct (f a0) as [b0|p] eqn:Hf0; [|discriminate].
    simpl in Hfold. injection Hfold as <-.
    specialize (IH m1 Hnd eq_refl k b).
    destruct (decide (k0 = k)) as [->|Hne].
    + rewrite lookup_insert_eq. split.
      * intros [= <-]. exists a0. split; [left|exact Hf0].
      * intros (a & Hin & Hfa). apply elem_of_cons in Hin as [[= <-]|Hin].
        -- rewrite Hf0 in Hfa. injection Hfa as ->. reflexivity.
        -- exfalso. apply Hk0. apply list_elem_of_fmap. exists (k, a). split; [reflexivity|exact Hin].
    + rewrite lookup_insert_ne by exact Hne. rewrite IH. split.
      * intros (a & Hin & Hfa). exists a. split; [right; exact Hin|exact Hfa].
      * intros (a & Hin & Hfa). apply elem_of_cons in Hin as [[= Hkk _]|Hin]; [congruence|].
        exists a. split; assumption.
Qed.

Lemma forEach_lookup {A B : Type} (f : A -> result B) (m : gmap string A)
    (m' : gmap string B) :
  forEach f m = Ok m' ->
  forall (k : string) (b : B),
    m' !! k = Some b <-> exists a : A, m !! k = Some a /\ f a = Ok b.
Proof.
  intros Hfe k b. unfold forEach in Hfe.
  rewrite (forEach_list_lookup f (map_to_list m) m' (NoDup_fst_map_to_list m) Hfe k b).
  split; intros (a & Ha & Hfa); exists a; (split; [|exact Hfa]).
  - apply elem_of_map_to_list in Ha. exact Ha.
  - apply elem_of_map_to_list. exact Ha.
Qed.


End Expiry.

Section Flush.
Context `{GoLib} `{Collaborators}.

Lemma forEach_all_ok {A B : Type} (f : A -> result B) (m : gmap string A)
    (m' : gmap string B) :
  forEach f m = Ok m' ->
  forall (k : string) (a : A), m !! k = Some a -> exists b : B, f a = Ok b.
Proof.
  unfold forEach. intros Hfe k a Ha.
  assert (Hin : (k, a) ∈ map_to_list m) by (apply elem_of_map_to_list; exact Ha).
  revert m' Hfe. induction (map_to_list m) as [|[k0 a0] l IH]; intros m' Hfe; [inversion Hin|].
  simpl in Hfe. destruct (fold_right _ _ l) as [m1|p1]; [|discriminate].
  simpl in Hfe. destruct (f a0) as [b0|p0] eqn:Hf0; [|discriminate].
  apply elem_of_cons in Hin as [[= -> ->]|Hin].
  - exists b0. exact Hf0.
  - apply (IH Hin m1). reflexivity.
Qed.

Lemma gatherCounter_same (s1 s2 : Statsd) (x : gmap string cachedcounter) :
  config s1 = config s2 -> lastGatherTime s1 = lastGatherTime s2 ->
  forEach (gatherCounter s1) x = forEach (gatherCounter s2) x.
Proof.
  intros Hcfg Hlg. unfold forEach, gatherCounter, withStartTime.
  rewrite Hcfg, Hlg. reflexivity.
Qed.

(** The caches after a [Gather] that returns. *)
Lemma Gather_caches (start now : Z) (s s' : Statsd) (out : list emitted) :
  Gather start now s = Ok (s', out) ->
  exists c : gmap string cachedcounter,
    forEach (gatherCounter s) (counters s) = Ok c /\
    gauges s' = flushed (DeleteGauges (config s)) (MaxTTL (config s)) now
                  (gatherGauge s <$> gauges s) /\
    counters s' = flushed (DeleteCounters (config s)) (MaxTTL (config s)) now c /\
    sets s' = flushed (DeleteSets (config s)) (MaxTTL (config s)) now (sets s) /\
    timings s' = flushed (DeleteTimings (config s)) (MaxTTL (config s)) now (timings s).
Proof.
  unfold Gather, flushed. intros Hg.
  cbn -[forEach gatherCounter gatherGauge dropExpired expireCachedMetrics] in Hg.
  destruct (DeleteTimings (config s)) eqn:Hdt;
    cbn -[forEach gatherCounter gatherGauge dropExpired expireCachedMetrics] in Hg;
    (match type of Hg with
     | context [forEach (gatherCounter ?s0) (counters s)] =>
         rewrite (gatherCounter_same s0 s (counters s) eq_refl eq_refl) in Hg
     end);
    (destruct (forEach (gatherCounter s) (counters s)) as [c|p]; [|discriminate]);
    exists c; (split; [reflexivity|]);
    cbn -[gatherGauge dropExpired expireCachedMetrics] in Hg; injection Hg as <- _;
    unfold expireCachedMetrics;
    destruct (DeleteSets (config s)) eqn:Hds;
    cbn -[dropExpired gatherGauge]; rewrite ?Hdt, ?Hds;
    destruct (MaxTTL (config s) =? 0); cbn -[dropExpired gatherGauge];
    repeat split; reflexivity.
Qed.

Lemma forEach_total {A B : Type} (f : A -> result B) (m : gmap string A) :
  (forall (k : string) (a : A), m !! k = Some a -> exists b : B, f a = Ok b) ->
  exists m' : gmap string B, forEach f m = Ok m'.
Proof.
  unfold forEach. intros Hall.
  assert (Hl : forall (k : string) (a : A), (k, a) ∈ map_to_list m -> exists b : B, f a = Ok b)
    by (intros k a Hin; apply (Hall k), elem_of_map_to_list, Hin).
  clear Hall. induction (map_to_list m) as [|[k0 a0] l IH]; [exists ∅; reflexivity|].
  destruct IH as (m1 & Hm1); [intros k a Hin; apply (Hl k); right; exact Hin|].
  destruct (Hl k0 a0) as (b0 & Hb0); [left|].
  exists (<[k0 := b0]> m1). simpl. rewrite Hm1. simpl. rewrite Hb0. reflexivity.
Qed.

Lemma Gather_panic (start now : Z) (s : Statsd) (p : panic) :
  Gather start now s = Panic p -> forEach (gatherCounter s) (counters s) = Panic p.
Proof.
  unfold Gather. intros Hg.
  cbn -[forEach gatherCounter gatherGauge dropExpired expireCachedMetrics] in Hg.
  destruct (DeleteTimings (config s));
    cbn -[forEach gatherCounter gatherGauge dropExpired expireCachedMetrics] in Hg;
    (match type of Hg with
     | context [forEach (gatherCounter ?s0) (counters s)] =>
         rewrite (gatherCounter_same s0 s (counters s) eq_refl eq_refl) in Hg
     end);
    (destruct (forEach (gatherCounter s) (counters s)) as [c|p0]; [discriminate|]);
    simpl in Hg; congruence.
Qed.

(** With [FloatCounters] on and the temporality off, the loop body of
    [Gather] turns every integer field of a counter entry into a float. *)
Lemma gatherCounter_float (s : Statsd) (e : cachedcounter) :
  FloatCounters (config s) = true ->
  EnableAggregationTemporality (config s) = false ->
  (forall (f : string) (v : iface), fields e !! f = Some v -> exists z : Z, v = VInt64 z) ->
  exists e' : cachedcounter,
    gatherCounter s e = Ok e' /\ expiresAt e' = expiresAt e /\
    forall (f : string) (z : Z),
      fields e !! f = Some (VInt64 z) -> fields e' !! f = Some (VFloat64 (f64_of_Z z)).
Proof.
  intros Hfloat Htemp Hint. unfold gatherCounter, withStartTime. rewrite Hfloat, Htemp.
  destruct (forEach_total floatOfCounter (fields e)) as (flds & Hflds).
  { intros f v Hv. destruct (Hint f v Hv) as (z & ->). eexists. reflexivity. }
  rewrite Hflds. eexists. split; [reflexivity|]. split; [reflexivity|].
  intros f z Hz. cbn [fields]. apply (forEach_lookup _ _ _ Hflds).
  exists (VInt64 z). split; [exact Hz|reflexivity].
Qed.

(** After a [Gather] with [FloatCounters] on and [DeleteCounters] off,
    every counter sample for a field that the flush has kept panics. *)
Lemma float_counters_poison (start now : Z) (s : Statsd) (k f : string)
    (e : cachedcounter) (z : Z) :
  FloatCounters (config s) = true ->
  DeleteCounters (config s) = false ->
  EnableAggregationTemporality (config s) = false ->
  (forall (k' f' : string) (e' : cachedcounter) (v : iface),
      counters s !! k' = Some e' -> fields e' !! f' = Some v -> exists z' : Z, v = VInt64 z') ->
  counters s !! k = Some e ->
  fields e !! f = Some (VInt64 z) ->
  MaxTTL (config s) = 0 \/ now <= expiresAt e ->
  exists (s' : Statsd) (out : list emitted),
    Gather start now s = Ok (s', out) /\
    fieldOf (counters s') k f = Some (VFloat64 (f64_of_Z z)) /\
    forall (t : Z) (m : metric),
      mtype m = "c" -> hash m = k -> mfield m = f ->
      aggregate t m s' = Panic (InterfaceConversion (VFloat64 (f64_of_Z z)) "int64").
Proof.
  intros Hfloat Hdel Htemp Hint Hk Hf Hlive.
  destruct (Gather start now s) as [[s' out]|p] eqn:Hg.
  - exists s', out. split; [reflexivity|].
    destruct (Gather_caches start now s s' out Hg) as (c & Hc & _ & Hcnt & _).
    destruct (gatherCounter_float s e Hfloat Htemp (fun f' v => Hint k f' e v Hk))
      as (e' & Hge & Hexp & Hfl).
    assert (Hck : c !! k = Some e')
      by (apply (forEach_lookup _ _ _ Hc); exists e; split; assumption).
    assert (Hs'k : counters s' !! k = Some e').
    { rewrite Hcnt, Hdel. unfold flushed.
      destruct (Z.eqb_spec (MaxTTL (config s)) 0) as [Hz|Hnz]; [exact Hck|].
      rewrite dropExpired_lookup, Hck, Hexp.
      destruct Hlive as [Hz|Hle]; [contradiction|].
      replace (expiresAt e <? now) with false by (symmetry; apply Z.ltb_ge; exact Hle).
      reflexivity. }
    assert (Hfield : fieldOf (counters s') k f = Some (VFloat64 (f64_of_Z z)))
      by (unfold fieldOf; rewrite Hs'k; apply Hfl, Hf).
    split; [exact Hfield|].
    intros t m Hm Hh Hmf. rewrite aggregate_counter by exact Hm. cbv zeta.
    rewrite Hh, Hmf, Hfield. reflexivity.
  - exfalso. apply Gather_panic in Hg.
    destruct (forEach_total (gatherCounter s) (counters s)) as (c & Hc); [|congruence].
    intros k' e' Hk'.
    destruct (gatherCounter_float s e' Hfloat Htemp (fun f' v => Hint k' f' e' v Hk'))
      as (e'' & Hge & _). exists e''. exact Hge.
Qed.

End Flush.

(** ** Counters across a flush *)

(** C2. With [FloatCounters] on and [DeleteCounters] off (and the
    temporality off), [Gather] leaves in the cache, in place of the
    integer of every counter field that it keeps, the float that it
    emits, and every later counter sample for such a field panics in
    [aggregate] at the conversion of the field to int64, instead of
    adding to it. The code at the failing input: after the line a:1|c and
    a [Gather], the field holds the float 1, and the next a:1|c panics,
    as does the next [Gather]. *)
Theorem float_counter_breaks_next_sample :
  (forall (G : GoLib) (C : Collaborators) (start now : Z) (s : Statsd) (k f : string)
          (e : cachedcounter) (z : Z),
      FloatCounters (config s) = true ->
      DeleteCounters (config s) = false ->
      EnableAggregationTemporality (config s) = false ->
      (forall (k' f' : string) (e' : cachedcounter) (v : iface),
          counters s !! k' = Some e' -> fields e' !! f' = Some v ->
          exists z' : Z, v = VInt64 z') ->
      counters s !! k = Some e ->
      fields e !! f = Some (VInt64 z) ->
      MaxTTL (config s) = 0 \/ now <= expiresAt e ->
      exists (s' : Statsd) (out : list emitted),
        Gather start now s = Ok (s', out) /\
        fieldOf (counters s') k f = Some (VFloat64 (f64_of_Z z)) /\
        forall (t : Z) (m : metric),
          mtype m = "c" -> hash m = k -> mfield m = f ->
          aggregate t m s' = Panic (InterfaceConversion (VFloat64 (f64_of_Z z)) "int64")) /\
  onOk (fun r => (map shown (snd r),
                  fieldOf (counters (fst r)) "metric_type=countera" "value"))
       (s <- feed 100 ["a:1|c"] (Start floatCountersConfig 0) ;; Gather 200 200 s) =
  Some ([(AddCounter, "a", [("value", VFloat64 f64_one)])], Some (VFloat64 f64_one)) /\
  (s <- feed 100 ["a:1|c"] (Start floatCountersConfig 0) ;;
   r <- Gather 200 200 s ;;
   parseStatsdLine 300 "a:1|c" (fst r)) =
  Panic (InterfaceConversion (VFloat64 f64_one) "int64") /\
  (s <- feed 100 ["a:1|c"] (Start floatCountersConfig 0) ;;
   r <- Gather 200 200 s ;;
   Gather 400 400 (fst r)) =
  Panic (InterfaceConversion (VFloat64 f64_one) "int64").
Proof.
  split; [intros G C; apply float_counters_poison|].
  repeat split; vm_compute; reflexivity.
Qed.

Lemma float_counter_breaks_next_sample_witness :
  exists (s' : Statsd) (out : list emitted),
    Gather 200 200 floatCounterState = Ok (s', out) /\
    fieldOf (counters s') "metric_type=countera" "value" = Some (VFloat64 (f64_of_Z 1)) /\
    aggregate 300
      (mkMetric "a" "value" "a" "metric_type=countera" 1 f64_zero EmptyString "c" false
                f64_zero {["metric_type" := "counter"]}) s' =
    Panic (InterfaceConversion (VFloat64 (f64_of_Z 1)) "int64").
Proof.
  destruct (proj1 float_counter_breaks_next_sample decimalGoLib plainCollaborators 200 200
              floatCounterState "metric_type=countera" "value" floatCounterEntry 1)
    as (s' & out & Hg & Hfield & Hpanic).
  - reflexivity.
  - reflexivity.
  - reflexivity.
  - intros k' f' e' v Hk' Hf'.
    unfold floatCounterState in Hk'. cbn [counters] in Hk'.
    apply lookup_singleton_Some in Hk' as [_ <-].
    unfold floatCounterEntry in Hf'. cbn [fields] in Hf'.
    apply lookup_singleton_Some in Hf' as [_ <-]. exists 1. reflexivity.
  - apply lookup_singleton_eq.
  - apply lookup_singleton_eq.
  - left. reflexivity.
  - exists s', out. split; [exact Hg|]. split; [exact Hfield|].
    apply Hpanic; reflexivity.
Defined.



(** ** Parse errors *)

Section ParseErrors.
Context `{GoLib} `{Collaborators}.

Lemma appendLog_nil (s : Statsd) : appendLog [] s = s.
Proof. destruct s. unfold appendLog. simpl. rewrite app_nil_r. reflexivity. Qed.

Lemma appendLog_app (l1 l2 : list logEntry) (s : Statsd) :
  appendLog l2 (appendLog l1 s) = appendLog (l1 ++ l2) s.
Proof. unfold appendLog. simpl. rewrite app_assoc. reflexivity. Qed.

Lemma logf_appendLog (lv : level) (fmt : string) (a : list iface) (s : Statsd) :
  logf lv fmt a s = appendLog [mkLog lv fmt a] s.
Proof. reflexivity. Qed.

Lemma parseSampleRate_log (line : string) (rest : list string) (s : Statsd) :
  exists l : list logEntry, snd (parseSampleRate line rest s) = appendLog l s.
Proof.
  unfold parseSampleRate. destruct rest as [|sr rest].
  - exists []. symmetry. apply appendLog_nil.
  - destruct (Contains sr "@" && (1 <? Z.of_nat (String.length sr))).
    + destruct (ParseFloat (sliceFrom 1 sr)).
      * exists []. symmetry. apply appendLog_nil.
      * eexists. apply logf_appendLog.
    + eexists. apply logf_appendLog.
Qed.

(** A value that makes [parseStatsdLine] return an error: the error is
    [errParsing], it is logged at the error level, and nothing else of the
    plugin changes. *)
Lemma parseStatsdLine_value_error (now : Z) (line bucketName : string)
    (lineTags : gmap string string) (pipesplit : list string) (s s' : Statsd) (e : error) :
  parseStatsdLine_value now line bucketName lineTags pipesplit s = Ok (Some e, s') ->
  e = errParsing /\
  exists (l : list logEntry) (entry : logEntry),
    s' = appendLog (l ++ [entry]) s /\ lvl entry = Error.
Proof.
  unfold parseStatsdLine_value.
  destruct pipesplit as [|v [|t rest]].
  - intros [= <- <-]. split; [reflexivity|]. exists []. eexists. split; reflexivity.
  - intros [= <- <-]. split; [reflexivity|]. exists []. eexists. split; reflexivity.
  - destruct (parseSampleRate_log line rest s) as (l & Hl).
    destruct (parseSampleRate line rest s) as [rate s1]. simpl in Hl. subst s1.
    assert (Hret : forall fmt a,
               Ok (Some errParsing, logf Error fmt a (appendLog l s)) = Ok (Some e, s') ->
               e = errParsing /\
               exists (l0 : list logEntry) (entry : logEntry),
                 s' = appendLog (l0 ++ [entry]) s /\ lvl entry = Error).
    { intros fmt a [= <- <-]. split; [reflexivity|].
      exists l, (mkLog Error fmt a). split; [|reflexivity].
      rewrite logf_appendLog. apply appendLog_app. }
    destruct (negb (isMetricType t)); [apply Hret|].
    destruct ((HasPrefix v "-" || HasPrefix v "+") && negb (String.eqb t "g") &&
              negb (String.eqb t "c")); [apply Hret|].
    destruct (parseValue t v rate) as [[[i f] str]|]; [|apply Hret].
    destruct (parseName bucketName (appendLog l s)) as [[[name field] tags] s2].
    destruct (aggregate now _ s2); simpl; discriminate.
Qed.

Lemma parseStatsdLine_bits_error (now : Z) (line bucketName : string)
    (lineTags : gmap string string) (bits : list string) :
  forall (s s' : Statsd) (e : error),
    parseStatsdLine_bits now line bucketName lineTags bits s = Ok (Some e, s') ->
    exists (pre : list string) (bad : string) (post : list string) (s1 : Statsd),
      bits = pre ++ bad :: post /\
      parseStatsdLine_bits now line bucketName lineTags pre s = Ok (None, s1) /\
      parseStatsdLine_bit now line bucketName lineTags bad s1 = Ok (Some e, s').
Proof.
  induction bits as [|bit bits IH]; intros s s' e Hbits; [discriminate|].
  simpl in Hbits.
  destruct (parseStatsdLine_bit now line bucketName lineTags bit s) as [[[e1|] s1]|p] eqn:Hbit;
    simpl in Hbits; [| |discriminate].
  - injection Hbits as <- <-. exists [], bit, bits, s. split; [reflexivity|]. split; [reflexivity|exact Hbit].
  - destruct (IH s1 s' e Hbits) as (pre & bad & post & s2 & -> & Hpre & Hbad).
    exists (bit :: pre), bad, post, s2. split; [reflexivity|]. split; [|exact Hbad].
    simpl. rewrite Hbit. simpl. exact Hpre.
Qed.

(** [parseStatsdLine] returns no other error than [errParsing]. *)
Lemma parseStatsdLine_only_errParsing (now : Z) (line : string) (s s' : Statsd) (e : error) :
  parseStatsdLine now line s = Ok (Some e, s') -> e = errParsing.
Proof.
  unfold parseStatsdLine. destruct (stripDataDog line s) as [lineTags line'].
  destruct (Split line' ":") as [|bucketName [|bit bits]]; try (intros [= <- _]; reflexivity).
  intros Hbits. apply parseStatsdLine_bits_error in Hbits as (pre & bad & post & s1 & _ & _ & Hbad).
  apply parseStatsdLine_value_error in Hbad as [-> _]. reflexivity.
Qed.

(** The worker never returns an error, whatever the lines. *)
Lemma parser_lines_no_error (now inTime : Z) (addr : string) (lines : list string) :
  forall (s s' : Statsd) (e : error),
    parser_lines now inTime addr lines s <> Ok (Some e, s').
Proof.
  induction lines as [|line lines IH]; intros s s' e; [discriminate|].
  simpl. destruct (String.eqb (TrimSpace line) EmptyString); [apply IH|].
  destruct (DataDogExtensions (config s) && HasPrefix (TrimSpace line) "_e").
  - destruct (parseEventMessageFails inTime (TrimSpace line) addr); apply IH.
  - destruct (parseStatsdLine now (TrimSpace line) s) as [[[e1|] s1]|p] eqn:Hline;
      simpl; [| apply IH | discriminate].
    apply parseStatsdLine_only_errParsing in Hline. subst e1. apply IH.
Qed.

End ParseErrors.

(** The claim of C3 fails on a line with several values: a:1|c:2|x
    returns the parse error at its second value, after the first one was
    added to the counter cache, which was empty. *)
Lemma parse_error_keeps_earlier_values :
  onOk (fun r => (fst r, fieldOf (counters (snd r)) "metric_type=countera" "value"))
       (parseStatsdLine 100 "a:1|c:2|x" (Start defaultConfig 0)) =
  Some (Some errParsing, Some (VInt64 1)).
Proof. vm_compute. reflexivity. Qed.

(** C3, amended. When [parseStatsdLine] returns the parse error, the
    values of the line that come before the malformed one have been
    aggregated as on a valid line; the malformed value and the values
    after it change nothing but the log, which gets an entry at the error
    level. So a line without a colon, and a line whose first value is
    malformed, leave the plugin as it was but for the log. The worker
    goes on with the next line, and never returns an error. *)
Theorem parse_error_drops_rest_of_line :
  (forall (G : GoLib) (C : Collaborators) (now : Z) (line : string) (s s' : Statsd),
      parseStatsdLine now line s = Ok (Some errParsing, s') ->
      (exists (pre : list string) (s1 : Statsd) (l : list logEntry) (entry : logEntry),
          parseStatsdLine_bits now (snd (stripDataDog line s))
            (hd EmptyString (Split (snd (stripDataDog line s)) ":"))
            (fst (stripDataDog line s)) pre s = Ok (None, s1) /\
          s' = appendLog (l ++ [entry]) s1 /\ lvl entry = Error /\
          ((tl (Split (snd (stripDataDog line s)) ":") = [] /\ pre = []) \/
           (exists (bad : string) (post : list string),
               tl (Split (snd (stripDataDog line s)) ":") = pre ++ bad :: post))) /\
      (forall (inTime : Z) (addr raw : string) (rest : list string),
          TrimSpace raw = line ->
          String.eqb line EmptyString = false ->
          DataDogExtensions (config s) && HasPrefix line "_e" = false ->
          parser_lines now inTime addr (raw :: rest) s =
          parser_lines now inTime addr rest s')) /\
  (forall (G : GoLib) (C : Collaborators) (now inTime : Z) (addr : string)
          (lines : list string) (s s' : Statsd) (e : error),
      parser_lines now inTime addr lines s <> Ok (Some e, s')).
Proof.
  split; [|intros G C; apply parser_lines_no_error].
  intros G C now line s s' Hline. split.
  - unfold parseStatsdLine in Hline.
    destruct (stripDataDog line s) as [lineTags line']. simpl.
    destruct (Split line' ":") as [|bucketName [|bit bits]]; simpl.
    + injection Hline as <-. exists [], s, []. eexists.
      split; [reflexivity|]. split; [reflexivity|]. split; [reflexivity|]. left. split; reflexivity.
    + injection Hline as <-. exists [], s, []. eexists.
      split; [reflexivity|]. split; [reflexivity|]. split; [reflexivity|]. left. split; reflexivity.
    + apply parseStatsdLine_bits_error in Hline
        as (pre & bad & post & s1 & Hsplit & Hpre & Hbad).
      apply parseStatsdLine_value_error in Hbad as (_ & l & entry & -> & Hlvl).
      exists pre, s1, l, entry. repeat split; try assumption.
      right. exists bad, post. exact Hsplit.
  - intros inTime addr raw rest Htrim Hne Hev. simpl.
    rewrite Htrim, Hne, Hev, Hline. reflexivity.
Qed.

Lemma parse_error_drops_rest_of_line_witness :
  match parseStatsdLine 100 "a:1|c:2|x" (Start defaultConfig 0) with
  | Ok (Some errParsing, s') =>
      exists (s1 : Statsd) (l : list logEntry) (entry : logEntry),
        s' = appendLog (l ++ [entry]) s1 /\ lvl entry = Error
  | _ => False
  end.
Proof.
  assert (Hobs : onOk fst (parseStatsdLine 100 "a:1|c:2|x" (Start defaultConfig 0)) =
                 Some (Some errParsing)) by (vm_compute; reflexivity).
  destruct (parseStatsdLine 100 "a:1|c:2|x" (Start defaultConfig 0))
    as [[e s']|p] eqn:Hline; [|discriminate].
  injection Hobs as ->.
  destruct (proj1 parse_error_drops_rest_of_line decimalGoLib plainCollaborators
              100 "a:1|c:2|x" (Start defaultConfig 0) s' Hline)
    as ((pre & s1 & l & entry & _ & Hs' & Hlvl & _) & _).
  exists s1, l, entry. split; assumption.
Defined.

(** ** The sanitize method *)

Section Sanitize.
Context `{GoLib} `{Collaborators}.

Lemma aggregate_retag (now : Z) (m : metric) (method : string) (l : list logEntry)
    (s : Statsd) :
  aggregate now m (retag method l s) =
  match aggregate now m s with
  | Ok s1 => Ok (retag method l s1)
  | Panic p => Panic p
  end.
Proof.
  unfold aggregate. cbn -[cachedOr touch f64_gtb int64_of_f64 f64_div String.eqb].
  repeat match goal with
         | |- context [if ?b then _ else _] => destruct b
         | |- context [match ?x with VInt64 _ => _ | _ => _ end] => destruct x
         end; reflexivity.
Qed.

Lemma aggregate_config (now : Z) (m : metric) (s s' : Statsd) :
  aggregate now m s = Ok s' -> config s' = config s.
Proof.
  unfold aggregate.
  repeat match goal with
         | |- context [if ?b then _ else _] => destruct b
         | |- context [match ?x with VInt64 _ => _ | _ => _ end] => destruct x
         end; intros [= <-]; reflexivity.
Qed.

Lemma parseSampleRate_retag (line : string) (rest : list string) (method : string)
    (l : list logEntry) (s : Statsd) :
  exists l' : list logEntry,
    parseSampleRate line rest (retag method l s) =
    (fst (parseSampleRate line rest s), retag method l' (snd (parseSampleRate line rest s))).
Proof.
  unfold parseSampleRate. destruct rest as [|sr rest]; [exists l; reflexivity|].
  destruct (Contains sr "@" && (1 <? Z.of_nat (String.length sr))).
  - destruct (ParseFloat (sliceFrom 1 sr)); eexists; reflexivity.
  - eexists; reflexivity.
Qed.

Lemma parseSampleRate_config (line : string) (rest : list string) (s : Statsd) :
  config (snd (parseSampleRate line rest s)) = config s.
Proof.
  destruct (parseSampleRate_log line rest s) as (l & ->). reflexivity.
Qed.

Lemma parseName_config (bucketName : string) (s : Statsd) :
  config (snd (parseName bucketName s)) = config s.
Proof.
  unfold parseName.
  repeat match goal with
         | |- context [if ?b then _ else _] => destruct b
         | |- context [match graphite ?x with Some _ => _ | None => _ end] =>
             destruct (graphite x)
         | |- context [match ?x with (_, _) => _ end] => destruct x
         end; reflexivity.
Qed.

(** Under a method that is not "upstream", [parseName] returns the name,
    field and tags that it returns under any other such method. *)
Lemma parseName_retag (bucketName method : string) (l : list logEntry) (s : Statsd) :
  method <> "upstream" -> SanitizeNamesMethod (config s) <> "upstream" ->
  exists l' : list logEntry,
    parseName bucketName (retag method l s) =
    (fst (parseName bucketName s), retag method l' (snd (parseName bucketName s))).
Proof.
  intros Hm Hs. unfold parseName. cbn [config retag SanitizeNamesMethod withMethod].
  destruct (String.eqb_spec method "upstream") as [|_]; [contradiction|].
  destruct (String.eqb_spec (SanitizeNamesMethod (config s)) "upstream") as [|_];
    [contradiction|].
  destruct (String.eqb method EmptyString),
           (String.eqb (SanitizeNamesMethod (config s)) EmptyString);
    cbn -[String.eqb ReplaceAll bucketTags Split];
    destruct (graphite s) as [p|];
    repeat (cbn -[String.eqb ReplaceAll bucketTags Split];
            match goal with
            | |- context [if ?b then _ else _] => destruct b
            | |- context [match ?x with (_, _) => _ end] => destruct x
            end);
    eexists; reflexivity.
Qed.

Lemma parseStatsdLine_value_config (now : Z) (line bucketName : string)
    (lineTags : gmap string string) (pipesplit : list string) (s s' : Statsd)
    (e : option error) :
  parseStatsdLine_value now line bucketName lineTags pipesplit s = Ok (e, s') ->
  config s' = config s.
Proof.
  unfold parseStatsdLine_value.
  destruct pipesplit as [|v [|t rest]]; try (intros [= _ <-]; reflexivity).
  pose proof (parseSampleRate_config line rest s) as Hsr.
  destruct (parseSampleRate line rest s) as [rate s1]. simpl in Hsr.
  destruct (negb (isMetricType t)); [intros [= _ <-]; exact Hsr|].
  destruct ((HasPrefix v "-" || HasPrefix v "+") && negb (String.eqb t "g") &&
            negb (String.eqb t "c")); [intros [= _ <-]; exact Hsr|].
  destruct (parseValue t v rate) as [[[i f] str]|]; [|intros [= _ <-]; exact Hsr].
  pose proof (parseName_config bucketName s1) as Hpn.
  destruct (parseName bucketName s1) as [[[name field] tags] s2]. simpl in Hpn.
  destruct (aggregate now _ s2) as [s3|p] eqn:Hagg; simpl; [|discriminate].
  intros [= _ <-]. rewrite (aggregate_config _ _ _ _ Hagg). congruence.
Qed.

Lemma parseStatsdLine_value_retag (now : Z) (line bucketName : string)
    (lineTags : gmap string string) (pipesplit : list string) (method : string)
    (l : list logEntry) (s : Statsd) :
  method <> "upstream" -> SanitizeNamesMethod (config s) <> "upstream" ->
  agree method (parseStatsdLine_value now line bucketName lineTags pipesplit s)
        (parseStatsdLine_value now line bucketName lineTags pipesplit (retag method l s)).
Proof.
  intros Hm Hs. unfold parseStatsdLine_value.
  destruct pipesplit as [|v [|t rest]];
    try (split; [reflexivity|]; eexists; reflexivity).
  destruct (parseSampleRate_retag line rest method l s) as (l1 & ->).
  pose proof (parseSampleRate_config line rest s) as Hsr.
  destruct (parseSampleRate line rest s) as [rate s1]. simpl in Hsr. simpl.
  destruct (negb (isMetricType t));
    [split; [reflexivity|]; eexists; reflexivity|].
  destruct ((HasPrefix v "-" || HasPrefix v "+") && negb (String.eqb t "g") &&
            negb (String.eqb t "c"));
    [split; [reflexivity|]; eexists; reflexivity|].
  destruct (parseValue t v rate) as [[[i f] str]|];
    [|split; [reflexivity|]; eexists; reflexivity].
  destruct (parseName_retag bucketName method l1 s1 Hm) as (l2 & ->);
    [rewrite Hsr; exact Hs|].
  destruct (parseName bucketName s1) as [[[name field] tags] s2]. simpl.
  change (typeTags t (retag method l2 s2) tags) with (typeTags t s2 tags).
  rewrite aggregate_retag.
  destruct (aggregate now _ s2) as [s3|p]; simpl; [|reflexivity].
  split; [reflexivity|]. exists l2. reflexivity.
Qed.

Lemma parseStatsdLine_bits_retag (now : Z) (line bucketName : string)
    (lineTags : gmap string string) (bits : list string) (method : string) :
  method <> "upstream" ->
  forall (l : list logEntry) (s : Statsd),
    SanitizeNamesMethod (config s) <> "upstream" ->
    agree method (parseStatsdLine_bits now line bucketName lineTags bits s)
          (parseStatsdLine_bits now line bucketName lineTags bits (retag method l s)).
Proof.
  intros Hm. induction bits as [|bit bits IH]; intros l s Hs;
    [split; [reflexivity|]; exists l; reflexivity|].
  simpl. unfold parseStatsdLine_bit.
  pose proof (parseStatsdLine_value_retag now line bucketName lineTags (Split bit "|")
                method l s Hm Hs) as Hag.
  pose proof (parseStatsdLine_value_config now line bucketName lineTags (Split bit "|") s) as Hcfg.
  unfold agree in Hag.
  destruct (parseStatsdLine_value now line bucketName lineTags (Split bit "|") s)
    as [[e s1]|p];
    destruct (parseStatsdLine_value now line bucketName lineTags (Split bit "|")
                (retag method l s)) as [[e' s1']|p']; try contradiction.
  - destruct Hag as (<- & l1 & ->). simpl.
    destruct e as [e|]; [split; [reflexivity|]; exists l1; reflexivity|].
    apply IH. rewrite (Hcfg s1 None eq_refl). exact Hs.
  - subst p'. reflexivity.
Qed.

Lemma parseStatsdLine_retag (now : Z) (line method : string) (l : list logEntry)
    (s : Statsd) :
  method <> "upstream" -> SanitizeNamesMethod (config s) <> "upstream" ->
  agree method (parseStatsdLine now line s) (parseStatsdLine now line (retag method l s)).
Proof.
  intros Hm Hs. unfold parseStatsdLine.
  change (stripDataDog line (retag method l s)) with (stripDataDog line s).
  destruct (stripDataDog line s) as [lineTags line'].
  destruct (Split line' ":") as [|bucketName [|bit bits]];
    try (split; [reflexivity|]; eexists; reflexivity).
  apply parseStatsdLine_bits_retag; assumption.
Qed.

(** Under an unknown method [parseName] logs the error and returns what
    it returns under the empty method. *)
Lemma parseName_unknown_method (bucketName : string) (s : Statsd) :
  SanitizeNamesMethod (config s) <> EmptyString ->
  SanitizeNamesMethod (config s) <> "upstream" ->
  fst (parseName bucketName s) = fst (parseName bucketName (retag EmptyString (Log s) s)) /\
  exists l : list logEntry,
    Log (snd (parseName bucketName s)) =
    Log s ++ mkLog Error "Unknown sanitizae name method: %s"
                   [VString (SanitizeNamesMethod (config s))] :: l.
Proof.
  intros Hne Hnu. split.
  - destruct (parseName_retag bucketName EmptyString (Log s) s) as (l' & ->);
      [discriminate|exact Hnu|reflexivity].
  - unfold parseName.
    destruct (String.eqb_spec (SanitizeNamesMethod (config s)) EmptyString) as [|_];
      [contradiction|].
    destruct (String.eqb_spec (SanitizeNamesMethod (config s)) "upstream") as [|_];
      [contradiction|].
    cbn -[String.eqb ReplaceAll bucketTags Split].
    destruct (graphite s) as [p|];
      repeat (cbn -[String.eqb ReplaceAll bucketTags Split];
              match goal with
              | |- context [if ?b then _ else _] => destruct b
              | |- context [match ?x with (_, _) => _ end] => destruct x
              end);
      exists []; reflexivity.
Qed.

End Sanitize.

(** The claim of C8 fails for the sanitize method: under the unknown
    method "bogus" the line a:1|c is not dropped; the error is logged and
    the sample is added to the counter cache. *)
Lemma unknown_sanitize_method_still_aggregates :
  onOk (fun r => (fst r, fieldOf (counters (snd r)) "metric_type=countera" "value",
                  Log (snd r)))
       (parseStatsdLine 100 "a:1|c" (Start (withMethod "bogus" defaultConfig) 0)) =
  Some (None, Some (VInt64 1),
        [mkLog Error "Unknown sanitizae name method: %s" [VString "bogus"]]).
Proof. vm_compute. reflexivity. Qed.

(** C8, amended. Under an unknown sanitize method the error is logged by
    [parseName], the name is left as under the empty method, and the line
    is processed as under the empty method: same result, same caches, so
    its samples are aggregated. A value with an unknown metric type makes
    [parseStatsdLine] log the error and return the parse error at that
    value, which changes nothing but the log. *)
Theorem unknown_method_and_type :
  (forall (G : GoLib) (C : Collaborators) (now : Z) (line : string) (s : Statsd),
      SanitizeNamesMethod (config s) <> EmptyString ->
      SanitizeNamesMethod (config s) <> "upstream" ->
      agree EmptyString (parseStatsdLine now line s)
            (parseStatsdLine now line (retag EmptyString (Log s) s)) /\
      (forall bucketName : string,
          fst (parseName bucketName s) =
          fst (parseName bucketName (retag EmptyString (Log s) s)) /\
          exists l : list logEntry,
            Log (snd (parseName bucketName s)) =
            Log s ++ mkLog Error "Unknown sanitizae name method: %s"
                           [VString (SanitizeNamesMethod (config s))] :: l)) /\
  (forall (G : GoLib) (C : Collaborators) (now : Z) (line bucketName : string)
          (lineTags : gmap string string) (v t : string) (rest : list string) (s : Statsd),
      isMetricType t = false ->
      exists l : list logEntry,
        parseStatsdLine_value now line bucketName lineTags (v :: t :: rest) s =
        Ok (Some errParsing,
            appendLog (l ++ [mkLog Error "Metric type %q unsupported" [VString t]]) s)).
Proof.
  split.
  - intros G C now line s Hne Hnu. split.
    + apply parseStatsdLine_retag; [discriminate|exact Hnu].
    + intros bucketName. apply parseName_unknown_method; assumption.
  - intros G C now line bucketName lineTags v t rest s Ht.
    unfold parseStatsdLine_value.
    destruct (parseSampleRate_log line rest s) as (l & Hl).
    destruct (parseSampleRate line rest s) as [rate s1]. simpl in Hl. subst s1.
    rewrite Ht. simpl. exists l. rewrite logf_appendLog, appendLog_app. reflexivity.
Qed.

Lemma unknown_method_and_type_witness :
  agree EmptyString
        (parseStatsdLine 100 "a:1|c" (Start (withMethod "bogus" defaultConfig) 0))
        (parseStatsdLine 100 "a:1|c"
           (retag EmptyString [] (Start (withMethod "bogus" defaultConfig) 0))) /\
  exists l : list logEntry,
    parseStatsdLine_value 100 "a:1|x" "a" ∅ ["1"; "x"] (Start defaultConfig 0) =
    Ok (Some errParsing,
        appendLog (l ++ [mkLog Error "Metric type %q unsupported" [VString "x"]])
                  (Start defaultConfig 0)).
Proof.
  split.
  - apply (proj1 unknown_method_and_type decimalGoLib plainCollaborators 100 "a:1|c"
             (Start (withMethod "bogus" defaultConfig) 0)); discriminate.
  - apply (proj2 unknown_method_and_type decimalGoLib plainCollaborators 100 "a:1|x" "a"
             ∅ "1" "x" [] (Start defaultConfig 0)). reflexivity.
Defined.

(** ** Counters and the sample rate *)

Section CounterRate.
Context `{GoLib} `{Collaborators}.

Lemma counterValue_no_rate (v : Z) : counterValue v f64_zero = v.
Proof. reflexivity. Qed.

(** For a counter, [aggregate] reads the name, the field, the hash, the
    tags and the integer value of the metric, and nothing else. *)
Lemma aggregate_counter_reads (now : Z) (name field bucketName h : string) (i : Z)
    (f f' : float64) (str str' : string) (a a' : bool) (r r' : float64)
    (tags : gmap string string) (s : Statsd) :
  aggregate now (mkMetric name field bucketName h i f str "c" a r tags) s =
  aggregate now (mkMetric name field bucketName h i f' str' "c" a' r' tags) s.
Proof. rewrite !aggregate_counter by reflexivity. reflexivity. Qed.

(** A counter value with a sample rate is processed as the value
    [counterValue v r] written without a sample rate. *)
Lemma counter_rate_as_plain_value (now : Z) (line bucketName : string)
    (lineTags : gmap string string) (vs xs : string) (a : ascii) (rs : string)
    (v : Z) (r : float64) (s : Statsd) :
  ParseInt vs = Some v ->
  ParseFloat (String a rs) = Some r ->
  ParseInt xs = Some (counterValue v r) ->
  parseStatsdLine_value now line bucketName lineTags [vs; "c"; String "@" (String a rs)] s =
  parseStatsdLine_value now line bucketName lineTags [xs; "c"] s.
Proof.
  intros Hv Hr Hx. unfold parseStatsdLine_value, parseSampleRate.
  change (Contains (String "@" (String a rs)) "@") with true.
  replace (1 <? Z.of_nat (String.length (String "@" (String a rs)))) with true
    by (symmetry; apply Z.ltb_lt; simpl String.length; lia).
  change (sliceFrom 1 (String "@" (String a rs))) with (String a rs).
  rewrite Hr. cbn -[parseName aggregate HasPrefix counterValue hashOf mergeTags typeTags].
  rewrite !andb_false_r. unfold parseValue.
  cbn -[parseName aggregate HasPrefix counterValue hashOf mergeTags typeTags].
  rewrite Hv, Hx, counterValue_no_rate.
  destruct (parseName bucketName s) as [[[name field] tags] s2].
  rewrite (aggregate_counter_reads now name field bucketName _ (counterValue v r)
             f64_zero f64_zero EmptyString EmptyString
             (HasPrefix vs "-" || HasPrefix vs "+") (HasPrefix xs "-" || HasPrefix xs "+")
             r f64_zero).
  reflexivity.
Qed.

(** What the counter field holds after a counter value with a sample
    rate. *)
Lemma counter_rate_field (now : Z) (line bucketName : string)
    (lineTags : gmap string string) (vs : string) (a : ascii) (rs : string)
    (v old : Z) (r : float64) (s : Statsd) :
  ParseInt vs = Some v ->
  ParseFloat (String a rs) = Some r ->
  let name := fst (fst (fst (parseName bucketName s))) in
  let field := snd (fst (fst (parseName bucketName s))) in
  let s2 := snd (parseName bucketName s) in
  let h := hashOf (mergeTags lineTags (typeTags "c" s2 (snd (fst (parseName bucketName s)))))
                  name in
  (fieldOf (counters s2) h field = None /\ old = 0) \/
  fieldOf (counters s2) h field = Some (VInt64 old) ->
  exists s' : Statsd,
    parseStatsdLine_value now line bucketName lineTags
      [vs; "c"; String "@" (String a rs)] s = Ok (None, s') /\
    fieldOf (counters s') h field = Some (VInt64 (wrap64 (old + counterValue v r))).
Proof.
  intros Hv Hr. unfold parseStatsdLine_value, parseSampleRate.
  change (Contains (String "@" (String a rs)) "@") with true.
  replace (1 <? Z.of_nat (String.length (String "@" (String a rs)))) with true
    by (symmetry; apply Z.ltb_lt; simpl String.length; lia).
  change (sliceFrom 1 (String "@" (String a rs))) with (String a rs).
  rewrite Hr. cbn -[parseName aggregate HasPrefix counterValue hashOf mergeTags typeTags].
  rewrite !andb_false_r. unfold parseValue.
  cbn -[parseName aggregate HasPrefix counterValue hashOf mergeTags typeTags].
  rewrite Hv.
  destruct (parseName bucketName s) as [[[name field] tags] s2].
  cbn -[aggregate HasPrefix counterValue hashOf mergeTags typeTags].
  intros Hold. rewrite aggregate_counter by reflexivity.
  cbn -[HasPrefix counterValue hashOf mergeTags typeTags touch cachedOr].
  destruct Hold as [[-> ->]| ->]; eexists; (split; [reflexivity|]);
    cbn -[HasPrefix counterValue hashOf mergeTags typeTags touch cachedOr];
    apply fieldOf_insert_touch.
Qed.

(** With the rate 1 the division is carried out, and gives the value
    back when it is below [2^53] in magnitude. *)
Lemma counterValue_rate_one (x : Z) : Z.abs x < 2 ^ 53 -> counterValue x f64_one = x.
Proof.
  intros Hx. unfold counterValue.
  change (f64_neb f64_one f64_zero) with true. cbv iota.
  unfold int64_of_f64. rewrite int_through_rate_one by exact Hx.
  replace (inInt64 x) with true; [reflexivity|].
  symmetry. unfold inInt64, minInt64, maxInt64. apply andb_true_intro.
  split; apply Z.leb_le; lia.
Qed.

(** A counter value with a sample rate is processed as the value
    [counterValue v r] written with the rate 1. *)
Lemma counter_rate_as_rate_one (now : Z) (line bucketName : string)
    (lineTags : gmap string string) (vs xs : string) (a : ascii) (rs : string)
    (v : Z) (r : float64) (s : Statsd) :
  ParseInt vs = Some v ->
  ParseFloat (String a rs) = Some r ->
  ParseInt xs = Some (counterValue v r) ->
  ParseFloat "1" = Some f64_one ->
  Z.abs (counterValue v r) < 2 ^ 53 ->
  parseStatsdLine_value now line bucketName lineTags [vs; "c"; String "@" (String a rs)] s =
  parseStatsdLine_value now line bucketName lineTags [xs; "c"; "@1"] s.
Proof.
  intros Hv Hr Hx Hone Hsmall.
  rewrite (counter_rate_as_plain_value now line bucketName lineTags vs xs a rs v r s Hv Hr Hx).
  symmetry.
  apply (counter_rate_as_plain_value now line bucketName lineTags xs xs "1"%char EmptyString
           (counterValue v r) f64_one s Hx Hone).
  rewrite counterValue_rate_one by exact Hsmall. exact Hx.
Qed.

(** The value of a counter under a finite rate other than zero: the
    integer part of the float64 quotient when it is an int64. *)
Lemma counterValue_finite (v : Z) (sg : bool) (m : positive) (e z : Z) :
  f64_trunc (f64_div (f64_of_Z v) (S754_finite sg m e)) = Some z ->
  inInt64 z = true ->
  counterValue v (S754_finite sg m e) = z.
Proof.
  intros Hz Hin. unfold counterValue, int64_of_f64.
  rewrite f64_neb_finite, Hz, Hin. reflexivity.
Qed.

Lemma counterValue_out_of_range (v : Z) (sg : bool) (m : positive) (e : Z) :
  match f64_trunc (f64_div (f64_of_Z v) (S754_finite sg m e)) with
  | Some z => inInt64 z = false
  | None => True
  end ->
  counterValue v (S754_finite sg m e) =
  wrap64 (int64OutOfRange (f64_div (f64_of_Z v) (S754_finite sg m e))).
Proof.
  intros Hz. unfold counterValue, int64_of_f64. rewrite f64_neb_finite.
  destruct (f64_trunc _) as [z|]; [rewrite Hz|]; reflexivity.
Qed.

Lemma counterValue_zero_rate (v : Z) (sg : bool) : counterValue v (S754_zero sg) = v.
Proof. destruct sg; reflexivity. Qed.

End CounterRate.

(** [int64(f)] of a finite float rounds toward zero. *)
Lemma f64_trunc_toward_zero (sg : bool) (m : positive) (e : Z) :
  f64_trunc (S754_finite sg m e) =
  Some (if 0 <=? e then (if sg then - Z.pos m else Z.pos m) * 2 ^ e
        else Z.quot (if sg then - Z.pos m else Z.pos m) (2 ^ (- e))).
Proof.
  unfold f64_trunc. destruct (Z.leb_spec 0 e) as [He|He].
  - rewrite Z.shiftl_mul_pow2 by exact He. destruct sg; f_equal; lia.
  - rewrite Z.shiftr_div_pow2 by lia.
    assert (Hpow : 0 < 2 ^ (- e)) by (apply Z.pow_pos_nonneg; lia).
    destruct sg; f_equal.
    + change (- Z.pos m) with (- (Z.pos m)). rewrite Z.quot_opp_l by lia.
      rewrite Z.quot_div_nonneg by lia. reflexivity.
    + rewrite Z.quot_div_nonneg by lia. reflexivity.
Qed.

(** The claim of C1 fails where the quotient is not an integer: the line
    a:2|c|@0.75 adds 2 to the counter, while 2/0.75 rounds to 3. *)
Lemma counter_rate_truncates :
  onOk (fun s => fieldOf (counters s) "metric_type=countera" "value")
       (feed 100 ["a:2|c|@0.75"] (Start defaultConfig 0)) = Some (Some (VInt64 2)) /\
  match ParseFloat "0.75" with
  | Some r => roundedQuotient 2 r
  | None => None
  end = Some 3.
Proof. split; vm_compute; reflexivity. Qed.

(** C1, amended. A counter value v written with a sample rate r that is
    finite and not 0 (every rate in (0,1] is) adds to the counter the
    integer part z of the float64 quotient float64(v)/r, provided z is
    an int64: the line is then processed exactly as the value z written
    without a sample rate, and as z written with the rate 1 when z is
    below 2^53 in magnitude. The quotient is rounded toward zero, not to
    the nearest integer. A rate that parses as 0 leaves v as it is, and
    a quotient outside of int64 gives what the conversion gives on the
    platform. The line users.online:1|c|@0.5, with ConvertNames on,
    leaves the counter users_online with value 2. *)
Theorem counter_sample_rate :
  (forall (G : GoLib) (C : Collaborators) (now : Z) (line bucketName : string)
          (lineTags : gmap string string) (vs xs : string) (a : ascii) (rs : string)
          (v : Z) (sg : bool) (m : positive) (e z : Z) (s : Statsd),
      ParseInt vs = Some v ->
      ParseFloat (String a rs) = Some (S754_finite sg m e) ->
      f64_trunc (f64_div (f64_of_Z v) (S754_finite sg m e)) = Some z ->
      inInt64 z = true ->
      ParseInt xs = Some z ->
      parseStatsdLine_value now line bucketName lineTags
        [vs; "c"; String "@" (String a rs)] s =
      parseStatsdLine_value now line bucketName lineTags [xs; "c"] s /\
      (ParseFloat "1" = Some f64_one ->
       Z.abs z < 2 ^ 53 ->
       parseStatsdLine_value now line bucketName lineTags
         [vs; "c"; String "@" (String a rs)] s =
       parseStatsdLine_value now line bucketName lineTags [xs; "c"; "@1"] s)) /\
  (forall (G : GoLib) (C : Collaborators) (now : Z) (line bucketName : string)
          (lineTags : gmap string string) (vs : string) (a : ascii) (rs : string)
          (v old : Z) (sg : bool) (m : positive) (e z : Z) (s : Statsd),
      ParseInt vs = Some v ->
      ParseFloat (String a rs) = Some (S754_finite sg m e) ->
      f64_trunc (f64_div (f64_of_Z v) (S754_finite sg m e)) = Some z ->
      inInt64 z = true ->
      (fieldOf (counters (snd (parseName bucketName s)))
         (hashOf (mergeTags lineTags
                    (typeTags "c" (snd (parseName bucketName s))
                       (snd (fst (parseName bucketName s)))))
                 (fst (fst (fst (parseName bucketName s)))))
         (snd (fst (fst (parseName bucketName s)))) = None /\ old = 0) \/
      fieldOf (counters (snd (parseName bucketName s)))
        (hashOf (mergeTags lineTags
                   (typeTags "c" (snd (parseName bucketName s))
                      (snd (fst (parseName bucketName s)))))
                (fst (fst (fst (parseName bucketName s)))))
        (snd (fst (fst (parseName bucketName s)))) = Some (VInt64 old) ->
      exists s' : Statsd,
        parseStatsdLine_value now line bucketName lineTags
          [vs; "c"; String "@" (String a rs)] s = Ok (None, s') /\
        fieldOf (counters s')
          (hashOf (mergeTags lineTags
                     (typeTags "c" (snd (parseName bucketName s))
                        (snd (fst (parseName bucketName s)))))
                  (fst (fst (fst (parseName bucketName s)))))
          (snd (fst (fst (parseName bucketName s)))) =
        Some (VInt64 (wrap64 (old + z)))) /\
  (forall (G : GoLib) (C : Collaborators) (now : Z) (line bucketName : string)
          (lineTags : gmap string string) (vs : string) (a : ascii) (rs : string)
          (v : Z) (sg : bool) (s : Statsd),
      ParseInt vs = Some v ->
      ParseFloat (String a rs) = Some (S754_zero sg) ->
      parseStatsdLine_value now line bucketName lineTags
        [vs; "c"; String "@" (String a rs)] s =
      parseStatsdLine_value now line bucketName lineTags [vs; "c"] s) /\
  (forall (G : GoLib) (v : Z) (sg : bool) (m : positive) (e : Z),
      match f64_trunc (f64_div (f64_of_Z v) (S754_finite sg m e)) with
      | Some z => inInt64 z = false
      | None => True
      end ->
      counterValue v (S754_finite sg m e) =
      wrap64 (int64OutOfRange (f64_div (f64_of_Z v) (S754_finite sg m e)))) /\
  (forall (sg : bool) (m : positive) (e : Z),
      f64_trunc (S754_finite sg m e) =
      Some (if 0 <=? e then (if sg then - Z.pos m else Z.pos m) * 2 ^ e
            else Z.quot (if sg then - Z.pos m else Z.pos m) (2 ^ (- e)))) /\
  onOk (fun s => map (fun kv => (name (snd kv), map_to_list (fields (snd kv))))
                     (map_to_list (counters s)))
       (feed 100 ["users.online:1|c|@0.5"] (Start convertNamesConfig 0)) =
  Some [("users_online", [("value", VInt64 2)])].
Proof.
  split; [|split; [|split; [|split; [|split]]]].
  - intros G C now line bucketName lineTags vs xs a rs v sg m e z s Hv Hr Hz Hin Hx.
    pose proof (counterValue_finite v sg m e z Hz Hin) as Hcv. split.
    + apply (counter_rate_as_plain_value now line bucketName lineTags vs xs a rs v
               (S754_finite sg m e) s); [exact Hv | exact Hr | rewrite Hcv; exact Hx].
    + intros Hone Hsmall.
      apply (counter_rate_as_rate_one now line bucketName lineTags vs xs a rs v
               (S754_finite sg m e) s);
        [exact Hv | exact Hr | rewrite Hcv; exact Hx | exact Hone | rewrite Hcv; exact Hsmall].
  - intros G C now line bucketName lineTags vs a rs v old sg m e z s Hv Hr Hz Hin Hold.
    rewrite <- (counterValue_finite v sg m e z Hz Hin).
    exact (counter_rate_field now line bucketName lineTags vs a rs v old
             (S754_finite sg m e) s Hv Hr Hold).
  - intros G C now line bucketName lineTags vs a rs v sg s Hv Hr.
    apply (counter_rate_as_plain_value now line bucketName lineTags vs vs a rs v
             (S754_zero sg) s); [exact Hv | exact Hr |].
    rewrite counterValue_zero_rate. exact Hv.
  - intros G v sg m e. apply counterValue_out_of_range.
  - apply f64_trunc_toward_zero.
  - vm_compute. reflexivity.
Qed.

Lemma counter_sample_rate_witness :
  parseStatsdLine_value 100 "users.online:1|c|@0.5" "users.online" ∅
    ["1"; "c"; "@0.5"] (Start convertNamesConfig 0) =
  parseStatsdLine_value 100 "users.online:1|c|@0.5" "users.online" ∅
    ["2"; "c"] (Start convertNamesConfig 0) /\
  parseStatsdLine_value 100 "users.online:1|c|@0.5" "users.online" ∅
    ["1"; "c"; "@0.5"] (Start convertNamesConfig 0) =
  parseStatsdLine_value 100 "users.online:1|c|@0.5" "users.online" ∅
    ["2"; "c"; "@1"] (Start convertNamesConfig 0).
Proof.
  destruct (proj1 counter_sample_rate decimalGoLib plainCollaborators 100
              "users.online:1|c|@0.5" "users.online" ∅ "1" "2" "0"%char ".5" 1
              false 4503599627370496%positive (-53) 2 (Start convertNamesConfig 0))
    as [Hplain Hone].
  - reflexivity.
  - vm_compute. reflexivity.
  - vm_compute. reflexivity.
  - reflexivity.
  - reflexivity.
  - split; [exact Hplain|]. apply Hone.
    + vm_compute. reflexivity.
    + vm_compute. reflexivity.
Defined.

(** ** Splitting and joining *)

Lemma Split_nonempty (s : string) (c : ascii) : Split s c <> [].
Proof.
  destruct s as [|a r]; cbn [Split]; [discriminate|].
  destruct (Ascii.eqb a c); [discriminate|].
  destruct (Split r c); discriminate.
Qed.

Lemma Join_cons (e : string) (rest : list string) (sep : string) :
  rest <> [] -> Join (e :: rest) sep = e +:+ sep +:+ Join rest sep.
Proof. destruct rest; [congruence | reflexivity]. Qed.

Lemma Join_Split (s : string) (c : ascii) : Join (Split s c) (byteString c) = s.
Proof.
  induction s as [|a r IH]; [reflexivity|].
  cbn [Split]. destruct (Ascii.eqb a c) eqn:E.
  - apply Ascii.eqb_eq in E. subst a.
    rewrite Join_cons by apply Split_nonempty. rewrite IH. reflexivity.
  - destruct (Split r c) as [|p ps] eqn:S; [exfalso; exact (Split_nonempty r c S)|].
    destruct ps as [|q qs].
    + cbn [Join] in *. congruence.
    + rewrite Join_cons by discriminate. rewrite Join_cons in IH by discriminate.
      rewrite <- IH. reflexivity.
Qed.

Lemma Split_no_sep (s : string) (c : ascii) : Contains s c = false -> Split s c = [s].
Proof.
  induction s as [|a r IH]; [reflexivity|].
  cbn [Contains Split]. intros Hc. apply orb_false_iff in Hc as [Ha Hr].
  rewrite Ha, (IH Hr). reflexivity.
Qed.

Lemma Split_app (s1 s2 : string) (c : ascii) :
  Split (s1 +:+ String c s2) c = Split s1 c ++ Split s2 c.
Proof.
  induction s1 as [|a r IH].
  - change (EmptyString +:+ String c s2) with (String c s2).
    cbn [Split]. rewrite Ascii.eqb_refl. reflexivity.
  - change (String a r +:+ String c s2) with (String a (r +:+ String c s2)).
    cbn [Split]. rewrite IH. destruct (Ascii.eqb a c); [reflexivity|].
    destruct (Split r c) as [|p ps] eqn:S; [exfalso; exact (Split_nonempty r c S)|].
    reflexivity.
Qed.

(** ** Keys and values in the bucket *)

Lemma parseKeyValue_no_equals (s : string) :
  Contains s "=" = false -> parseKeyValue s = (EmptyString, s).
Proof. intros Hc. unfold parseKeyValue. rewrite (Split_no_sep _ _ Hc). reflexivity. Qed.

Lemma parseKeyValue_pair (k v : string) :
  Contains k "=" = false -> parseKeyValue (k +:+ String "=" v) = (k, v).
Proof.
  intros Hc. unfold parseKeyValue. rewrite Split_app, (Split_no_sep _ _ Hc).
  cbn [app]. pose proof (Join_Split v "=") as HJ.
  destruct (Split v "=") as [|p ps] eqn:S; [exfalso; exact (Split_nonempty v _ S)|].
  destruct ps as [|q qs].
  - cbn [Join] in HJ. congruence.
  - change (byteString "=") with "=" in HJ. rewrite HJ. reflexivity.
Qed.

(** X1. [parseKeyValue] splits at the first equals sign, so a value that
    holds equals signs comes back whole, and a string without an equals
    sign is a value with the empty key. *)
Theorem parseKeyValue_round_trip (k v : string) :
  Contains k "=" = false ->
  parseKeyValue (k +:+ String "=" v) = (k, v) /\
  parseKeyValue k = (EmptyString, k).
Proof.
  intros Hc. split; [apply parseKeyValue_pair | apply parseKeyValue_no_equals]; exact Hc.
Qed.

Lemma parseKeyValue_round_trip_witness :
  parseKeyValue ("uri" +:+ String "=" "/service?x={a=b}") = ("uri", "/service?x={a=b}") /\
  parseKeyValue "uri" = (EmptyString, "uri").
Proof. apply (parseKeyValue_round_trip "uri" "/service?x={a=b}"). reflexivity. Defined.

Lemma bucketTags_snoc (name : string) (parts : list string) (p : string) :
  bucketTags (name :: parts ++ [p]) =
  if String.eqb (fst (parseKeyValue p)) EmptyString then bucketTags (name :: parts)
  else <[fst (parseKeyValue p) := snd (parseKeyValue p)]> (bucketTags (name :: parts)).
Proof.
  unfold bucketTags. cbn [tl]. rewrite fold_left_app. cbn [fold_left].
  destruct (parseKeyValue p) as [k v]. reflexivity.
Qed.

Lemma snoc_split {A : Type} (pre post parts : list A) (p x : A) :
  parts ++ [x] = pre ++ p :: post ->
  (post = [] /\ pre = parts /\ p = x) \/
  (exists post' : list A, post = post' ++ [x] /\ parts = pre ++ p :: post').
Proof.
  intros Heq. destruct post as [|q post0] using rev_ind.
  - apply app_inj_tail in Heq as [-> ->]. left. auto.
  - clear IHpost0. right. exists post0.
    change (pre ++ p :: post0 ++ [q]) with (pre ++ (p :: post0) ++ [q]) in Heq.
    rewrite app_assoc in Heq. apply app_inj_tail in Heq as [-> ->]. auto.
Qed.

(** X2. The tags written in the bucket after the name. For a key that is
    not empty, the tag map holds the value of the last part that carries
    the key; a part with an empty key (no equals sign, or nothing before
    it) adds no tag. *)
Theorem bucketTags_last_wins (name : string) (parts : list string) (k v : string) :
  k <> EmptyString ->
  (bucketTags (name :: parts) !! k = Some v <->
   exists (pre : list string) (p : string) (post : list string),
     parts = pre ++ p :: post /\ parseKeyValue p = (k, v) /\
     Forall (fun q => fst (parseKeyValue q) <> k) post) /\
  bucketTags (name :: parts) !! EmptyString = None.
Proof.
  intros Hk. induction parts as [|x parts IH] using rev_ind.
  - split; [split|reflexivity].
    + intros Hl. unfold bucketTags in Hl. cbn in Hl. rewrite lookup_empty in Hl. discriminate.
    + intros (pre & p & post & Heq & _). destruct pre; discriminate.
  - destruct IH as [IH IHe]. rewrite bucketTags_snoc.
    destruct (parseKeyValue x) as [kx vx] eqn:Hx. cbn [fst snd].
    assert (Hcase : forall m : gmap string string,
               (m !! k = Some v <->
                (kx = k /\ vx = v) \/ (kx <> k /\ bucketTags (name :: parts) !! k = Some v)) ->
               m !! k = Some v <->
               exists (pre : list string) (p : string) (post : list string),
                 parts ++ [x] = pre ++ p :: post /\ parseKeyValue p = (k, v) /\
                 Forall (fun q => fst (parseKeyValue q) <> k) post).
    { intros m Hm. rewrite Hm. split.
      - intros [[-> ->] | [Hne Hl]].
        + exists parts, x, []. auto.
        + apply IH in Hl as (pre & p & post & -> & Hp & Hpost).
          exists pre, p, (post ++ [x]). split; [|split; [exact Hp|]].
          * rewrite <- app_assoc. reflexivity.
          * apply Forall_app. split; [exact Hpost|].
            constructor; [rewrite Hx; exact Hne | constructor].
      - intros (pre & p & post & Heq & Hp & Hpost).
        apply snoc_split in Heq as [(-> & -> & ->) | (post' & -> & ->)].
        + left. rewrite Hx in Hp. injection Hp as -> ->. auto.
        + apply Forall_app in Hpost as [Hpost Hlast].
          apply Forall_inv in Hlast. rewrite Hx in Hlast. cbn [fst] in Hlast.
          right. split; [exact Hlast|]. apply IH. exists pre, p, post'. auto. }
    destruct (String.eqb kx EmptyString) eqn:He.
    + apply String.eqb_eq in He. subst kx. split; [|exact IHe].
      apply Hcase. split.
      * intros Hl. right. split; [congruence | exact Hl].
      * intros [[He _] | [_ Hl]]; [congruence | exact Hl].
    + apply String.eqb_neq in He. split.
      * apply Hcase. destruct (decide (kx = k)) as [->|Hne].
        -- rewrite lookup_insert_eq. split.
           ++ intros [= ->]. left. auto.
           ++ intros [[_ ->] | [Hne _]]; [reflexivity | congruence].
        -- rewrite lookup_insert_ne by exact Hne. split.
           ++ intros Hl. right. auto.
           ++ intros [[He' _] | [_ Hl]]; [congruence | exact Hl].
      * rewrite lookup_insert_ne by exact He. exact IHe.
Qed.

Lemma bucketTags_last_wins_witness :
  (bucketTags ["load"; "host=a"; "dc"; "host=b=c"] !! "host" = Some "b=c" <->
   exists (pre : list string) (p : string) (post : list string),
     ["host=a"; "dc"; "host=b=c"] = pre ++ p :: post /\ parseKeyValue p = ("host", "b=c") /\
     Forall (fun q => fst (parseKeyValue q) <> "host") post) /\
  bucketTags ["load"; "host=a"; "dc"; "host=b=c"] !! EmptyString = None.
Proof.
  apply (bucketTags_last_wins "load" ["host=a"; "dc"; "host=b=c"] "host" "b=c").
  discriminate.
Defined.

(** ** Names *)

Lemma allowed_not_special (a : ascii) :
  isAllowedChar a = true -> isWhitespace a = false /\ Ascii.eqb a "/" = false.
Proof.
  destruct a as [[] [] [] [] [] [] [] []]; vm_compute; intros Ha;
    first [discriminate Ha | split; reflexivity].
Qed.

Lemma allowedChars_ReplaceAll_allowed (s : string) :
  Forall (fun a => isAllowedChar a = true)
         (list_ascii_of_string (allowedChars_ReplaceAll s)).
Proof.
  induction s as [|a r IH]; [constructor|].
  cbn [allowedChars_ReplaceAll]. destruct (isAllowedChar a) eqn:Ha; [|exact IH].
  cbn [list_ascii_of_string]. constructor; assumption.
Qed.

Lemma sanitize_steps_clean (s : string) :
  Forall (fun a => isAllowedChar a = true) (list_ascii_of_string s) ->
  whitespace_ReplaceAll false s = s /\ ReplaceAll s "/" "-" = s /\
  allowedChars_ReplaceAll s = s.
Proof.
  induction s as [|a r IH]; [intros _; repeat split|].
  cbn [list_ascii_of_string]. intros Hs.
  apply Forall_cons in Hs as [Ha Hr].
  destruct (IH Hr) as (IH1 & IH2 & IH3).
  destruct (allowed_not_special a Ha) as [Hw Hsl].
  cbn [whitespace_ReplaceAll ReplaceAll allowedChars_ReplaceAll].
  rewrite Hw, Hsl, Ha, IH1, IH2, IH3. repeat split.
Qed.

(** X3. The "upstream" sanitizer returns a name made of the allowed
    characters only (letters, digits, underscore, hyphen, dot, semicolon,
    equals sign); a name that is made of them already comes back
    unchanged, so sanitizing twice is sanitizing once. *)
Theorem sanitizeUpstream_allowed (n : string) :
  Forall (fun a => isAllowedChar a = true) (list_ascii_of_string (sanitizeUpstream n)) /\
  (Forall (fun a => isAllowedChar a = true) (list_ascii_of_string n) ->
   sanitizeUpstream n = n) /\
  sanitizeUpstream (sanitizeUpstream n) = sanitizeUpstream n.
Proof.
  assert (Hclean : forall x : string,
             Forall (fun a => isAllowedChar a = true) (list_ascii_of_string x) ->
             sanitizeUpstream x = x).
  { intros x Hx. destruct (sanitize_steps_clean x Hx) as (H1 & H2 & H3).
    unfold sanitizeUpstream. rewrite H1, H2, H3. reflexivity. }
  assert (Hall : Forall (fun a => isAllowedChar a = true)
                        (list_ascii_of_string (sanitizeUpstream n)))
    by apply allowedChars_ReplaceAll_allowed.
  split; [exact Hall|]. split; [apply Hclean|]. apply Hclean, Hall.
Qed.

Lemma sanitizeUpstream_allowed_witness :
  Forall (fun a => isAllowedChar a = true)
         (list_ascii_of_string (sanitizeUpstream "cpu.load-1")) /\
  sanitizeUpstream "cpu.load-1" = "cpu.load-1".
Proof.
  split.
  - apply (proj1 (sanitizeUpstream_allowed "cpu.load-1")).
  - apply (proj1 (proj2 (sanitizeUpstream_allowed "cpu.load-1"))).
    repeat constructor.
Defined.

Lemma Contains_append (a b : string) (c : ascii) :
  Contains (a +:+ b) c = Contains a c || Contains b c.
Proof.
  induction a as [|x r IH]; [reflexivity|].
  change (String x r +:+ b) with (String x (r +:+ b)).
  cbn [Contains]. rewrite IH. apply orb_assoc.
Qed.

Lemma Contains_ReplaceAll_old (s : string) (old : ascii) (new : string) :
  Contains new old = false -> Contains (ReplaceAll s old new) old = false.
Proof.
  intros Hn. induction s as [|a r IH]; [reflexivity|].
  cbn [ReplaceAll]. destruct (Ascii.eqb a old) eqn:E.
  - rewrite Contains_append, Hn, IH. reflexivity.
  - cbn [Contains]. rewrite E, IH. reflexivity.
Qed.

Lemma Contains_ReplaceAll_other (s : string) (old c : ascii) (new : string) :
  Contains s c = false -> Contains new c = false ->
  Contains (ReplaceAll s old new) c = false.
Proof.
  intros Hs Hn. induction s as [|a r IH]; [reflexivity|].
  cbn [Contains] in Hs. apply orb_false_iff in Hs as [Ha Hr].
  cbn [ReplaceAll]. destruct (Ascii.eqb a old).
  - rewrite Contains_append, Hn, (IH Hr). reflexivity.
  - cbn [Contains]. rewrite Ha, (IH Hr). reflexivity.
Qed.

Section Names.
Context `{GoLib} `{Collaborators}.

(** [parseName] changes nothing of the plugin but the cached graphite
    parser and the log. *)
Lemma parseName_frame (bucket : string) (s : Statsd) :
  exists (g : option graphiteParser) (l : list logEntry),
    snd (parseName bucket s) =
    mkStatsd (config s) (drops s) (gauges s) (counters s) (sets s) (timings s)
             (distributions s) g (lastGatherTime s) (Log s ++ l).
Proof.
  unfold parseName.
  repeat match goal with
         | |- context [if ?b then _ else _] => destruct b
         | |- context [match graphite ?x with Some _ => _ | None => _ end] =>
             destruct (graphite x) eqn:?
         | |- context [match ?x with (_, _) => _ end] => destruct x
         end; cbn [snd]; destruct s; cbn in *;
    first [ eexists _, []; rewrite app_nil_r; subst; reflexivity
          | eexists _, [_]; reflexivity ].
Qed.

(** X4. With [convert_names] on, the measurement name that [parseName]
    returns holds no dot and no hyphen, whatever the templates make of
    the bucket. *)
Theorem parseName_convert_names (bucket : string) (s : Statsd) :
  ConvertNames (config s) = true ->
  Contains (fst (fst (fst (parseName bucket s)))) "." = false /\
  Contains (fst (fst (fst (parseName bucket s)))) "-" = false.
Proof.
  intros Hc.
  assert (Hn : forall n : string,
             Contains (ReplaceAll (ReplaceAll n "." "_") "-" "__") "." = false /\
             Contains (ReplaceAll (ReplaceAll n "." "_") "-" "__") "-" = false).
  { intros n. split.
    - apply Contains_ReplaceAll_other; [|reflexivity].
      apply Contains_ReplaceAll_old. reflexivity.
    - apply Contains_ReplaceAll_old. reflexivity. }
  unfold parseName.
  repeat match goal with
         | |- context [if String.eqb ?a ?b then _ else _] => destruct (String.eqb a b)
         | |- context [if graphiteInitFails ?a ?b then _ else _] =>
             destruct (graphiteInitFails a b)
         | |- context [match graphite ?x with Some _ => _ | None => _ end] =>
             destruct (graphite x)
         | |- context [match ?x with (_, _) => _ end] => destruct x
         end; cbn [config set_graphite logf fst snd]; rewrite Hc; apply Hn.
Qed.

End Names.

Lemma parseName_convert_names_witness :
  Contains (fst (fst (fst (parseName "users.on-line,dc=a" (Start convertNamesConfig 0)))))
           "." = false /\
  Contains (fst (fst (fst (parseName "users.on-line,dc=a" (Start convertNamesConfig 0)))))
           "-" = false.
Proof.
  apply (parseName_convert_names "users.on-line,dc=a" (Start convertNamesConfig 0)).
  reflexivity.
Defined.

Section GraphiteCache.
Context `{GoLib} `{Collaborators}.

(** X5. The error of the graphite parser's [Init] is looked at by the
    call of [parseName] that builds the parser and by no later call.
    Under a metric separator that is not empty, as [Start] leaves it,
    the first call keeps the tags of the bucket and the default field
    and caches the parser; every later call finds the cached parser and
    applies its templates. *)
Theorem graphite_init_error_once (bucket : string) (s : Statsd) :
  MetricSeparator (config s) <> EmptyString ->
  graphite s = None ->
  graphiteInitFails (MetricSeparator (config s)) (Templates (config s)) = true ->
  snd (fst (parseName bucket s)) = bucketTags (Split bucket ",") /\
  snd (fst (fst (parseName bucket s))) = defaultFieldName /\
  graphite (snd (parseName bucket s)) =
    Some (mkGraphite (MetricSeparator (config s)) (Templates (config s))) /\
  forall later : string,
    let name1 := if String.eqb (SanitizeNamesMethod (config s)) "upstream"
                 then sanitizeUpstream (hd EmptyString (Split later ","))
                 else hd EmptyString (Split later ",") in
    let applied := ApplyTemplate (MetricSeparator (config s)) (Templates (config s))
                                 (bucketTags (Split later ",")) name1 in
    snd (fst (parseName later (snd (parseName bucket s)))) = snd (fst applied) /\
    snd (fst (fst (parseName later (snd (parseName bucket s))))) =
      (if String.eqb (snd applied) EmptyString then defaultFieldName else snd applied) /\
    graphite (snd (parseName later (snd (parseName bucket s)))) =
      graphite (snd (parseName bucket s)).
Proof.
  intros _ Hg Hf.
  assert (Hfirst : exists l : list logEntry,
             snd (parseName bucket s) =
             mkStatsd (config s) (drops s) (gauges s) (counters s) (sets s) (timings s)
                      (distributions s)
                      (Some (mkGraphite (MetricSeparator (config s)) (Templates (config s))))
                      (lastGatherTime s) (Log s ++ l) /\
             snd (fst (parseName bucket s)) = bucketTags (Split bucket ",") /\
             snd (fst (fst (parseName bucket s))) = defaultFieldName).
  { unfold parseName.
    destruct (String.eqb (SanitizeNamesMethod (config s)) EmptyString);
      [|destruct (String.eqb (SanitizeNamesMethod (config s)) "upstream")];
      cbn [config logf graphite]; rewrite Hg, Hf;
      destruct (ConvertNames _); cbn [fst snd set_graphite];
      destruct s; cbn in *;
      first [ exists []; rewrite app_nil_r; repeat split; reflexivity
            | eexists [_]; repeat split; reflexivity ]. }
  destruct Hfirst as (l & Hs1 & Ht & Hfd).
  split; [exact Ht|]. split; [exact Hfd|]. split; [rewrite Hs1; reflexivity|].
  intros later name1 applied. rewrite Hs1. subst applied name1.
  unfold parseName. cbn [config].
  destruct (String.eqb (SanitizeNamesMethod (config s)) EmptyString) eqn:Em.
  - apply String.eqb_eq in Em. rewrite Em.
    change (String.eqb EmptyString "upstream") with false.
    cbn [config graphite Separator gTemplates]. rewrite String.eqb_refl.
    destruct (ApplyTemplate _ _ _ _) as [[n t] f]. cbn [fst snd]. repeat split.
  - destruct (String.eqb (SanitizeNamesMethod (config s)) "upstream");
      cbn [config graphite logf Separator gTemplates]; rewrite String.eqb_refl;
      destruct (ApplyTemplate _ _ _ _) as [[n t] f]; cbn [fst snd]; repeat split.
Qed.

End GraphiteCache.

Lemma graphite_init_error_once_witness :
  let s := @Start failingInitCollaborators defaultConfig 0 in
  snd (fst (@parseName failingInitCollaborators "a.b,dc=x" s)) =
    bucketTags (Split "a.b,dc=x" ",") /\
  graphite (snd (@parseName failingInitCollaborators "a.b,dc=x" s)) =
    Some (mkGraphite "_" []).
Proof.
  destruct (@graphite_init_error_once failingInitCollaborators "a.b,dc=x"
              (@Start failingInitCollaborators defaultConfig 0))
    as (Ht & _ & Hg & _); [discriminate | reflexivity | reflexivity |].
  split; [exact Ht | exact Hg].
Defined.

(** ** The DataDog segments of a line *)

Lemma HasPrefix_nil (s : string) : HasPrefix s EmptyString = true.
Proof. destruct s; reflexivity. Qed.

Lemma HasPrefix_cons (a b : ascii) (pre r : string) :
  HasPrefix (String b r) (String a pre) = Ascii.eqb a b && HasPrefix r pre.
Proof.
  unfold HasPrefix. cbn [String.prefix].
  destruct (ascii_dec a b) as [->|Hne].
  - rewrite Ascii.eqb_refl. reflexivity.
  - apply Ascii.eqb_neq in Hne. rewrite Hne. reflexivity.
Qed.

Lemma plainSegment_hash (r : string) : plainSegment (String "#" r) = false.
Proof. unfold plainSegment. rewrite HasPrefix_cons, HasPrefix_nil. reflexivity. Qed.

Lemma plainSegment_container (v : string) : plainSegment ("c:" +:+ v) = false.
Proof.
  change ("c:" +:+ v) with (String "c" (String ":" v)). unfold plainSegment.
  rewrite !HasPrefix_cons, !HasPrefix_nil. reflexivity.
Qed.

Lemma Contains_Split (s : string) (c d : ascii) :
  Contains s d = false -> Forall (fun p => Contains p d = false) (Split s c).
Proof.
  induction s as [|a r IH]; [intros _; repeat constructor|].
  cbn [Contains Split]. intros Hc. apply orb_false_iff in Hc as [Ha Hr].
  specialize (IH Hr). destruct (Ascii.eqb a c).
  - constructor; [reflexivity | exact IH].
  - destruct (Split r c) as [|p ps]; [repeat constructor; cbn; rewrite Ha; reflexivity|].
    apply Forall_cons in IH as [Hp Hps].
    constructor; [cbn [Contains]; rewrite Ha, Hp; reflexivity | exact Hps].
Qed.

Lemma Contains_Join (l : list string) (sep : string) (d : ascii) :
  Forall (fun p => Contains p d = false) l -> Contains sep d = false ->
  Contains (Join l sep) d = false.
Proof.
  intros Hl Hs. induction l as [|p ps IH]; [reflexivity|].
  apply Forall_cons in Hl as [Hp Hps]. destruct ps as [|q qs]; [exact Hp|].
  rewrite Join_cons by discriminate.
  rewrite !Contains_append, Hp, Hs, (IH Hps). reflexivity.
Qed.

Section DataDog.
Context `{GoLib} `{Collaborators}.

(** One step of the loop of [parseStatsdLine] over the pipe segments. *)
Lemma stripDataDog_fold (keep : bool) (segments : list string) :
  forall (tags : gmap string string) (acc : list string),
    snd (fold_left
           (fun acc segment =>
              let '(lineTags, segs) := acc in
              match segment with
              | String "#" r => (parseDataDogTags lineTags r, segs)
              | _ =>
                  if HasPrefix segment "c:" then
                    (if keep then <["container" := sliceFrom 2 segment]> lineTags
                     else lineTags, segs)
                  else (lineTags, (segs ++ [segment])%list)
              end)
           segments (tags, acc)) = acc ++ filter (fun x => plainSegment x = true) segments /\
    (Forall (fun x => plainSegment x = true) segments ->
     fst (fold_left
            (fun acc segment =>
               let '(lineTags, segs) := acc in
               match segment with
               | String "#" r => (parseDataDogTags lineTags r, segs)
               | _ =>
                   if HasPrefix segment "c:" then
                     (if keep then <["container" := sliceFrom 2 segment]> lineTags
                      else lineTags, segs)
                   else (lineTags, (segs ++ [segment])%list)
               end)
            segments (tags, acc)) = tags).
Proof.
  induction segments as [|seg rest IH]; intros tags acc.
  - cbn. rewrite app_nil_r. auto.
  - cbn [fold_left]. rewrite filter_cons.
    destruct seg as [|a r].
    + change (HasPrefix EmptyString "c:") with false. cbv iota.
      destruct (IH tags (acc ++ [EmptyString])) as [IH1 IH2].
      rewrite IH1. change (plainSegment EmptyString) with true.
      rewrite decide_True by reflexivity. split.
      * rewrite <- app_assoc. reflexivity.
      * intros Hall. apply Forall_cons in Hall as [_ Hall]. auto.
    + destruct (Ascii.eqb_spec a "#") as [->|Hne].
      * destruct (IH (parseDataDogTags tags r) acc) as [IH1 _]. rewrite IH1.
        rewrite plainSegment_hash. rewrite decide_False by discriminate.
        split; [reflexivity|]. intros Hall. apply Forall_cons in Hall as [Hp _].
        rewrite plainSegment_hash in Hp. discriminate.
      * assert (Hm : forall (X : Type) (x y : X),
                   match String a r with
                   | String "#" _ => x
                   | _ => y
                   end = y).
        { intros X x y. destruct a as [[] [] [] [] [] [] [] []]; try reflexivity.
          contradiction Hne. reflexivity. }
        assert (Hp : plainSegment (String a r) = negb (HasPrefix (String a r) "c:")).
        { unfold plainSegment. rewrite (HasPrefix_cons "#" a), HasPrefix_nil.
          rewrite Ascii.eqb_sym. apply Ascii.eqb_neq in Hne. rewrite Hne. reflexivity. }
        match goal with
        | |- context [fold_left ?f rest ?x] =>
            replace x with
              (if HasPrefix (String a r) "c:"
               then (if keep then <["container" := sliceFrom 2 (String a r)]> tags else tags, acc)
               else (tags, acc ++ [String a r]))
        end.
        2:{ destruct a as [[] [] [] [] [] [] [] []]; try reflexivity.
            contradiction Hne. reflexivity. }
        rewrite Hp. destruct (HasPrefix (String a r) "c:") eqn:Ec; cbn [negb].
        -- destruct (IH (if keep then <["container" := sliceFrom 2 (String a r)]> tags else tags)
                        acc) as [IH1 _].
           rewrite IH1, decide_False by discriminate. split; [reflexivity|].
           intros Hall. apply Forall_cons in Hall as [Hp' _].
           rewrite Hp in Hp'. discriminate.
        -- destruct (IH tags (acc ++ [String a r])) as [IH1 IH2].
           rewrite IH1, decide_True by reflexivity. split.
           ++ rewrite <- app_assoc. reflexivity.
           ++ intros Hall. apply Forall_cons in Hall as [_ Hall]. auto.
Qed.

(** The line that [parseStatsdLine] goes on with under the DataDog
    extensions: the pipe segments that are neither tags nor a container
    id, joined again. *)
Lemma stripDataDog_line (line : string) (s : Statsd) :
  DataDogExtensions (config s) = true ->
  snd (stripDataDog line s) =
  Join (filter (fun x => plainSegment x = true) (Split line "|")) "|".
Proof.
  intros Hd. unfold stripDataDog. rewrite Hd.
  pose proof (stripDataDog_fold (DataDogKeepContainerTag (config s)) (Split line "|") ∅ [])
    as [Hf _].
  destruct (fold_left _ _ _) as [tags segs]. cbn [snd] in *. rewrite Hf. reflexivity.
Qed.

(** X6. A line without DataDog segments goes through the DataDog
    preprocessing unchanged and with no line tag, whether the extensions
    are on or off. *)
Theorem stripDataDog_plain_line (line : string) (s : Statsd) :
  Forall (fun x => plainSegment x = true) (Split line "|") ->
  stripDataDog line s = (∅, line).
Proof.
  intros Hall. unfold stripDataDog. destruct (DataDogExtensions (config s)); [|reflexivity].
  pose proof (stripDataDog_fold (DataDogKeepContainerTag (config s)) (Split line "|") ∅ [])
    as [Hf Ht].
  specialize (Ht Hall).
  destruct (fold_left _ _ _) as [tags segs]. cbn [fst snd] in *. subst tags segs.
  cbn [app]. f_equal.
  replace (filter (fun x => plainSegment x = true) (Split line "|")) with (Split line "|").
  - apply (Join_Split line "|").
  - symmetry. clear -Hall. induction (Split line "|") as [|x l IH]; [reflexivity|].
    apply Forall_cons in Hall as [Hx Hl]. rewrite filter_cons, decide_True by exact Hx.
    f_equal. auto.
Qed.

(** X7. Under the DataDog extensions a first pipe segment that starts
    with c: is taken for a container id and removed. A sample of a bucket
    named c therefore loses its value: what is left has no colon, the
    line is rejected with [errParsing] and nothing is aggregated. *)
Theorem bucket_named_c_is_dropped (now : Z) (v rest : string) (s : Statsd) :
  DataDogExtensions (config s) = true ->
  Contains v "|" = false ->
  Contains rest ":" = false ->
  exists msg : string,
    parseStatsdLine now ("c:" +:+ v +:+ String "|" rest) s =
    Ok (Some errParsing,
        logf Error "Splitting ':', unable to parse metric: %s" [VString msg] s).
Proof.
  intros Hd Hv Hr. unfold parseStatsdLine.
  pose proof (stripDataDog_line ("c:" +:+ v +:+ String "|" rest) s Hd) as Hl.
  destruct (stripDataDog _ s) as [lineTags line]. cbn [snd] in Hl.
  change ("c:" +:+ v +:+ String "|" rest) with (("c:" +:+ v) +:+ String "|" rest) in Hl.
  rewrite Split_app in Hl.
  rewrite (Split_no_sep ("c:" +:+ v) "|") in Hl
    by (change ("c:" +:+ v) with (String "c" (String ":" v)); cbn [Contains]; exact Hv).
  cbn [app] in Hl. rewrite filter_cons in Hl.
  rewrite decide_False in Hl by (rewrite plainSegment_container; discriminate).
  assert (Hc : Contains line ":" = false).
  { subst line. apply Contains_Join; [|reflexivity].
    apply List.Forall_forall. intros x Hx. apply list_elem_of_In in Hx.
    apply list_elem_of_filter in Hx as [_ Hx]. apply list_elem_of_In in Hx.
    pose proof (Contains_Split rest "|" ":" Hr) as Hall.
    rewrite List.Forall_forall in Hall. auto. }
  rewrite (Split_no_sep line ":" Hc). eexists. reflexivity.
Qed.

End DataDog.

Lemma stripDataDog_plain_line_witness :
  stripDataDog "users.online:1|c|@0.5" (Start dataDogConfig 0) = (∅, "users.online:1|c|@0.5").
Proof.
  apply (stripDataDog_plain_line "users.online:1|c|@0.5" (Start dataDogConfig 0)).
  repeat constructor.
Defined.

Lemma bucket_named_c_is_dropped_witness :
  exists msg : string,
    parseStatsdLine 100 ("c:" +:+ "1" +:+ String "|" "c") (Start dataDogConfig 0) =
    Ok (Some errParsing,
        logf Error "Splitting ':', unable to parse metric: %s" [VString msg]
             (Start dataDogConfig 0)).
Proof.
  apply (bucket_named_c_is_dropped 100 "1" "c" (Start dataDogConfig 0)); reflexivity.
Defined.

(** ** The tags of the metric type *)

Lemma isMetricType_cases (t : string) :
  isMetricType t = true ->
  t = "g" \/ t = "c" \/ t = "s" \/ t = "ms" \/ t = "h" \/ t = "d".
Proof.
  unfold isMetricType. intros Ht.
  repeat (apply orb_true_iff in Ht as [Ht|Ht]); apply String.eqb_eq in Ht; auto 10.
Qed.

Section TypeTags.
Context `{GoLib} `{Collaborators}.

Lemma typeTags_lookup (s : Statsd) (tags : gmap string string) :
  typeTags "g" s tags !! "metric_type" = Some "gauge" /\
  typeTags "c" s tags !! "metric_type" = Some "counter" /\
  typeTags "s" s tags !! "metric_type" = Some "set" /\
  typeTags "ms" s tags !! "metric_type" = Some "timing" /\
  typeTags "h" s tags !! "metric_type" = Some "histogram" /\
  typeTags "d" s tags !! "metric_type" = Some "distribution".
Proof.
  unfold typeTags. cbn [String.eqb Ascii.eqb Bool.eqb].
  destruct (EnableAggregationTemporality (config s)), (DeleteCounters (config s));
    repeat split;
    repeat first [rewrite lookup_insert_eq | rewrite lookup_insert_ne by discriminate];
    reflexivity.
Qed.

(** X8. Every metric carries the tag [metric_type] of its type. The tag
    depends on the type alone: a tag of that name written in the bucket
    is overwritten, two different types never get the same value (so a
    timing and a histogram of one bucket differ in their tags), and a
    DataDog tag of the line overrides it as it overrides any other
    tag. *)
Theorem metric_type_tag (t1 t2 : string) (s : Statsd)
    (tags1 tags2 lineTags : gmap string string) :
  isMetricType t1 = true -> isMetricType t2 = true -> t1 <> t2 ->
  is_Some (typeTags t1 s tags1 !! "metric_type") /\
  typeTags t1 s tags1 !! "metric_type" = typeTags t1 s tags2 !! "metric_type" /\
  typeTags t1 s tags1 !! "metric_type" <> typeTags t2 s tags2 !! "metric_type" /\
  (forall k v : string,
      lineTags !! k = Some v -> mergeTags lineTags (typeTags t1 s tags1) !! k = Some v) /\
  (forall k : string,
      lineTags !! k = None ->
      mergeTags lineTags (typeTags t1 s tags1) !! k = typeTags t1 s tags1 !! k).
Proof.
  intros H1 H2 Hne.
  destruct (typeTags_lookup s tags1) as (G1 & C1 & S1 & M1 & I1 & D1).
  destruct (typeTags_lookup s tags2) as (G2 & C2 & S2 & M2 & I2 & D2).
  split; [|split; [|split; [|split]]].
  - destruct (isMetricType_cases t1 H1) as [->|[->|[->|[->|[->| ->]]]]]; eauto.
  - destruct (isMetricType_cases t1 H1) as [->|[->|[->|[->|[->| ->]]]]]; congruence.
  - destruct (isMetricType_cases t1 H1) as [->|[->|[->|[->|[->| ->]]]]];
      destruct (isMetricType_cases t2 H2) as [->|[->|[->|[->|[->| ->]]]]];
      congruence.
  - intros k v Hl. unfold mergeTags. apply lookup_union_Some_l. exact Hl.
  - intros k Hl. unfold mergeTags. apply lookup_union_r. exact Hl.
Qed.

End TypeTags.

Lemma metric_type_tag_witness :
  typeTags "ms" (Start defaultConfig 0) {["metric_type" := "spoofed"]} !! "metric_type" <>
  typeTags "h" (Start defaultConfig 0) ∅ !! "metric_type".
Proof.
  apply (metric_type_tag "ms" "h" (Start defaultConfig 0) {["metric_type" := "spoofed"]} ∅ ∅);
    [reflexivity | reflexivity | discriminate].
Defined.

(** ** Values that are accepted or rejected *)

Section Values.
Context `{GoLib} `{Collaborators}.

(** X9. A value that starts with a sign is accepted for gauges and
    counters only. For a set, a timing, a histogram or a distribution the
    value is rejected with [errParsing] before it is parsed, so a set
    member or a timing cannot start with a minus sign. *)
Theorem signed_value_rejected (now : Z) (line bucketName : string)
    (lineTags : gmap string string) (v t : string) (rest : list string) (s : Statsd) :
  HasPrefix v "-" || HasPrefix v "+" = true ->
  t = "s" \/ t = "ms" \/ t = "h" \/ t = "d" ->
  exists l : list logEntry,
    parseStatsdLine_value now line bucketName lineTags (v :: t :: rest) s =
    Ok (Some errParsing,
        appendLog
          (l ++ [mkLog Error
                   "+- values are only supported for gauges & counters, unable to parse metric: %s"
                   [VString line]]) s).
Proof.
  intros Hs Ht. unfold parseStatsdLine_value.
  destruct (parseSampleRate_log line rest s) as (l & Hl).
  destruct (parseSampleRate line rest s) as [rate s1]. cbn [snd] in Hl. subst s1.
  rewrite Hs. exists l.
  destruct Ht as [->|[->|[->| ->]]]; cbn [isMetricType String.eqb Ascii.eqb Bool.eqb orb negb andb];
    rewrite logf_appendLog, appendLog_app; reflexivity.
Qed.

(** X10. A sample rate that is malformed does not cost the sample: the
    value is processed as the same value with no rate, after one entry
    was added to the log. Malformed is a third pipe segment without an at
    sign or of one byte, or one whose bytes after the first are not a
    number. *)
Theorem bad_sample_rate_ignored (now : Z) (line bucketName : string)
    (lineTags : gmap string string) (v t sr : string) (more : list string) (s : Statsd) :
  Contains sr "@" && (1 <? Z.of_nat (String.length sr)) = false \/
  ParseFloat (sliceFrom 1 sr) = None ->
  exists entry : logEntry,
    parseStatsdLine_value now line bucketName lineTags (v :: t :: sr :: more) s =
    parseStatsdLine_value now line bucketName lineTags [v; t] (appendLog [entry] s).
Proof.
  intros Hbad. unfold parseStatsdLine_value, parseSampleRate.
  destruct (Contains sr "@" && (1 <? Z.of_nat (String.length sr))) eqn:Ec.
  - destruct Hbad as [Hbad|Hbad]; [discriminate|]. rewrite Hbad.
    eexists. rewrite logf_appendLog. reflexivity.
  - eexists. rewrite logf_appendLog. reflexivity.
Qed.

(** X11. A distribution sample is never aggregated. With the DataDog
    extensions and distributions on, it is appended to the list of
    distributions, one entry per sample; otherwise it is accepted without
    an error and discarded. No cache changes either way. *)
Theorem distribution_sample (now : Z) (line bucketName : string)
    (lineTags : gmap string string) (v : string) (f : float64) (s : Statsd) :
  ParseFloat v = Some f ->
  HasPrefix v "-" || HasPrefix v "+" = false ->
  exists s' : Statsd,
    parseStatsdLine_value now line bucketName lineTags [v; "d"] s = Ok (None, s') /\
    gauges s' = gauges s /\ counters s' = counters s /\ sets s' = sets s /\
    timings s' = timings s /\
    distributions s' =
      (if DataDogExtensions (config s) && DataDogDistributions (config s)
       then distributions s ++
            [mkDistribution (fst (fst (fst (parseName bucketName s)))) f
                            (mergeTags lineTags
                               (typeTags "d" s (snd (fst (parseName bucketName s)))))]
       else distributions s).
Proof.
  intros Hf Hs. unfold parseStatsdLine_value, parseSampleRate.
  rewrite Hs. cbn [isMetricType String.eqb Ascii.eqb Bool.eqb orb negb andb parseValue].
  rewrite Hf.
  destruct (parseName_frame bucketName s) as (g & l & Hfr).
  pose proof (parseName_config bucketName s) as Hcfg.
  destruct (parseName bucketName s) as [[[n fd] tg] s2]. cbn [fst snd] in *.
  unfold aggregate. cbn [mtype String.eqb Ascii.eqb Bool.eqb]. rewrite Hcfg.
  destruct (DataDogExtensions (config s) && DataDogDistributions (config s));
    cbn [bind]; eexists; (split; [reflexivity|]); subst s2; repeat split.
Qed.

End Values.

Lemma signed_value_rejected_witness :
  exists l : list logEntry,
    parseStatsdLine_value 100 "users:-bob|s" "users" ∅ ["-bob"; "s"] (Start defaultConfig 0) =
    Ok (Some errParsing,
        appendLog
          (l ++ [mkLog Error
                   "+- values are only supported for gauges & counters, unable to parse metric: %s"
                   [VString "users:-bob|s"]]) (Start defaultConfig 0)).
Proof.
  apply (signed_value_rejected 100 "users:-bob|s" "users" ∅ "-bob" "s" []
           (Start defaultConfig 0)); [reflexivity | left; reflexivity].
Defined.

Lemma bad_sample_rate_ignored_witness :
  exists entry : logEntry,
    parseStatsdLine_value 100 "a:1|c|0.5" "a" ∅ ["1"; "c"; "0.5"] (Start defaultConfig 0) =
    parseStatsdLine_value 100 "a:1|c|0.5" "a" ∅ ["1"; "c"]
      (appendLog [entry] (Start defaultConfig 0)).
Proof.
  apply (bad_sample_rate_ignored 100 "a:1|c|0.5" "a" ∅ "1" "c" "0.5" []
           (Start defaultConfig 0)).
  left. reflexivity.
Defined.

Lemma distribution_sample_witness :
  exists s' : Statsd,
    parseStatsdLine_value 100 "lat:1.5|d" "lat" ∅ ["1.5"; "d"] (Start defaultConfig 0) =
    Ok (None, s') /\
    distributions s' = [].
Proof.
  destruct (distribution_sample 100 "lat:1.5|d" "lat" ∅ "1.5"
              (f64_div (f64_of_Z 3) (f64_of_Z 2)) (Start defaultConfig 0))
    as (s' & Hr & _ & _ & _ & _ & Hd); [vm_compute; reflexivity | reflexivity |].
  exists s'. split; [exact Hr | exact Hd].
Defined.

(** ** What [aggregate] leaves alone *)

Section Frame.
Context `{GoLib} `{Collaborators}.

(** The shape of the plugin after [aggregate]: one entry written under
    the hash of the metric, in the cache of its type. *)
Lemma aggregate_cases (now : Z) (m : metric) (s s' : Statsd) :
  aggregate now m s = Ok s' ->
  (mtype m = "d" /\
   (s' = s \/
    s' = set_distributions
           (distributions s ++ [mkDistribution (mname m) (floatvalue m) (mtags m)]) s)) \/
  ((mtype m = "ms" \/ mtype m = "h") /\
   exists e, s' = set_timings (<[hash m := e]> (timings s)) s) \/
  (mtype m = "c" /\ exists e, s' = set_counters (<[hash m := e]> (counters s)) s) \/
  (mtype m = "g" /\ exists e, s' = set_gauges (<[hash m := e]> (gauges s)) s) \/
  (mtype m = "s" /\ exists e, s' = set_sets (<[hash m := e]> (sets s)) s) \/
  (isMetricType (mtype m) = false /\ s' = s).
Proof.
  unfold aggregate. intros Ha.
  destruct (String.eqb_spec (mtype m) "d") as [Hd|Hd].
  { left. split; [exact Hd|].
    destruct (DataDogExtensions (config s) && DataDogDistributions (config s));
      injection Ha as <-; auto. }
  right. destruct (String.eqb_spec (mtype m) "ms") as [Hms|Hms].
  { left. split; [auto|]. cbn [orb] in Ha. injection Ha as <-. eauto. }
  destruct (String.eqb_spec (mtype m) "h") as [Hh|Hh].
  { left. split; [auto|]. cbn [orb] in Ha. injection Ha as <-. eauto. }
  right. cbn [orb] in Ha. destruct (String.eqb_spec (mtype m) "c") as [Hc|Hc].
  { left. split; [exact Hc|].
    destruct (fields (cachedOr (counters s) m) !! mfield m) as [[]|];
      try discriminate; injection Ha as <-; eauto. }
  right. destruct (String.eqb_spec (mtype m) "g") as [Hg|Hg].
  { left. split; [exact Hg|].
    destruct (additive m); [|injection Ha as <-; eauto].
    destruct (fields (cachedOr (gauges s) m) !! mfield m) as [[]|];
      try discriminate; injection Ha as <-; eauto. }
  right. destruct (String.eqb_spec (mtype m) "s") as [Hs|Hs].
  { left. split; [exact Hs|]. injection Ha as <-. eauto. }
  right. injection Ha as <-. split; [|reflexivity].
  unfold isMetricType.
  repeat match goal with
         | Hne : mtype m <> ?x |- _ => apply String.eqb_neq in Hne; rewrite Hne; clear Hne
         end.
  reflexivity.
Qed.

(** X12. [aggregate] writes one entry, under the hash of the metric and
    in the cache of its type. The entries under every other key, the
    caches of the other types, the options, the drop count, the log and
    the cached graphite parser stay as they are. *)
Theorem aggregate_frame (now : Z) (m : metric) (s s' : Statsd) :
  aggregate now m s = Ok s' ->
  (config s' = config s /\ drops s' = drops s /\ Log s' = Log s /\
   graphite s' = graphite s /\ lastGatherTime s' = lastGatherTime s) /\
  (forall k : string,
      k <> hash m ->
      gauges s' !! k = gauges s !! k /\ counters s' !! k = counters s !! k /\
      sets s' !! k = sets s !! k /\ timings s' !! k = timings s !! k) /\
  (mtype m <> "g" -> gauges s' = gauges s) /\
  (mtype m <> "c" -> counters s' = counters s) /\
  (mtype m <> "s" -> sets s' = sets s) /\
  (mtype m <> "ms" -> mtype m <> "h" -> timings s' = timings s) /\
  (mtype m <> "d" -> distributions s' = distributions s).
Proof.
  intros Ha.
  destruct (aggregate_cases now m s s' Ha)
    as [[Ht [->| ->]] | [[Ht (e & ->)] | [[Ht (e & ->)] | [[Ht (e & ->)] |
        [[Ht (e & ->)] | [Ht ->]]]]]];
    (split; [repeat split|]);
    (split; [intros k Hk; cbn; rewrite ?lookup_insert_ne by congruence; repeat split|]);
    repeat split; intros; cbn; try reflexivity; try congruence;
    try (destruct Ht; congruence).
Qed.

End Frame.

Lemma aggregate_frame_witness :
  let m := mkMetric "a" "value" "a" "metric_type=countera" 1 f64_zero EmptyString "c" false
                    f64_zero ∅ in
  let s := Start defaultConfig 0 in
  let s' := set_counters
              (<["metric_type=countera" :=
                   touch (mkCached "a" ∅ ∅ 0) "value" (VInt64 1) 100 0]> ∅) s in
  gauges s' = gauges s /\ sets s' = sets s /\ timings s' = timings s /\
  distributions s' = distributions s.
Proof.
  intros m s s'.
  destruct (aggregate_frame 100 m s s') as (_ & _ & Hg & _ & Hs & Ht & Hd);
    [reflexivity|].
  split; [apply Hg; discriminate|]. split; [apply Hs; discriminate|].
  split; [apply Ht; discriminate | apply Hd; discriminate].
Defined.

(** ** Counters and sets over many samples *)

Lemma wrap64_add_l (a b : Z) : wrap64 (wrap64 a + b) = wrap64 (a + b).
Proof.
  unfold wrap64. f_equal.
  replace ((a + 2 ^ 63) mod 2 ^ 64 - 2 ^ 63 + b + 2 ^ 63)
    with ((a + 2 ^ 63) mod 2 ^ 64 + b) by ring.
  rewrite Z.add_mod_idemp_l by (vm_compute; discriminate).
  f_equal. ring.
Qed.

Lemma sum_Permutation (l l' : list Z) :
  Permutation l l' -> fold_right Z.add 0 l = fold_right Z.add 0 l'.
Proof. induction 1; cbn [fold_right]; lia. Qed.

Section Sums.
Context `{GoLib} `{Collaborators}.

Lemma aggregate_counter_step (now : Z) (m : metric) (s : Statsd) (old : Z) :
  mtype m = "c" ->
  (fieldOf (counters s) (hash m) (mfield m) = None /\ old = 0) \/
  fieldOf (counters s) (hash m) (mfield m) = Some (VInt64 old) ->
  exists s' : Statsd,
    aggregate now m s = Ok s' /\
    fieldOf (counters s') (hash m) (mfield m) = Some (VInt64 (wrap64 (old + intvalue m))).
Proof.
  intros Hm Hc. rewrite aggregate_counter by exact Hm. cbv zeta.
  destruct Hc as [[-> ->] | ->]; eexists; (split; [reflexivity|]);
    cbn -[touch wrap64]; apply fieldOf_insert_touch.
Qed.

Lemma aggregateAll_counters (now : Z) (ms : list metric) :
  forall (m : metric) (s : Statsd) (h f : string) (old : Z),
    Forall (fun x => mtype x = "c" /\ hash x = h /\ mfield x = f) (m :: ms) ->
    (fieldOf (counters s) h f = None /\ old = 0) \/
    fieldOf (counters s) h f = Some (VInt64 old) ->
    exists s' : Statsd,
      aggregateAll now (m :: ms) s = Ok s' /\
      fieldOf (counters s') h f =
      Some (VInt64 (wrap64 (old + fold_right Z.add 0 (map intvalue (m :: ms))))).
Proof.
  induction ms as [|m2 ms IH]; intros m s h f old Hall Hc.
  - apply Forall_inv in Hall as (Hm & <- & <-).
    destruct (aggregate_counter_step now m s old Hm Hc) as (s' & Ha & Hf).
    exists s'. cbn [aggregateAll bind map fold_right]. rewrite Ha. cbn [bind].
    split; [reflexivity|]. rewrite Hf. do 3 f_equal. lia.
  - apply Forall_cons in Hall as [(Hm & <- & <-) Hrest].
    destruct (aggregate_counter_step now m s old Hm Hc) as (s1 & Ha & Hf).
    destruct (IH m2 s1 (hash m) (mfield m) (wrap64 (old + intvalue m)) Hrest (or_intror Hf))
      as (s' & Hall' & Hf').
    exists s'. change (aggregateAll now (m :: m2 :: ms) s)
      with (s0 <- aggregate now m s ;; aggregateAll now (m2 :: ms) s0).
    rewrite Ha. cbn [bind]. split; [exact Hall'|]. rewrite Hf', wrap64_add_l.
    do 3 f_equal. cbn [map fold_right]. lia.
Qed.

(** X13. The samples of one counter add up. After the samples of a list,
    all for one cache key and field, the field holds the sum of their
    values added to the value it held before, wrapped to 64 bits once;
    the samples in any other order leave the same value. *)
Theorem counter_sum (now : Z) (m : metric) (ms ms' : list metric) (s : Statsd)
    (h f : string) (old : Z) :
  Forall (fun x => mtype x = "c" /\ hash x = h /\ mfield x = f) (m :: ms) ->
  (fieldOf (counters s) h f = None /\ old = 0) \/
  fieldOf (counters s) h f = Some (VInt64 old) ->
  Permutation (m :: ms) ms' ->
  exists s1 s2 : Statsd,
    aggregateAll now (m :: ms) s = Ok s1 /\
    aggregateAll now ms' s = Ok s2 /\
    fieldOf (counters s1) h f =
      Some (VInt64 (wrap64 (old + fold_right Z.add 0 (map intvalue (m :: ms))))) /\
    fieldOf (counters s2) h f = fieldOf (counters s1) h f.
Proof.
  intros Hall Hc Hp.
  destruct (aggregateAll_counters now ms m s h f old Hall Hc) as (s1 & H1 & F1).
  destruct ms' as [|m' ms']; [apply Permutation_sym, Permutation_nil in Hp; discriminate|].
  assert (Hall' : Forall (fun x => mtype x = "c" /\ hash x = h /\ mfield x = f) (m' :: ms')).
  { rewrite List.Forall_forall in *. intros x Hx. apply Hall.
    apply (Permutation_in x (Permutation_sym Hp)). exact Hx. }
  destruct (aggregateAll_counters now ms' m' s h f old Hall' Hc) as (s2 & H2 & F2).
  exists s1, s2. repeat split; [exact H1 | exact H2 | exact F1 |].
  rewrite F1, F2. do 4 f_equal. apply sum_Permutation.
  apply Permutation_sym, Permutation_map. exact Hp.
Qed.

Lemma aggregate_set_step (now : Z) (m : metric) (s : Statsd) (x0 : gset string) :
  mtype m = "s" ->
  (fieldOf (sets s) (hash m) (mfield m) = None /\ x0 = ∅) \/
  fieldOf (sets s) (hash m) (mfield m) = Some x0 ->
  exists s' : Statsd,
    aggregate now m s = Ok s' /\
    fieldOf (sets s') (hash m) (mfield m) = Some ({[strvalue m]} ∪ x0).
Proof.
  intros Hm Hc. rewrite aggregate_set by exact Hm. cbv zeta.
  destruct Hc as [[-> ->] | ->]; eexists; (split; [reflexivity|]);
    cbn -[touch]; apply fieldOf_insert_touch.
Qed.

(** The members of a set field after the samples of a list. *)
Lemma aggregateAll_sets (now : Z) (ms : list metric) :
  forall (m : metric) (s : Statsd) (h f : string) (x0 : gset string),
    Forall (fun x => mtype x = "s" /\ hash x = h /\ mfield x = f) (m :: ms) ->
    (fieldOf (sets s) h f = None /\ x0 = ∅) \/ fieldOf (sets s) h f = Some x0 ->
    exists s' : Statsd,
      aggregateAll now (m :: ms) s = Ok s' /\
      fieldOf (sets s') h f = Some (list_to_set (map strvalue (m :: ms)) ∪ x0).
Proof.
  induction ms as [|m2 ms IH]; intros m s h f x0 Hall Hc.
  - apply Forall_inv in Hall as (Hm & <- & <-).
    destruct (aggregate_set_step now m s x0 Hm Hc) as (s' & Ha & Hf).
    exists s'. cbn [aggregateAll]. rewrite Ha. cbn [bind map].
    split; [reflexivity|]. rewrite Hf. f_equal. cbn [list_to_set].
    rewrite (right_id_L ∅ (∪)). reflexivity.
  - apply Forall_cons in Hall as [(Hm & <- & <-) Hrest].
    destruct (aggregate_set_step now m s x0 Hm Hc) as (s1 & Ha & Hf).
    destruct (IH m2 s1 (hash m) (mfield m) ({[strvalue m]} ∪ x0) Hrest (or_intror Hf))
      as (s' & Hall' & Hf').
    exists s'. change (aggregateAll now (m :: m2 :: ms) s)
      with (s0 <- aggregate now m s ;; aggregateAll now (m2 :: ms) s0).
    rewrite Ha. cbn [bind]. split; [exact Hall'|].
    rewrite Hf'. f_equal. cbn [map list_to_set].
    rewrite (assoc_L (∪)). f_equal. apply (comm_L (∪)).
Qed.

End Sums.

Lemma counter_sum_witness :
  let a := mkMetric "a" "value" "a" "metric_type=countera" 2 f64_zero EmptyString "c" false
                    f64_zero ∅ in
  let b := mkMetric "a" "value" "a" "metric_type=countera" (-5) f64_zero EmptyString "c" true
                    f64_zero ∅ in
  exists s1 s2 : Statsd,
    aggregateAll 100 [a; b] (Start defaultConfig 0) = Ok s1 /\
    aggregateAll 100 [b; a] (Start defaultConfig 0) = Ok s2 /\
    fieldOf (counters s1) "metric_type=countera" "value" = Some (VInt64 (-3)) /\
    fieldOf (counters s2) "metric_type=countera" "value" =
    fieldOf (counters s1) "metric_type=countera" "value".
Proof.
  intros a b.
  apply (counter_sum 100 a [b] [b; a] (Start defaultConfig 0) "metric_type=countera"
           "value" 0).
  - repeat constructor.
  - left. split; reflexivity.
  - apply perm_swap.
Defined.

(** ** The flush, step by step *)

Section FlushShape.
Context `{GoLib} `{Collaborators}.

(** [Gather] as one expression of the state it starts from. *)
Lemma Gather_eq (now nowExpire : Z) (s : Statsd) :
  Gather now nowExpire s =
  (c <- forEach (gatherCounter s) (counters s) ;;
   Ok (mkStatsd (config s) (drops s)
         (flushed (DeleteGauges (config s)) (MaxTTL (config s)) nowExpire
                  (gatherGauge s <$> gauges s))
         (flushed (DeleteCounters (config s)) (MaxTTL (config s)) nowExpire c)
         (flushed (DeleteSets (config s)) (MaxTTL (config s)) nowExpire (sets s))
         (flushed (DeleteTimings (config s)) (MaxTTL (config s)) nowExpire (timings s))
         [] (graphite s) now (Log s),
       map (fun m => mkEmitted AddFields (dname m)
                       (withStartTime s {[defaultFieldName := VFloat64 (dvalue m)]})
                       (dtags m) now)
           (distributions s) ++
       map (fun kv => mkEmitted AddFields (name (snd kv))
                        (withStartTime s (timingFields s (snd kv))) (tags (snd kv)) now)
           (map_to_list (timings s)) ++
       map (fun kv => emitCached AddGauge now (snd kv))
           (map_to_list (gatherGauge s <$> gauges s)) ++
       map (fun kv => emitCached AddCounter now (snd kv)) (map_to_list c) ++
       map (fun kv => mkEmitted AddFields (name (snd kv))
                        (withStartTime s (setFields s (snd kv))) (tags (snd kv)) now)
           (map_to_list (sets s)))).
Proof.
  unfold Gather, flushed.
  cbn -[forEach gatherCounter gatherGauge dropExpired expireCachedMetrics].
  destruct (DeleteTimings (config s)) eqn:Hdt;
    cbn -[forEach gatherCounter gatherGauge dropExpired expireCachedMetrics];
    (match goal with
     | |- context [forEach (gatherCounter ?s0) (counters s)] =>
         rewrite (gatherCounter_same s0 s (counters s) eq_refl eq_refl)
     end);
    (destruct (forEach (gatherCounter s) (counters s)) as [c|p]; [|reflexivity]);
    cbn -[gatherGauge dropExpired expireCachedMetrics];
    unfold expireCachedMetrics;
    destruct (DeleteSets (config s)) eqn:Hds;
    cbn -[dropExpired gatherGauge]; rewrite ?Hdt, ?Hds;
    destruct (DeleteGauges (config s)), (DeleteCounters (config s));
    destruct (MaxTTL (config s) =? 0); cbn -[dropExpired gatherGauge];
    reflexivity.
Qed.

End FlushShape.

(** ** Type assertions that cannot fail *)

Section WellTyped.
Context `{GoLib} `{Collaborators}.

Lemma wellTyped_frame (s s' : Statsd) :
  counters s' = counters s -> gauges s' = gauges s -> wellTyped s -> wellTyped s'.
Proof. unfold wellTyped. intros -> ->. auto. Qed.

Lemma wellTyped_appendLog (l : list logEntry) (s : Statsd) :
  wellTyped s -> wellTyped (appendLog l s).
Proof. apply wellTyped_frame; reflexivity. Qed.

Lemma cachedOr_Forall {V : Type} (P : V -> Prop) (c : gmap string (cached V)) (m : metric) :
  map_Forall (fun _ e => map_Forall (fun _ v => P v) (fields e)) c ->
  map_Forall (fun _ v => P v) (fields (cachedOr c m)).
Proof.
  intros Hc. unfold cachedOr. destruct (c !! hash m) as [e|] eqn:He.
  - exact (Hc _ _ He).
  - apply map_Forall_empty.
Qed.

Lemma touch_Forall {V : Type} (P : V -> Prop) (e : cached V) (f : string) (v : V)
    (now ttl : Z) :
  P v -> map_Forall (fun _ x => P x) (fields e) ->
  map_Forall (fun _ x => P x) (fields (touch e f v now ttl)).
Proof. intros Hv He. cbn [touch fields]. apply map_Forall_insert_2; assumption. Qed.

Lemma aggregate_wellTyped (now : Z) (m : metric) (s : Statsd) :
  wellTyped s -> exists s' : Statsd, aggregate now m s = Ok s' /\ wellTyped s'.
Proof.
  intros [Hc Hg]. unfold aggregate.
  destruct (String.eqb (mtype m) "d").
  { destruct (DataDogExtensions (config s) && DataDogDistributions (config s));
      eexists; (split; [reflexivity|]); split; assumption. }
  destruct (String.eqb (mtype m) "ms" || String.eqb (mtype m) "h").
  { eexists; (split; [reflexivity|]); split; assumption. }
  destruct (String.eqb (mtype m) "c").
  { pose proof (cachedOr_Forall isInt64 (counters s) m Hc) as He.
    assert (Hcur : exists z : Z,
               match fields (cachedOr (counters s) m) !! mfield m with
               | Some v => v
               | None => VInt64 0
               end = VInt64 z).
    { destruct (fields (cachedOr (counters s) m) !! mfield m) as [v|] eqn:Hv.
      - exact (He _ _ Hv).
      - exists 0. reflexivity. }
    destruct Hcur as (z & ->). eexists. split; [reflexivity|]. split; [|exact Hg].
    cbn [counters set_counters]. apply map_Forall_insert_2; [|exact Hc].
    apply touch_Forall; [eexists; reflexivity | exact He]. }
  destruct (String.eqb (mtype m) "g").
  { pose proof (cachedOr_Forall isFloat64 (gauges s) m Hg) as He.
    assert (Hcur : exists x : float64,
               match fields (cachedOr (gauges s) m) !! mfield m with
               | Some v => v
               | None => VFloat64 f64_zero
               end = VFloat64 x).
    { destruct (fields (cachedOr (gauges s) m) !! mfield m) as [v|] eqn:Hv.
      - exact (He _ _ Hv).
      - exists f64_zero. reflexivity. }
    destruct Hcur as (x & ->).
    destruct (additive m); eexists; (split; [reflexivity|]); (split; [exact Hc|]);
      cbn [gauges set_gauges]; (apply map_Forall_insert_2; [|exact Hg]);
      (apply touch_Forall; [eexists; reflexivity | exact He]). }
  destruct (String.eqb (mtype m) "s");
    eexists; (split; [reflexivity|]); split; assumption.
Qed.

Lemma parseName_wellTyped (bucket : string) (s : Statsd) :
  wellTyped s -> wellTyped (snd (parseName bucket s)).
Proof.
  destruct (parseName_frame bucket s) as (g & l & ->).
  apply wellTyped_frame; reflexivity.
Qed.

Lemma parseStatsdLine_value_wellTyped (now : Z) (line bucketName : string)
    (lineTags : gmap string string) (pipesplit : list string) (s : Statsd) :
  wellTyped s ->
  exists (e : option error) (s' : Statsd),
    parseStatsdLine_value now line bucketName lineTags pipesplit s = Ok (e, s') /\
    wellTyped s'.
Proof.
  intros Hw. unfold parseStatsdLine_value.
  destruct pipesplit as [|v [|t rest]];
    try (eexists _, _; split; [reflexivity|];
         rewrite logf_appendLog; apply wellTyped_appendLog, Hw).
  destruct (parseSampleRate_log line rest s) as (l & Hl).
  destruct (parseSampleRate line rest s) as [rate s1]. cbn [snd] in Hl. subst s1.
  pose proof (wellTyped_appendLog l s Hw) as Hw1.
  destruct (negb (isMetricType t));
    [eexists _, _; split; [reflexivity|];
     rewrite logf_appendLog; apply wellTyped_appendLog, Hw1|].
  destruct ((HasPrefix v "-" || HasPrefix v "+") && negb (String.eqb t "g") &&
            negb (String.eqb t "c"));
    [eexists _, _; split; [reflexivity|];
     rewrite logf_appendLog; apply wellTyped_appendLog, Hw1|].
  destruct (parseValue t v rate) as [[[i f] str]|];
    [|eexists _, _; split; [reflexivity|];
      rewrite logf_appendLog; apply wellTyped_appendLog, Hw1].
  pose proof (parseName_wellTyped bucketName (appendLog l s) Hw1) as Hw2.
  destruct (parseName bucketName (appendLog l s)) as [[[n fd] tg] s2]. cbn [snd] in Hw2.
  match goal with
  | |- context [aggregate now ?m s2] =>
      destruct (aggregate_wellTyped now m s2 Hw2) as (s3 & Ha & Hw3); rewrite Ha
  end.
  cbn [bind]. eexists _, _. split; [reflexivity | exact Hw3].
Qed.

Lemma parseStatsdLine_bits_wellTyped (now : Z) (line bucketName : string)
    (lineTags : gmap string string) (bits : list string) :
  forall s : Statsd,
    wellTyped s ->
    exists (e : option error) (s' : Statsd),
      parseStatsdLine_bits now line bucketName lineTags bits s = Ok (e, s') /\
      wellTyped s'.
Proof.
  induction bits as [|bit rest IH]; intros s Hw.
  - exists None, s. split; [reflexivity | exact Hw].
  - cbn [parseStatsdLine_bits]. unfold parseStatsdLine_bit.
    destruct (parseStatsdLine_value_wellTyped now line bucketName lineTags
                (Split bit "|") s Hw) as (e & s1 & Hv & Hw1).
    rewrite Hv. cbn [bind]. destruct e as [e|].
    + eexists _, _. split; [reflexivity | exact Hw1].
    + apply IH, Hw1.
Qed.

Lemma parseStatsdLine_wellTyped (now : Z) (line : string) (s : Statsd) :
  wellTyped s ->
  exists (e : option error) (s' : Statsd),
    parseStatsdLine now line s = Ok (e, s') /\ wellTyped s'.
Proof.
  intros Hw. unfold parseStatsdLine. destruct (stripDataDog line s) as [lineTags line'].
  destruct (Split line' ":") as [|bucketName [|bit bits]];
    try (eexists _, _; split; [reflexivity|];
         rewrite logf_appendLog; apply wellTyped_appendLog, Hw).
  apply parseStatsdLine_bits_wellTyped, Hw.
Qed.

Lemma parser_lines_wellTyped (now inTime : Z) (addr : string) (lines : list string) :
  forall s : Statsd,
    wellTyped s ->
    exists s' : Statsd,
      parser_lines now inTime addr lines s = Ok (None, s') /\ wellTyped s' /\
      config s' = config s.
Proof.
  induction lines as [|line rest IH]; intros s Hw.
  - exists s. split; [reflexivity|]. split; [exact Hw | reflexivity].
  - cbn [parser_lines].
    destruct (String.eqb (TrimSpace line) EmptyString); [apply IH, Hw|].
    destruct (DataDogExtensions (config s) && HasPrefix (TrimSpace line) "_e").
    + destruct (parseEventMessageFails inTime (TrimSpace line) addr).
      * rewrite !logf_appendLog, appendLog_app.
        match goal with
        | |- context [appendLog ?l s] =>
            destruct (IH _ (wellTyped_appendLog l s Hw)) as (s' & Hr & Hw' & Hc)
        end.
        exists s'. auto.
      * apply IH, Hw.
    + destruct (parseStatsdLine_wellTyped now (TrimSpace line) s Hw)
        as (e & s1 & Hp & Hw1).
      rewrite Hp. cbn [bind].
      assert (Hc1 : config s1 = config s).
      { unfold parseStatsdLine in Hp.
        destruct (stripDataDog (TrimSpace line) s) as [lineTags line'].
        destruct (Split line' ":") as [|bucketName [|bit bits]];
          try (injection Hp as _ <-; reflexivity).
        revert Hp. generalize (bit :: bits). intros bs. revert s Hw.
        induction bs as [|b bs IHb]; intros s Hw Hp.
        - injection Hp as _ <-. reflexivity.
        - cbn [parseStatsdLine_bits] in Hp. unfold parseStatsdLine_bit in Hp.
          destruct (parseStatsdLine_value_wellTyped now line' bucketName lineTags
                      (Split b "|") s Hw) as (e0 & s0 & Hv & Hw0).
          rewrite Hv in Hp. cbn [bind] in Hp.
          pose proof (parseStatsdLine_value_config _ _ _ _ _ _ _ _ Hv) as Hc0.
          destruct e0 as [e0|]; [injection Hp as _ <-; exact Hc0|].
          rewrite <- Hc0. apply (IHb s0 Hw0 Hp). }
      destruct (IH s1 Hw1) as (s' & Hr & Hw' & Hc).
      exists s'. rewrite Hc, Hc1.
      destruct e as [[]|]; try (split; [exact Hr|]; split; [exact Hw' | reflexivity]).
      exfalso. apply parseStatsdLine_only_errParsing in Hp. discriminate.
Qed.

Lemma flushed_Forall {V : Type} (P : string -> cached V -> Prop) (del : bool)
    (ttl now : Z) (c : gmap string (cached V)) :
  (del = false -> map_Forall P c) -> map_Forall P (flushed del ttl now c).
Proof.
  intros Hc. unfold flushed, dropExpired.
  destruct (ttl =? 0), del; try apply map_Forall_empty; try (apply Hc; reflexivity).
  - rewrite map_filter_empty. apply map_Forall_empty.
  - intros k e Hl. apply map_lookup_filter_Some in Hl as [Hl _].
    exact (Hc eq_refl _ _ Hl).
Qed.

Lemma Gather_wellTyped (now nowExpire : Z) (s : Statsd) :
  wellTyped s -> safeConfig (config s) = true ->
  exists (s' : Statsd) (out : list emitted),
    Gather now nowExpire s = Ok (s', out) /\ wellTyped s' /\ config s' = config s.
Proof.
  intros [Hc Hg] Hsafe. rewrite Gather_eq. unfold safeConfig in Hsafe.
  apply andb_true_iff in Hsafe as [Hsafe Hsg].
  apply andb_true_iff in Hsafe as [Hboth Hsc].
  assert (Hfe : exists c : gmap string cachedcounter,
             forEach (gatherCounter s) (counters s) = Ok c /\
             (DeleteCounters (config s) = false -> c = counters s)).
  { destruct (FloatCounters (config s)) eqn:Hfc.
    - cbn [negb orb] in Hboth. apply negb_true_iff in Hboth.
      destruct (forEach_total (gatherCounter s) (counters s)) as (c & Hfe).
      { intros k e Hk.
        destruct (gatherCounter_float s e Hfc Hboth) as (e' & He' & _); [|eauto].
        intros f v Hv. exact (Hc _ _ Hk _ _ Hv). }
      exists c. split; [exact Hfe|]. intros Hdc. rewrite Hdc in Hsc. discriminate.
    - assert (Hid : DeleteCounters (config s) = false ->
                    forall e : cachedcounter, gatherCounter s e = Ok e).
      { intros Hdc e. rewrite Hdc in Hsc. cbn in Hsc. apply negb_true_iff in Hsc.
        unfold gatherCounter, withStartTime. rewrite Hfc, Hsc. destruct e. reflexivity. }
      destruct (forEach_total (gatherCounter s) (counters s)) as (c & Hfe).
      { intros k e Hk. unfold gatherCounter. rewrite Hfc. eexists. reflexivity. }
      exists c. split; [exact Hfe|]. intros Hdc. apply map_eq. intros k.
      pose proof (forEach_lookup _ _ _ Hfe k) as Hl.
      destruct (counters s !! k) as [e|] eqn:Hk.
      + apply Hl. exists e. split; [reflexivity | apply Hid, Hdc].
      + destruct (c !! k) as [b|] eqn:Hb; [|reflexivity].
        destruct (proj1 (Hl b) eq_refl) as (a & Ha & _). discriminate. }
  destruct Hfe as (c & Hfe & Hsame). rewrite Hfe. cbn [bind].
  eexists _, _. split; [reflexivity|]. split; [|reflexivity].
  split; cbn [counters gauges].
  - apply flushed_Forall. intros Hdc. rewrite (Hsame Hdc). exact Hc.
  - apply flushed_Forall. intros Hdg. rewrite Hdg in Hsg. cbn in Hsg.
    apply negb_true_iff in Hsg.
    intros k e Hl. rewrite lookup_fmap in Hl.
    destruct (gauges s !! k) as [e0|] eqn:Hk; [|discriminate].
    injection Hl as <-. unfold gatherGauge, withStartTime. rewrite Hsg.
    cbn [fields]. exact (Hg _ _ Hk).
Qed.

End WellTyped.

(** X15. No type assertion fails under the safe options. When
    [float_counters] and [enable_aggregation_temporality] are not both
    on, a counter cache that is kept across flushes has neither of them
    on, and a gauge cache that is kept has the temporality off, then no
    sequence of packets handled by a worker and of flushes makes the
    started plugin panic, whatever the packets hold, and the counter
    fields stay int64 and the gauge fields float64. The options
    registered by [init] are of this kind. The drop branches of the
    listeners are not among the events. *)
Theorem safe_config_never_panics (G : GoLib) (C : Collaborators) (c : Config) (t0 : Z)
    (evs : list event) :
  safeConfig c = true ->
  exists (s' : Statsd) (out : list emitted),
    runEvents evs (Start c t0) = Ok (s', out) /\ wellTyped s'.
Proof.
  intros Hsafe.
  assert (Hrun : forall (s : Statsd),
             wellTyped s -> safeConfig (config s) = true ->
             exists (s' : Statsd) (out : list emitted),
               runEvents evs s = Ok (s', out) /\ wellTyped s').
  { induction evs as [|[now inTime addr payload | now nowExpire] rest IH]; intros s Hw Hs.
    - exists s, []. split; [reflexivity | exact Hw].
    - cbn [runEvents]. unfold parser.
      destruct (parser_lines_wellTyped now inTime addr (Split payload "010"%char) s Hw)
        as (s1 & Hp & Hw1 & Hc1).
      rewrite Hp. cbn [bind snd]. apply IH; [exact Hw1 | rewrite Hc1; exact Hs].
    - cbn [runEvents].
      destruct (Gather_wellTyped now nowExpire s Hw Hs) as (s1 & out1 & Hg & Hw1 & Hc1).
      rewrite Hg. cbn [bind fst snd].
      destruct (IH s1 Hw1) as (s' & out & Hr & Hw'); [rewrite Hc1; exact Hs|].
      rewrite Hr. cbn [bind fst snd]. eexists _, _. split; [reflexivity | exact Hw']. }
  apply Hrun.
  - split; apply map_Forall_empty.
  - unfold Start. cbn [config].
    destruct (String.eqb (MetricSeparator c) EmptyString); exact Hsafe.
Qed.

Lemma safe_config_never_panics_witness :
  exists (s' : Statsd) (out : list emitted),
    runEvents [Packet 100 100 "10.0.0.1" "a:1|c"; Flush 200 200; Packet 300 300 "10.0.0.1" "a:x|c"]
              (Start defaultConfig 0) = Ok (s', out) /\
    wellTyped s'.
Proof.
  apply (safe_config_never_panics decimalGoLib plainCollaborators defaultConfig 0).
  reflexivity.
Defined.

(** ** Sets at the flush *)

Section SetFlush.
Context `{GoLib} `{Collaborators}.

Lemma aggregateAll_wellTyped (now : Z) (ms : list metric) :
  forall s s' : Statsd, wellTyped s -> aggregateAll now ms s = Ok s' -> wellTyped s'.
Proof.
  induction ms as [|m ms IH]; intros s s' Hw Ha.
  - injection Ha as <-. exact Hw.
  - cbn [aggregateAll] in Ha.
    destruct (aggregate_wellTyped now m s Hw) as (s1 & H1 & Hw1).
    rewrite H1 in Ha. cbn [bind] in Ha. exact (IH s1 s' Hw1 Ha).
Qed.

Lemma aggregateAll_config (now : Z) (ms : list metric) :
  forall s s' : Statsd, aggregateAll now ms s = Ok s' -> config s' = config s.
Proof.
  induction ms as [|m ms IH]; intros s s' Ha.
  - injection Ha as <-. reflexivity.
  - cbn [aggregateAll] in Ha. destruct (aggregate now m s) as [s1|p] eqn:H1; [|discriminate].
    cbn [bind] in Ha. rewrite (IH s1 s' Ha). apply (aggregate_config now m s s1 H1).
Qed.

(** X14. A set field holds the distinct values of its samples. After the
    samples of a list, all for one cache key and field, the field is the
    set of their values joined with the members it had before, so a
    value sent twice counts once. The next flush that returns emits for
    the entry one record that carries, under the name of the field, the
    size of the set; the one exception is a field named start_time under
    the aggregation temporality, which the start time overwrites. *)
Theorem set_members (now flushNow nowExpire : Z) (m : metric) (ms : list metric)
    (s : Statsd) (h f : string) (x0 : gset string) :
  Forall (fun x => mtype x = "s" /\ hash x = h /\ mfield x = f) (m :: ms) ->
  (fieldOf (sets s) h f = None /\ x0 = ∅) \/ fieldOf (sets s) h f = Some x0 ->
  exists (s' : Statsd) (e : cachedset),
    aggregateAll now (m :: ms) s = Ok s' /\
    sets s' !! h = Some e /\
    fields e !! f = Some (list_to_set (map strvalue (m :: ms)) ∪ x0) /\
    forall (s'' : Statsd) (out : list emitted),
      Gather flushNow nowExpire s' = Ok (s'', out) ->
      exists r : emitted,
        r ∈ out /\ via r = AddFields /\ measurement r = name e /\ etags r = tags e /\
        timestamp r = flushNow /\
        (EnableAggregationTemporality (config s) = false \/ f <> "start_time" ->
         efields r !! f =
         Some (if FloatSets (config s)
               then VFloat64 (f64_of_Z (Z.of_nat
                      (size (list_to_set (map strvalue (m :: ms)) ∪ x0))))
               else VInt64 (Z.of_nat
                      (size (list_to_set (map strvalue (m :: ms)) ∪ x0))))) /\
        (EnableAggregationTemporality (config s) = true -> f = "start_time" ->
         efields r !! f = Some (VString (FormatRFC3339 (lastGatherTime s')))).
Proof.
  intros Hall Hc.
  destruct (aggregateAll_sets now ms m s h f x0 Hall Hc) as (s' & Ha & Hf).
  pose proof (aggregateAll_config now (m :: ms) s s' Ha) as Hcfg.
  unfold fieldOf in Hf. destruct (sets s' !! h) as [e|] eqn:He; [|discriminate].
  exists s', e. split; [exact Ha|]. split; [exact He|]. split; [exact Hf|].
  intros s'' out Hg. rewrite Gather_eq in Hg.
  destruct (forEach (gatherCounter s') (counters s')) as [c|p]; [|discriminate].
  cbn [bind] in Hg. injection Hg as _ <-.
  exists (mkEmitted AddFields (name e) (withStartTime s' (setFields s' e)) (tags e) flushNow).
  split.
  { do 4 (apply elem_of_app; right). apply list_elem_of_In.
    apply (in_map (fun kv : string * cachedset =>
                     mkEmitted AddFields (name (snd kv))
                       (withStartTime s' (setFields s' (snd kv))) (tags (snd kv)) flushNow)
                  _ (h, e)).
    apply list_elem_of_In, elem_of_map_to_list. exact He. }
  cbn [via measurement etags timestamp efields].
  split; [reflexivity|]. split; [reflexivity|]. split; [reflexivity|]. split; [reflexivity|].
  unfold withStartTime. rewrite Hcfg. split.
  - intros Hok.
    assert (Hs : setFields s' e !! f =
                 Some (if FloatSets (config s)
                       then VFloat64 (f64_of_Z (Z.of_nat
                              (size (list_to_set (map strvalue (m :: ms)) ∪ x0))))
                       else VInt64 (Z.of_nat
                              (size (list_to_set (map strvalue (m :: ms)) ∪ x0))))).
    { unfold setFields. rewrite lookup_fmap, Hf, Hcfg. reflexivity. }
    destruct (EnableAggregationTemporality (config s)); [|exact Hs].
    destruct Hok as [Hoff|Hne]; [discriminate|].
    rewrite lookup_insert_ne by congruence. exact Hs.
  - intros -> ->. apply lookup_insert_eq.
Qed.

End SetFlush.

Lemma wellTyped_Start (c : Config) (t0 : Z) : wellTyped (Start c t0).
Proof. split; apply map_Forall_empty. Qed.

Lemma set_members_witness :
  let a := mkMetric "users" "value" "users" "metric_type=setusers" 0 f64_zero "alice" "s"
                    false f64_zero ∅ in
  exists (s' s'' : Statsd) (out : list emitted) (r : emitted),
    aggregateAll 100 [a; a] (Start defaultConfig 0) = Ok s' /\
    Gather 200 200 s' = Ok (s'', out) /\
    r ∈ out /\ via r = AddFields /\ timestamp r = 200 /\
    efields r !! "value" =
    Some (VInt64 (Z.of_nat (size (list_to_set ["alice"; "alice"] ∪ (∅ : gset string))))).
Proof.
  intros a.
  destruct (set_members 100 200 200 a [a] (Start defaultConfig 0) "metric_type=setusers"
              "value" ∅) as (s' & e & Ha & He & Hf & Hflush).
  - repeat constructor.
  - left. split; reflexivity.
  - destruct (Gather_wellTyped 200 200 s') as (s'' & out & Hg & _).
    + apply (aggregateAll_wellTyped 100 [a; a] (Start defaultConfig 0) s');
        [apply wellTyped_Start | exact Ha].
    + rewrite (aggregateAll_config 100 [a; a] (Start defaultConfig 0) s' Ha). reflexivity.
    + destruct (Hflush s'' out Hg) as (r & Hin & Hvia & _ & _ & Htime & Hsize & _).
      exists s', s'', out, r. split; [exact Ha|]. split; [exact Hg|]. split; [exact Hin|].
      split; [exact Hvia|]. split; [exact Htime|]. apply Hsize. left. reflexivity.
Defined.

(** ** What a flush reports *)

Section FlushReport.
Context `{GoLib} `{Collaborators}.

(** X16. With [float_counters] and [enable_aggregation_temporality] both
    on, [Gather] panics as soon as one counter is cached: the start time
    that it writes into the fields of the counter is a string, and the
    conversion of the fields to float64 asserts int64 on it. *)
Theorem float_counters_with_temporality_panics (now nowExpire : Z) (s : Statsd)
    (k : string) (e : cachedcounter) :
  FloatCounters (config s) = true ->
  EnableAggregationTemporality (config s) = true ->
  counters s !! k = Some e ->
  exists p : panic, Gather now nowExpire s = Panic p.
Proof.
  intros Hf Ht Hk. rewrite Gather_eq.
  destruct (forEach (gatherCounter s) (counters s)) as [c|p] eqn:Hfe;
    [|exists p; reflexivity].
  exfalso. destruct (forEach_all_ok _ _ _ Hfe k e Hk) as (e' & He').
  unfold gatherCounter, withStartTime in He'. rewrite Hf, Ht in He'.
  destruct (forEach floatOfCounter _) as [f|p] eqn:Hin; [|discriminate].
  destruct (forEach_all_ok _ _ _ Hin "start_time"
              (VString (FormatRFC3339 (lastGatherTime s)))) as (b & Hb).
  - apply lookup_insert_eq.
  - discriminate.
Qed.

Lemma forEach_size {A B : Type} (f : A -> result B) (m : gmap string A)
    (m' : gmap string B) :
  forEach f m = Ok m' -> size m' = size m.
Proof.
  intros Hfe. rewrite <- !size_dom. f_equal. apply set_eq. intros k.
  rewrite !elem_of_dom. split.
  - intros [b Hb]. apply (forEach_lookup _ _ _ Hfe) in Hb as (a & Ha & _). eauto.
  - intros [a Ha]. destruct (forEach_all_ok _ _ _ Hfe k a Ha) as (b & Hb).
    exists b. apply (forEach_lookup _ _ _ Hfe). eauto.
Qed.

(** A flush that returns emits as many records as there are buffered
    distributions and cached entries. *)
Lemma Gather_length (now nowExpire : Z) (s s' : Statsd) (out : list emitted) :
  Gather now nowExpire s = Ok (s', out) ->
  length out = (length (distributions s) + size (timings s) + size (gauges s) +
                size (counters s) + size (sets s))%nat.
Proof.
  rewrite Gather_eq. intros Hg.
  destruct (forEach (gatherCounter s) (counters s)) as [c|p] eqn:Hfe; [|discriminate].
  cbn [bind] in Hg. injection Hg as _ <-.
  rewrite !length_app, !length_map, !length_map_to_list, map_size_fmap.
  rewrite (forEach_size _ _ _ Hfe). lia.
Qed.

(** X17. A flush that returns reports every distribution sample and every
    cached entry once: its records are, in this order, one for each
    buffered distribution, one for each timing entry, one for each gauge
    entry, one for each counter entry as the loop over the counters
    rewrote it, and one for each set entry, each with the name, the tags
    and the fields of its entry and with the time at which the flush
    started. It leaves no distribution behind, sets [lastGatherTime] to
    that time and keeps the options, the drop count, the log and the
    graphite parser. *)
Theorem Gather_reports_each_entry (now nowExpire : Z) (s s' : Statsd)
    (out : list emitted) :
  Gather now nowExpire s = Ok (s', out) ->
  (exists c : gmap string cachedcounter,
      (forall (k : string) (e' : cachedcounter),
          c !! k = Some e' <->
          exists e : cachedcounter, counters s !! k = Some e /\ gatherCounter s e = Ok e') /\
      out =
      map (fun m => mkEmitted AddFields (dname m)
                      (withStartTime s {[defaultFieldName := VFloat64 (dvalue m)]})
                      (dtags m) now)
          (distributions s) ++
      map (fun kv => mkEmitted AddFields (name (snd kv))
                       (withStartTime s (timingFields s (snd kv))) (tags (snd kv)) now)
          (map_to_list (timings s)) ++
      map (fun kv => mkEmitted AddGauge (name (snd kv)) (fields (snd kv)) (tags (snd kv)) now)
          (map_to_list (gatherGauge s <$> gauges s)) ++
      map (fun kv => mkEmitted AddCounter (name (snd kv)) (fields (snd kv)) (tags (snd kv))
                       now)
          (map_to_list c) ++
      map (fun kv => mkEmitted AddFields (name (snd kv))
                       (withStartTime s (setFields s (snd kv))) (tags (snd kv)) now)
          (map_to_list (sets s))) /\
  length out = (length (distributions s) + size (timings s) + size (gauges s) +
                size (counters s) + size (sets s))%nat /\
  Forall (fun e => timestamp e = now) out /\
  distributions s' = [] /\ lastGatherTime s' = now /\
  config s' = config s /\ drops s' = drops s /\ Log s' = Log s /\
  graphite s' = graphite s.
Proof.
  intros Hg. pose proof (Gather_length now nowExpire s s' out Hg) as Hlen.
  rewrite Gather_eq in Hg.
  destruct (forEach (gatherCounter s) (counters s)) as [c|p] eqn:Hfe; [|discriminate].
  cbn [bind] in Hg. injection Hg as <- <-.
  split; [|split; [|split; [|repeat split]]].
  - exists c. split; [|reflexivity]. intros k e'. apply (forEach_lookup _ _ _ Hfe).
  - exact Hlen.
  - repeat (apply Forall_app; split); apply List.Forall_forall; intros x Hx;
      apply in_map_iff in Hx as (y & <- & _); reflexivity.
Qed.

(** X18. With the four delete switches on, nothing is reported twice: a
    flush that follows a flush with no packet in between reports
    nothing. *)
Theorem second_flush_reports_nothing (now nowExpire now' nowExpire' : Z)
    (s s' : Statsd) (out : list emitted) :
  DeleteGauges (config s) = true -> DeleteCounters (config s) = true ->
  DeleteSets (config s) = true -> DeleteTimings (config s) = true ->
  Gather now nowExpire s = Ok (s', out) ->
  exists s'' : Statsd, Gather now' nowExpire' s' = Ok (s'', []).
Proof.
  intros Hdg Hdc Hds Hdt. rewrite Gather_eq. intros Hg.
  destruct (forEach (gatherCounter s) (counters s)) as [c|p]; [|discriminate].
  cbn [bind] in Hg. injection Hg as <- _.
  rewrite Hdg, Hdc, Hds, Hdt.
  assert (He : forall (V : Type) (x : gmap string (cached V)),
             flushed true (MaxTTL (config s)) nowExpire x = ∅).
  { intros V x. unfold flushed, dropExpired.
    destruct (MaxTTL (config s) =? 0); [reflexivity | apply map_filter_empty]. }
  rewrite !He, Gather_eq. cbn [counters gauges sets timings distributions].
  unfold forEach. rewrite fmap_empty, !map_to_list_empty. cbn [fold_right bind map app].
  eexists. reflexivity.
Qed.

(** X19. Eviction composes. Evicting at a time and then at a later time
    is evicting at the later time, so evicting twice at one time is
    evicting once. *)
Theorem expireCachedMetrics_twice (t1 t2 : Z) (s : Statsd) :
  t1 <= t2 ->
  expireCachedMetrics t2 (expireCachedMetrics t1 s) = expireCachedMetrics t2 s /\
  expireCachedMetrics t1 (expireCachedMetrics t1 s) = expireCachedMetrics t1 s.
Proof.
  assert (Hd : forall (V : Type) (a b : Z) (c : gmap string (cached V)),
             a <= b -> dropExpired b (dropExpired a c) = dropExpired b c).
  { intros V a b c Hab. apply map_eq. intros k. rewrite !dropExpired_lookup.
    destruct (c !! k) as [e|]; [|reflexivity].
    destruct (Z.ltb_spec (expiresAt e) a) as [Ha|Ha].
    - destruct (Z.ltb_spec (expiresAt e) b); [reflexivity | lia].
    - reflexivity. }
  assert (Ht : forall a b : Z,
             a <= b ->
             expireCachedMetrics b (expireCachedMetrics a s) = expireCachedMetrics b s).
  { intros a b Hab. unfold expireCachedMetrics.
    destruct (MaxTTL (config s) =? 0) eqn:Ettl; [rewrite Ettl; reflexivity|].
    cbn [config gauges counters sets timings drops distributions graphite
         lastGatherTime Log].
    rewrite Ettl, !Hd by exact Hab. reflexivity. }
  intros H12. split; apply Ht; [exact H12 | lia].
Qed.

End FlushReport.

Lemma float_counters_with_temporality_panics_witness :
  exists p : panic, Gather 200 200 floatTemporalityState = Panic p.
Proof.
  apply (float_counters_with_temporality_panics 200 200 floatTemporalityState
           "metric_type=countera" floatCounterEntry);
    [reflexivity | reflexivity | apply lookup_singleton_eq].
Defined.

Lemma wellTyped_ttlState : wellTyped ttlState.
Proof.
  split; [apply map_Forall_empty|].
  apply map_Forall_singleton. apply map_Forall_singleton. eexists. reflexivity.
Qed.

Lemma Gather_reports_each_entry_witness :
  exists (s' : Statsd) (out : list emitted),
    Gather 5 5 ttlState = Ok (s', out) /\
    length out = 1%nat /\
    Forall (fun e => timestamp e = 5) out /\ distributions s' = [] /\
    lastGatherTime s' = 5.
Proof.
  destruct (Gather_wellTyped 5 5 ttlState wellTyped_ttlState eq_refl)
    as (s' & out & Hg & _).
  destruct (Gather_reports_each_entry 5 5 ttlState s' out Hg)
    as (_ & Hlen & Ht & Hd & Hl & _).
  exists s', out. split; [exact Hg|]. split; [|auto].
  rewrite Hlen. vm_compute. reflexivity.
Defined.

Lemma second_flush_reports_nothing_witness :
  exists (s' s'' : Statsd) (out : list emitted),
    Gather 200 200 temporalityState = Ok (s', out) /\
    length out = 1%nat /\
    Gather 300 300 s' = Ok (s'', []).
Proof.
  destruct (Gather 200 200 temporalityState) as [[s' out]|p] eqn:Hg.
  - destruct (second_flush_reports_nothing 200 200 300 300 temporalityState s' out
                eq_refl eq_refl eq_refl eq_refl Hg) as (s'' & H2).
    exists s', s'', out. split; [reflexivity|]. split; [|exact H2].
    rewrite (Gather_length 200 200 temporalityState s' out Hg). vm_compute. reflexivity.
  - exfalso. apply Gather_panic in Hg. vm_compute in Hg. discriminate.
Defined.

Lemma expireCachedMetrics_twice_witness :
  expireCachedMetrics 11 (expireCachedMetrics 5 ttlState) = expireCachedMetrics 11 ttlState /\
  expireCachedMetrics 5 (expireCachedMetrics 5 ttlState) = expireCachedMetrics 5 ttlState.
Proof. apply (expireCachedMetrics_twice 5 11 ttlState). lia. Defined.

(** ** Packets *)

Section Packets.
Context `{GoLib} `{Collaborators}.

Lemma parser_lines_app (now inTime : Z) (addr : string) (l1 l2 : list string) :
  forall s : Statsd,
    parser_lines now inTime addr (l1 ++ l2) s =
    (r <- parser_lines now inTime addr l1 s ;; parser_lines now inTime addr l2 (snd r)).
Proof.
  induction l1 as [|line rest IH]; intros s; [reflexivity|].
  cbn [app parser_lines].
  destruct (String.eqb (TrimSpace line) EmptyString); [apply IH|].
  destruct (DataDogExtensions (config s) && HasPrefix (TrimSpace line) "_e"); [apply IH|].
  destruct (parseStatsdLine now (TrimSpace line) s) as [[e s1]|p] eqn:Hp; [|reflexivity].
  cbn [bind]. destruct e as [[|msg]|]; try apply IH.
  apply parseStatsdLine_only_errParsing in Hp. discriminate.
Qed.

(** X20. The worker handles the lines of a packet one after the other and
    keeps nothing from one line to the next but the plugin itself: a
    packet that holds two payloads separated by a newline is handled as
    the packet of the first followed by the packet of the second. *)
Theorem packet_of_two_payloads (now inTime : Z) (addr p1 p2 : string) (s : Statsd) :
  parser now inTime addr (p1 +:+ String "010" p2) s =
  (r <- parser now inTime addr p1 s ;; parser now inTime addr p2 (snd r)).
Proof. unfold parser. rewrite Split_app. apply parser_lines_app. Qed.

(** X21. The drop branch of the UDP listener cannot panic: it counts the
    drop and leaves the caches alone, reports every drop when
    [allowed_pending_messages] is zero, and does what the drop branch of
    the TCP handler does when it is not. Both listeners report the first
    drop. *)
Theorem udpListen_drop_total (s : Statsd) :
  (exists s' : Statsd,
      udpListen_drop s = Ok s' /\ drops s' = wrap64 (drops s + 1) /\
      gauges s' = gauges s /\ counters s' = counters s /\ sets s' = sets s /\
      timings s' = timings s /\ distributions s' = distributions s /\
      (Log s' = Log s \/
       Log s' = Log s ++ [mkLog Error queueFullFormat [VInt64 (wrap64 (drops s + 1))]])) /\
  (AllowedPendingMessages (config s) = 0 ->
   udpListen_drop s =
   Ok (logf Error queueFullFormat [VInt64 (wrap64 (drops s + 1))]
            (set_drops (wrap64 (drops s + 1)) s))) /\
  (AllowedPendingMessages (config s) <> 0 -> handler_drop s = udpListen_drop s) /\
  (drops s = 0 ->
   handler_drop s = Ok (logf Error queueFullFormat [VInt64 1] (set_drops 1 s)) /\
   udpListen_drop s = Ok (logf Error queueFullFormat [VInt64 1] (set_drops 1 s))).
Proof.
  unfold udpListen_drop, handler_drop, goMod. cbn [drops set_drops config].
  split; [|split; [|split]].
  - destruct (wrap64 (drops s + 1) =? 1);
      [|destruct (AllowedPendingMessages (config s) =? 0);
        [|cbn [bind];
          destruct (Z.rem (wrap64 (drops s + 1)) (AllowedPendingMessages (config s)) =? 0)]];
      cbn [bind]; eexists; (split; [reflexivity|]); cbn -[wrap64];
      repeat (split; [reflexivity|]); first [left; reflexivity | right; reflexivity].
  - intros ->. cbn [Z.eqb]. destruct (wrap64 (drops s + 1) =? 1); reflexivity.
  - intros Hne. apply Z.eqb_neq in Hne. rewrite Hne. reflexivity.
  - intros ->. split; reflexivity.
Qed.

End Packets.

Lemma udpListen_drop_total_witness :
  handler_drop (Start defaultConfig 0) = udpListen_drop (Start defaultConfig 0) /\
  udpListen_drop (Start defaultConfig 0) =
  Ok (logf Error queueFullFormat [VInt64 1] (set_drops 1 (Start defaultConfig 0))).
Proof.
  split.
  - apply (proj1 (proj2 (proj2 (udpListen_drop_total (Start defaultConfig 0))))).
    discriminate.
  - apply (proj2 (proj2 (proj2 (udpListen_drop_total (Start defaultConfig 0))))).
    reflexivity.
Defined.

(** ** The TCP connections *)

Lemma Z_iter_succ (n : Z) : 0 <= n -> Z.iter n Z.succ 0 = n.
Proof.
  intros Hn. rewrite Z_iter_nat. rewrite <- (Z2Nat.id n) at 2 by exact Hn.
  induction (Z.to_nat n) as [|k IH]; [reflexivity|].
  rewrite Nat.iter_succ, IH. lia.
Qed.

Lemma removeOne_length {A : Type} `{EqDecision A} (x : A) (l : list A) :
  x ∈ l -> S (length (removeOne x l)) = length l.
Proof.
  induction l as [|y r IH]; [intros Hin; inversion Hin|].
  intros Hin. cbn [removeOne]. destruct (decide (x = y)) as [->|Hne]; [reflexivity|].
  apply elem_of_cons in Hin as [Heq|Hin]; [contradiction|].
  cbn [length]. rewrite (IH Hin). reflexivity.
Qed.

Lemma removeOne_Permutation {A : Type} `{EqDecision A} (x : A) (l : list A) :
  x ∈ l -> Permutation l (x :: removeOne x l).
Proof.
  induction l as [|y r IH]; [intros Hin; inversion Hin|].
  intros Hin. cbn [removeOne]. destruct (decide (x = y)) as [->|Hne]; [reflexivity|].
  apply elem_of_cons in Hin as [Heq|Hin]; [contradiction|].
  rewrite (IH Hin) at 1. apply perm_swap.
Qed.

Lemma removeOne_elem_of {A : Type} `{EqDecision A} (x y : A) (l : list A) :
  y ∈ removeOne x l -> y ∈ l.
Proof.
  induction l as [|z r IH]; [intros Hin; inversion Hin|].
  cbn [removeOne]. destruct (decide (x = z)) as [->|Hne].
  - intros Hin. right. exact Hin.
  - intros Hin. apply elem_of_cons in Hin as [->|Hin]; [left | right; auto].
Qed.

Lemma tcpStep_withinLimit (ev : tcpEvent) (l l' : Listener) :
  tcpStep ev l = Some l' -> withinLimit l ->
  withinLimit l' /\ MaxTCPConnections l' = MaxTCPConnections l.
Proof.
  unfold withinLimit. intros Hs [H0 Hle]. destruct ev as [[|c [id|]]|id c|id]; cbn in Hs.
  - destruct (listening l); [|discriminate]. injection Hs as <-. cbn. auto.
  - destruct (listening l); [|discriminate]. injection Hs as <-.
    destruct (Z.ltb_spec 0 (accept l)); cbn; [|auto].
    rewrite length_app. cbn [length]. lia.
  - destruct (listening l); [|discriminate]. injection Hs as <-.
    destruct (Z.ltb_spec 0 (accept l)); cbn; [|auto]. lia.
  - destruct (bool_decide_reflect ((id, c) ∈ handlers l)) as [Hin|]; [|discriminate].
    destruct (Z.ltb_spec (accept l) (MaxTCPConnections l)); [|discriminate].
    injection Hs as <-. cbn. pose proof (removeOne_length _ _ Hin). lia.
  - destruct (bool_decide (id ∈ forgetting l)); [|discriminate].
    injection Hs as <-. cbn. auto.
Qed.

Lemma tcpRun_withinLimit (evs : list tcpEvent) :
  forall l l' : Listener,
    tcpRun evs l = Some l' -> withinLimit l ->
    withinLimit l' /\ MaxTCPConnections l' = MaxTCPConnections l.
Proof.
  induction evs as [|ev rest IH]; intros l l' Hr Hw.
  - injection Hr as <-. auto.
  - cbn [tcpRun] in Hr. destruct (tcpStep ev l) as [l1|] eqn:Hs; [|discriminate].
    destruct (tcpStep_withinLimit ev l l1 Hs Hw) as [Hw1 Hm1].
    destruct (IH l1 l' Hr Hw1) as [Hw' Hm']. split; [exact Hw' | congruence].
Qed.

(** X22. At most [max_tcp_connections] handlers run at a time. Whatever
    the listener and the handlers did since [Start], the handlers that
    run are no more than the limit; a handler that ends finds room in the
    channel for its permit, so its deferred function does not block; and
    when as many handlers run as the limit allows, the next connection is
    refused and closed. *)
Theorem tcp_connection_limit (max : Z) (evs : list tcpEvent) (l0 l : Listener) :
  startListener max = Some l0 ->
  tcpRun evs l0 = Some l ->
  Z.of_nat (length (handlers l)) <= max /\
  (forall (id : string) (c : conn),
      (id, c) ∈ handlers l -> tcpStep (Release id c) l = Some (handler_release id c l)) /\
  (forall (c : conn) (id : option string),
      Z.of_nat (length (handlers l)) = max ->
      tcpListen_iteration (AcceptOk c id) l = refuser c l).
Proof.
  unfold startListener. intros Hs Hr.
  destruct (Z.ltb_spec max 0) as [|Hmax]; [discriminate|]. injection Hs as <-.
  destruct (tcpRun_withinLimit evs _ l Hr) as [[H0 Hle] Hm].
  { unfold withinLimit. cbn. rewrite Z_iter_succ by exact Hmax. lia. }
  cbn in Hm. rewrite Hm in Hle. split; [lia|]. split.
  - intros id c Hin. cbn [tcpStep]. rewrite bool_decide_eq_true_2 by exact Hin.
    assert (Hpos : (0 < length (handlers l))%nat).
    { destruct (handlers l); [inversion Hin | cbn; lia]. }
    rewrite Hm. destruct (Z.ltb_spec (accept l) max); [reflexivity | lia].
  - intros c id Hfull. cbn [tcpListen_iteration].
    destruct (Z.ltb_spec 0 (accept l)); [lia | reflexivity].
Qed.

Lemma tcp_connection_limit_witness :
  exists l : Listener,
    tcpRun [Listen (AcceptOk 1 (Some "aaaaaa")); Listen (AcceptOk 2 (Some "bbbbbb"))]
           (mkListener 1 1 ∅ [] [] [] [] true) = Some l /\
    Z.of_nat (length (handlers l)) <= 1.
Proof.
  destruct (tcpRun [Listen (AcceptOk 1 (Some "aaaaaa")); Listen (AcceptOk 2 (Some "bbbbbb"))]
                   (mkListener 1 1 ∅ [] [] [] [] true)) as [l|] eqn:Hr;
    [|cbn in Hr; discriminate].
  exists l. split; [reflexivity|].
  apply (tcp_connection_limit 1 _ (mkListener 1 1 ∅ [] [] [] [] true) l eq_refl Hr).
Defined.

Lemma tcpStep_tracked (ev : tcpEvent) (l l' : Listener) :
  tcpStep ev l = Some l' ->
  match ev with
  | Listen (AcceptOk _ (Some id)) => id ∉ idsInUse l
  | _ => True
  end ->
  tracked l -> tracked l'.
Proof.
  unfold tracked, idsInUse. intros Hs Hfresh [Hnd Htr].
  destruct ev as [[|c [id|]]|id c|id]; cbn in Hs.
  - destruct (listening l); [|discriminate]. injection Hs as <-. cbn. auto.
  - destruct (listening l); [|discriminate]. injection Hs as <-.
    destruct (0 <? accept l); cbn; [|auto]. split.
    + rewrite map_app. cbn [map fst].
      assert (Hp : Permutation ((map fst (handlers l) ++ [id]) ++ forgetting l)
                               (id :: map fst (handlers l) ++ forgetting l)).
      { rewrite <- app_assoc. cbn [app]. symmetry. apply Permutation_middle. }
      rewrite Hp. apply NoDup_cons. split; [exact Hfresh | exact Hnd].
    + intros id' c' Hin. apply elem_of_app in Hin as [Hin|Hin].
      * rewrite lookup_insert_ne; [apply Htr, Hin|].
        intros <-. apply Hfresh. apply elem_of_app. left.
        apply list_elem_of_fmap. exists (id, c'). auto.
      * apply list_elem_of_singleton in Hin. injection Hin as -> ->.
        apply lookup_insert_eq.
  - destruct (listening l); [|discriminate]. injection Hs as <-.
    destruct (0 <? accept l); cbn; auto.
  - destruct (bool_decide_reflect ((id, c) ∈ handlers l)) as [Hin|]; [|discriminate].
    destruct (accept l <? MaxTCPConnections l); [|discriminate].
    injection Hs as <-. cbn. split.
    + assert (Hp : Permutation (map fst (handlers l) ++ forgetting l)
                     (map fst (removeOne (id, c) (handlers l)) ++ forgetting l ++ [id])).
      { rewrite (removeOne_Permutation _ _ Hin) at 1. cbn [map fst app].
        rewrite Permutation_middle. apply Permutation_app_head.
        apply Permutation_cons_append. }
      rewrite <- Hp. exact Hnd.
    + intros id' c' Hin'. apply Htr. apply (removeOne_elem_of _ _ _ Hin').
  - destruct (bool_decide_reflect (id ∈ forgetting l)) as [Hin|]; [|discriminate].
    injection Hs as <-. cbn. split.
    + rewrite (removeOne_Permutation _ _ Hin) in Hnd.
      rewrite <- Permutation_middle in Hnd. apply NoDup_cons in Hnd as [_ Hnd]. exact Hnd.
    + intros id' c' Hin'. rewrite lookup_delete_ne; [apply Htr, Hin'|].
      intros <-. apply NoDup_app in Hnd as (_ & Hdis & _).
      apply (Hdis id); [|exact Hin].
      apply list_elem_of_fmap. exists (id, c'). auto.
Qed.

Lemma tcpRun_tracked (evs : list tcpEvent) :
  forall l l' : Listener,
    tcpRun evs l = Some l' -> freshIds evs l -> tracked l -> tracked l'.
Proof.
  induction evs as [|ev rest IH]; intros l l' Hr Hf Ht.
  - injection Hr as <-. exact Ht.
  - cbn [tcpRun freshIds] in Hr, Hf. destruct Hf as [Hfresh Hf].
    destruct (tcpStep ev l) as [l1|] eqn:Hs; [|discriminate].
    apply (IH l1 l' Hr Hf). apply (tcpStep_tracked ev l l1 Hs); assumption.
Qed.

(** X23. The table of connections follows the handlers as long as the
    random ids do not repeat. If every id drawn since [Start] was not in
    use when it was drawn, every handler that runs has its connection in
    the table under its id, so [Stop] closes it. An id that repeats
    breaks this: after two connections under one id, the end of the
    second handler removes the entry of the first, which runs on with a
    connection that [Stop] will not close. *)
Theorem tcp_conns_track_handlers :
  (forall (max : Z) (evs : list tcpEvent) (l0 l : Listener),
      startListener max = Some l0 ->
      freshIds evs l0 ->
      tcpRun evs l0 = Some l ->
      forall (id : string) (c : conn),
        (id, c) ∈ handlers l -> conns l !! id = Some c /\ c ∈ Stop_closes l) /\
  option_map (fun l => (handlers l, Stop_closes l))
    (match startListener 2 with
     | Some l0 =>
         tcpRun [Listen (AcceptOk 1 (Some "aaaaaa")); Listen (AcceptOk 2 (Some "aaaaaa"));
                 Release "aaaaaa" 2; Forget "aaaaaa"] l0
     | None => None
     end) =
  Some ([("aaaaaa", 1)], []).
Proof.
  split; [|vm_compute; reflexivity].
  intros max evs l0 l Hs Hf Hr id c Hin. unfold startListener in Hs.
  destruct (max <? 0); [discriminate|]. injection Hs as <-.
  assert (Ht : tracked l).
  { apply (tcpRun_tracked evs _ l Hr Hf). split; [constructor|].
    intros id' c' Hin'. inversion Hin'. }
  destruct Ht as [_ Ht]. specialize (Ht id c Hin). split; [exact Ht|].
  unfold Stop_closes. apply list_elem_of_fmap. exists (id, c). split; [reflexivity|].
  apply elem_of_map_to_list. exact Ht.
Qed.

Lemma tcp_conns_track_handlers_witness :
  exists l : Listener,
    tcpRun [Listen (AcceptOk 1 (Some "aaaaaa")); Listen (AcceptOk 2 (Some "bbbbbb"));
            Release "aaaaaa" 1]
           (mkListener 2 2 ∅ [] [] [] [] true) = Some l /\
    conns l !! "bbbbbb" = Some 2 /\ 2 ∈ Stop_closes l.
Proof.
  destruct (tcpRun [Listen (AcceptOk 1 (Some "aaaaaa")); Listen (AcceptOk 2 (Some "bbbbbb"));
                    Release "aaaaaa" 1]
                   (mkListener 2 2 ∅ [] [] [] [] true)) as [l|] eqn:Hr;
    [|vm_compute in Hr; discriminate].
  exists l. split; [reflexivity|].
  apply (proj1 tcp_conns_track_handlers 2
           [Listen (AcceptOk 1 (Some "aaaaaa")); Listen (AcceptOk 2 (Some "bbbbbb"));
            Release "aaaaaa" 1]
           (mkListener 2 2 ∅ [] [] [] [] true) l eq_refl).
  - cbn. repeat split; intros Hin;
      repeat match goal with
             | Hx : _ ∈ _ |- _ => inversion Hx; clear Hx; subst
             end.
  - exact Hr.
  - assert (Hh : handlers l = [("bbbbbb", 2)]).
    { vm_compute in Hr. injection Hr as <-. reflexivity. }
    rewrite Hh. left.
Defined.

(** ** Across flushes *)

Section AcrossFlushes.
Context `{GoLib} `{Collaborators}.

Lemma flushed_lookup_Some {V : Type} (del : bool) (ttl now : Z)
    (c : gmap string (cached V)) (k : string) (e : cached V) :
  c !! k = Some e -> outlives del ttl now e -> flushed del ttl now c !! k = Some e.
Proof.
  intros Hk [-> Hlive]. unfold flushed. destruct (Z.eqb_spec ttl 0) as [|Hne]; [exact Hk|].
  rewrite dropExpired_lookup, Hk. destruct Hlive as [|Hlive]; [contradiction|].
  destruct (Z.ltb_spec (expiresAt e) now); [lia | reflexivity].
Qed.

(** X24. An entry that outlives a flush is the entry it was. When the
    cache of its type is not reset and the entry has not expired, a set
    or a timing entry is in the cache after the flush as it was before;
    so is a gauge entry when the aggregation temporality is off, and a
    counter entry when [float_counters] is off too. A counter that is
    not deleted therefore goes on from its total. *)
Theorem kept_entries_survive_flush (now nowExpire : Z) (s s' : Statsd)
    (out : list emitted) (k : string) :
  Gather now nowExpire s = Ok (s', out) ->
  (forall e : cachedset,
      sets s !! k = Some e ->
      outlives (DeleteSets (config s)) (MaxTTL (config s)) nowExpire e ->
      sets s' !! k = Some e) /\
  (forall e : cached runningStats,
      timings s !! k = Some e ->
      outlives (DeleteTimings (config s)) (MaxTTL (config s)) nowExpire e ->
      timings s' !! k = Some e) /\
  (EnableAggregationTemporality (config s) = false ->
   forall e : cachedgauge,
     gauges s !! k = Some e ->
     outlives (DeleteGauges (config s)) (MaxTTL (config s)) nowExpire e ->
     gauges s' !! k = Some e) /\
  (EnableAggregationTemporality (config s) = false ->
   FloatCounters (config s) = false ->
   forall e : cachedcounter,
     counters s !! k = Some e ->
     outlives (DeleteCounters (config s)) (MaxTTL (config s)) nowExpire e ->
     counters s' !! k = Some e).
Proof.
  rewrite Gather_eq. intros Hg.
  destruct (forEach (gatherCounter s) (counters s)) as [c|p] eqn:Hfe; [|discriminate].
  cbn [bind] in Hg. injection Hg as <- _. cbn [sets timings gauges counters].
  split; [|split; [|split]].
  - intros e Hk Hl. apply flushed_lookup_Some; assumption.
  - intros e Hk Hl. apply flushed_lookup_Some; assumption.
  - intros Ht e Hk Hl. apply flushed_lookup_Some; [|exact Hl].
    rewrite lookup_fmap, Hk. cbn. unfold gatherGauge, withStartTime. rewrite Ht.
    destruct e. reflexivity.
  - intros Ht Hf e Hk Hl. apply flushed_lookup_Some; [|exact Hl].
    apply (forEach_lookup _ _ _ Hfe). exists e. split; [exact Hk|].
    unfold gatherCounter, withStartTime. rewrite Ht, Hf. destruct e. reflexivity.
Qed.

(** X25. With [enable_aggregation_temporality] on, every record of a
    flush carries the field [start_time], the time of the flush before
    (or of [Start]), and the flush leaves its own time for the next
    one. *)
Theorem Gather_start_time (now nowExpire : Z) (s s' : Statsd) (out : list emitted) :
  EnableAggregationTemporality (config s) = true ->
  Gather now nowExpire s = Ok (s', out) ->
  Forall (fun e => efields e !! "start_time" =
                   Some (VString (FormatRFC3339 (lastGatherTime s)))) out /\
  lastGatherTime s' = now.
Proof.
  intros Ht. rewrite Gather_eq. intros Hg.
  destruct (forEach (gatherCounter s) (counters s)) as [c|p] eqn:Hfe; [|discriminate].
  cbn [bind] in Hg. injection Hg as <- <-. split; [|reflexivity].
  assert (Hw : forall f : gmap string iface,
             withStartTime s f !! "start_time" =
             Some (VString (FormatRFC3339 (lastGatherTime s)))).
  { intros f. unfold withStartTime. rewrite Ht. apply lookup_insert_eq. }
  repeat (apply Forall_app; split); apply List.Forall_forall; intros x Hx;
    apply in_map_iff in Hx as (y & <- & Hy); cbn [efields emitCached]; try apply Hw.
  - apply list_elem_of_In in Hy. destruct y as [k e]. apply elem_of_map_to_list in Hy.
    rewrite lookup_fmap in Hy. destruct (gauges s !! k) as [e0|]; [|discriminate].
    injection Hy as <-. cbn [snd gatherGauge fields]. apply Hw.
  - apply list_elem_of_In in Hy. destruct y as [k e]. apply elem_of_map_to_list in Hy.
    apply (forEach_lookup _ _ _ Hfe) in Hy as (e0 & _ & He0). cbn [snd].
    unfold gatherCounter in He0. destruct (FloatCounters (config s)).
    + exfalso. destruct (forEach floatOfCounter _) as [f|p] eqn:Hin; [|discriminate].
      destruct (forEach_all_ok _ _ _ Hin "start_time"
                  (VString (FormatRFC3339 (lastGatherTime s)))) as (b & Hb);
        [apply Hw | discriminate].
    + cbn [bind] in He0. injection He0 as <-. cbn [fields]. apply Hw.
Qed.

End AcrossFlushes.

Lemma kept_entries_survive_flush_witness :
  exists (s' : Statsd) (out : list emitted),
    Gather 5 5 ttlState = Ok (s', out) /\
    gauges s' !! "metric_type=gaugeload" =
    Some (mkCached "load" {["value" := VFloat64 f64_one]} ∅ 10).
Proof.
  destruct (Gather_wellTyped 5 5 ttlState wellTyped_ttlState eq_refl)
    as (s' & out & Hg & _).
  exists s', out. split; [exact Hg|].
  apply (proj1 (proj2 (proj2 (kept_entries_survive_flush 5 5 ttlState s' out
                                "metric_type=gaugeload" Hg)))).
  - reflexivity.
  - apply lookup_singleton_eq.
  - split; [reflexivity|]. right. cbn. lia.
Defined.

Lemma Gather_start_time_witness :
  exists (s' : Statsd) (out : list emitted),
    Gather 200 200 temporalityState = Ok (s', out) /\
    Forall (fun e => efields e !! "start_time" = Some (VString (FormatRFC3339 100))) out /\
    lastGatherTime s' = 200.
Proof.
  destruct (Gather 200 200 temporalityState) as [[s' out]|p] eqn:Hg.
  - exists s', out. split; [reflexivity|].
    apply (Gather_start_time 200 200 temporalityState s' out eq_refl Hg).
  - exfalso. apply Gather_panic in Hg. vm_compute in Hg. discriminate.
Defined.
